(** * Sverchok nodes: bend along surface, select solid elements, vector math

    A shallow embedding of three node kernels of the Sverchok add-on, and of
    the collecting part of its node-group operator:

    - [nodes/modifier_change/bend_along_surface.py]
      ([SvBendAlongSurfaceNode]: [get_other_axes], [get_uv], the loop body of
      [process]);
    - [nodes/solid/solid_select.py]
      ([SvSelectSolidNode]: [map_percent], [_by_side], the per-category mask
      functions and [calc_mask]);
    - [nodes/vertex/math_mk2.py]
      ([SvVectorMathNodeMK2]: [func_dict], [recurse_fx], [recurse_fxy],
      [process]);
    - [utils/group_tools.py]
      ([SvNodeGroupCreator.execute], up to the placement of the new nodes).

    Python floats are idealised as exact rationals ([Q]): arithmetic is
    exact, comparison is the comparison of the values, and a Python-level
    division by zero raises [ZeroDivisionError] exactly as [float.__truediv__]
    does; there is no rounding, no infinity and no NaN.  Where rounding or
    numpy's arithmetic decides what the code does, the expression is given a
    second time on binary64 numbers ([Binary64]) and evaluated there.
    Exceptions are explicit: a computation that may raise returns a
    [result], and what Python evaluates left to right is bound left to
    right.

    What the nodes import from the rest of the add-on and from its host
    ([Spline2D], [SvSolidTopology], the geometry utilities, [mathutils],
    the CAD kernel) is not part of these files.  Functions the nodes only
    call are parameters; the few whose behaviour matters here are modelled
    from the specification and marked as such.

    The definitions come first; the properties start at "Properties". *)

From Stdlib Require Import String List Bool Arith ZArith QArith Qabs Lia Lqa.
From Stdlib Require Import Permutation.
From Stdlib Require PrimFloat.
Import ListNotations.

Set Implicit Arguments.

(** ** Python runtime: exceptions, sequences, numbers *)

Module Py.

Inductive exn_class :=
| ZeroDivisionError
| ValueError
| IndexError
| TypeError
| KeyError
| RecursionError
| SvNoDataError
| Exception.

(** An exception object: its class and the message it carries. *)
Record exn := mk_exn { exn_cls : exn_class; exn_msg : string }.

Inductive result (A : Type) : Type :=
| Ok (a : A)
| Raise (e : exn).

Arguments Ok {A} a.
Arguments Raise {A} e.

Definition bind {A B} (m : result A) (k : A -> result B) : result B :=
  match m with
  | Ok a => k a
  | Raise e => Raise e
  end.

Definition is_ok {A} (m : result A) : bool :=
  match m with Ok _ => true | Raise _ => false end.

(** A comprehension [[f x for x in xs]] whose body may raise: elements are
    evaluated left to right and the first exception aborts the whole
    comprehension. *)
Fixpoint mapM {A B} (f : A -> result B) (xs : list A) : result (list B) :=
  match xs with
  | [] => Ok []
  | x :: xs' =>
      bind (f x) (fun y => bind (mapM f xs') (fun ys => Ok (y :: ys)))
  end.

(** *** Numbers *)

Definition Qltb (x y : Q) : bool := negb (Qle_bool y x).
Definition Qgtb (x y : Q) : bool := Qltb y x.

Definition zero_division : exn :=
  mk_exn ZeroDivisionError "float division by zero".

(** [x / y] on Python floats. *)
Definition py_div (x y : Q) : result Q :=
  if Qeq_bool y 0 then Raise zero_division else Ok (x / y).

(** Builtin [min] and [max] on a sequence: the first smallest (largest)
    item, [ValueError] on an empty sequence. *)
Definition py_min (xs : list Q) : result Q :=
  match xs with
  | [] => Raise (mk_exn ValueError "min() arg is an empty sequence")
  | x :: rest => Ok (fold_left (fun m y => if Qltb y m then y else m) rest x)
  end.

Definition py_max (xs : list Q) : result Q :=
  match xs with
  | [] => Raise (mk_exn ValueError "max() arg is an empty sequence")
  | x :: rest => Ok (fold_left (fun m y => if Qgtb y m then y else m) rest x)
  end.

(** [math.sqrt]: the real square root is not rational, so the root function
    itself is a parameter; the domain check is the library's. *)
Definition py_sqrt (sqrt : Q -> Q) (x : Q) : result Q :=
  if Qltb x 0 then Raise (mk_exn ValueError "math domain error")
  else Ok (sqrt x).

(** Builtins [all] and [any] on a sequence of booleans. *)
Definition all (bs : list bool) : bool := forallb (fun b => b) bs.
Definition any (bs : list bool) : bool := existsb (fun b => b) bs.

End Py.

Import Py.

Declare Scope py_scope.
Delimit Scope py_scope with py.
Notation "'let*' x ':=' m 'in' k" := (bind m (fun x => k))
  (at level 10, x name, m at level 100, k at level 200) : py_scope.
Notation "'let*' ' p ':=' m 'in' k" := (bind m (fun x => match x with p => k end))
  (at level 10, p pattern, m at level 100, k at level 200) : py_scope.
Open Scope py_scope.
Open Scope Q_scope.

(** ** Points *)

(** A vertex is a 3-tuple of floats. *)
Definition vec3 : Type := (Q * Q * Q)%type.

(** The three valid indices of a 3-tuple. *)
Inductive idx3 := I0 | I1 | I2.

Definition item (v : vec3) (i : idx3) : Q :=
  let '(x, y, z) := v in
  match i with I0 => x | I1 => y | I2 => z end.

(** numpy array arithmetic on arrays of shape (3,). *)
Definition vadd (a b : vec3) : vec3 :=
  let '(ax, ay, az) := a in
  let '(bx, by_, bz) := b in
  (ax + bx, ay + by_, az + bz).

Definition smul (k : Q) (a : vec3) : vec3 :=
  let '(ax, ay, az) := a in (k * ax, k * ay, k * az).

Definition dot (a b : vec3) : Q :=
  let '(ax, ay, az) := a in
  let '(bx, by_, bz) := b in
  ax * bx + ay * by_ + az * bz.

Definition grid (A : Type) : Type := list (list A).

(** ** Bend object along surface *)

Module BendAlongSurface.

(** [modes]: the interpolation mode selects the spline constructor. *)
Inductive mode_t := SPL | LIN.
Inductive spline_constructor := LinearSpline | CubicSpline.

(** [metrics] *)
Inductive metric_t := MANHATTAN | DISTANCE | POINTS | CHEBYSHEV.

(** [axes]: the items of the [orient_axis_] property. *)
Inductive axis_t := X | Y | Z.

(** What the node uses of a [Spline2D] object: [spline.eval(u, v)] and
    [spline.normal(u, v)]. *)
Record Spline := { eval : Q -> Q -> vec3; normal : Q -> Q -> vec3 }.

(** The node's properties. *)
Record node := {
  mode : mode_t;
  metric : metric_t;
  orient_axis_ : axis_t;
  autoscale : bool
}.

(** ['XYZ'.index(letter)] *)
Definition get_axis_idx (letter : axis_t) : idx3 :=
  match letter with X => I0 | Y => I1 | Z => I2 end.

Definition orient_axis (self : node) : idx3 :=
  get_axis_idx (orient_axis_ self).

Definition get_other_axes (self : node) : idx3 * idx3 :=
  match orient_axis_ self with
  | X => (I1, I2)
  | Y => (I0, I2)
  | Z => (I0, I1)
  end.

(** Modelled from the spec: [diameter] of [sverchok.utils.geom] is not among
    the sources; the spec describes it as the physical extent of the point
    set along the axis, that is the largest minus the smallest coordinate. *)
Definition diameter (vertices : list vec3) (axis : idx3) : result Q :=
  let xs := map (fun vertex => item vertex axis) vertices in
  let* M := py_max xs in
  let* m := py_min xs in
  Ok (M - m).

Section Kernel.

(** [Spline2D(surface, u_spline_constructor=..., metric=...)] and
    [math.sqrt] come from outside the node. *)
Variable Spline2D :
  grid vec3 -> spline_constructor -> metric_t -> result Spline.
Variable sqrt : Q -> Q.

Definition build_spline (self : node) (surface : grid vec3)
  : result Spline :=
  let constructor :=
    match mode self with
    | LIN => LinearSpline
    | SPL => CubicSpline
    end in
  Spline2D surface constructor (metric self).

Definition get_uv (self : node) (vertices : grid vec3)
  : result (Q * Q * grid (Q * Q)) :=
  let '(u_index, v_index) := get_other_axes self in
  let us := map (fun vertex => item vertex u_index) (concat vertices) in
  let vs := map (fun vertex => item vertex v_index) (concat vertices) in
  let* min_u := py_min us in
  let* max_u := py_max us in
  let* min_v := py_min vs in
  let* max_v := py_max vs in
  let size_u := max_u - min_u in
  let size_v := max_v - min_v in
  let* result :=
    mapM (fun col =>
      mapM (fun vertex =>
        let* u := py_div (item vertex u_index - min_u) size_u in
        let* v := py_div (item vertex v_index - min_v) size_v in
        Ok (u, v)) col) vertices in
  Ok (size_u, size_v, result).

(** The displacement scale of one object (lines 161-168 of [process]). *)
Definition scale_z_of (self : node) (surface : grid vec3)
    (src_size_u src_size_v : Q) : result Q :=
  if autoscale self then
    let '(u_index, v_index) := get_other_axes self in
    let surface_flattened := concat surface in
    let* du := diameter surface_flattened u_index in
    let* scale_u := py_div du src_size_u in
    let* dv := diameter surface_flattened v_index in
    let* scale_v := py_div dv src_size_v in
    py_sqrt sqrt (scale_u * scale_v)
  else Ok 1.

(** The body of the loop of [process] (lines 155-182): one object bent
    along one surface. *)
Definition bend (self : node) (vertices surface : grid vec3)
  : result (grid vec3) :=
  let* spline := build_spline self surface in
  let* '(src_size_u, src_size_v, uv_coords) := get_uv self vertices in
  let* scale_z := scale_z_of self surface src_size_u src_size_v in
  Ok (map (fun '(uv_row, vertices_row) =>
        map (fun '((u, v), src_vertex) =>
          let spline_vertex := eval spline u v in
          let spline_normal := normal spline u v in
          let z := item src_vertex (orient_axis self) in
          vadd spline_vertex (smul (scale_z * z) spline_normal))
          (combine uv_row vertices_row))
        (combine uv_coords vertices)).

(** [process]: every object of the [Vertices] input is bent along the one
    surface of the [Surface] input; an exception aborts the node before
    anything is written to the output socket. *)
Definition process (self : node) (vertices_s : list (grid vec3))
    (surface : grid vec3) : result (list (grid vec3)) :=
  mapM (fun vertices => bend self vertices surface) vertices_s.

End Kernel.

End BendAlongSurface.

(** ** Select solid elements *)

Module SolidSelect.

(** *** The solid

    The elements of a B-rep solid as the node reads them: [solid.Vertexes],
    [solid.Edges], [solid.Faces], [face.Vertexes], [face.Edges],
    [edge.Vertexes] and the coordinates [v.X], [v.Y], [v.Z].
    [SvSolidTopology.Item] wraps an element so that it hashes and compares by
    the identity of the underlying shape; here an element carries an
    identifier and two elements are the same item when they are equal. *)
Record Vertex := { v_id : nat; v_X : Q; v_Y : Q; v_Z : Q }.
Record Edge := { e_id : nat; e_Vertexes : list Vertex }.
Record Face := { f_id : nat; f_Vertexes : list Vertex; f_Edges : list Edge }.
Record Solid := {
  Vertexes : list Vertex;
  Edges : list Edge;
  Faces : list Face
}.

Definition Q_eq_dec (a b : Q) : {a = b} + {a <> b}.
Proof. decide equality; [apply Pos.eq_dec | apply Z.eq_dec]. Defined.

Definition Vertex_eq_dec (a b : Vertex) : {a = b} + {a <> b}.
Proof. decide equality; (apply Q_eq_dec || apply Nat.eq_dec). Defined.

Definition Edge_eq_dec (a b : Edge) : {a = b} + {a <> b}.
Proof.
  decide equality; [apply (list_eq_dec Vertex_eq_dec) | apply Nat.eq_dec].
Defined.

Definition Face_eq_dec (a b : Face) : {a = b} + {a <> b}.
Proof.
  decide equality;
    [apply (list_eq_dec Edge_eq_dec) | apply (list_eq_dec Vertex_eq_dec)
    | apply Nat.eq_dec].
Defined.

(** [item in container], items compared as [SvSolidTopology.Item] does. *)
Definition contains {A} (eq_dec : forall a b : A, {a = b} + {a <> b})
    (container : list A) (x : A) : bool :=
  existsb (fun y => if eq_dec x y then true else false) container.

(** A dict, newest binding first. *)
Definition dict (K V : Type) : Type := list (K * V).

Definition dict_set {K V} (d : dict K V) (k : K) (v : V) : dict K V :=
  (k, v) :: d.

Fixpoint dict_get {K V} (eq_dec : forall a b : K, {a = b} + {a <> b})
    (d : dict K V) (k : K) : result V :=
  match d with
  | [] => Raise (mk_exn KeyError "")
  | (k', v) :: d' => if eq_dec k k' then Ok v else dict_get eq_dec d' k
  end.

(** *** The node *)

Inductive element_type_t := VERTS | EDGES | FACES.

Inductive criteria_type_t :=
| SIDE | NORMAL | SPHERE | PLANE | CYLINDER | DIRECTION.

Record node := {
  element_type : element_type_t;
  criteria_type : criteria_type_t;
  include_partial : bool
}.

(** [known_criteria] *)
Definition known_criteria (t : element_type_t) : list criteria_type_t :=
  match t with
  | VERTS => [SIDE; SPHERE; PLANE; CYLINDER]
  | EDGES => [SIDE; SPHERE; PLANE; CYLINDER; DIRECTION]
  | FACES => [SIDE; NORMAL; SPHERE; PLANE; CYLINDER]
  end.

(** *** What the node imports

    The CAD kernel and the geometry utilities of [sverchok.utils.geom] are not
    among the sources; the node only calls them, so they are parameters:
    - [norm]: [np.linalg.norm];
    - [discretize edge precision]: [edge.discretize(Deflection=precision)];
    - [tessellate face precision]: the points of [face.tessellate(precision)];
    - [point_distance origin v]: the distance the vertex range query measures;
    - [plane_distance normal point v]:
      [PlaneEquation.from_normal_and_point(normal, point).distance_to_point(v)];
    - [line_distance direction point v]:
      [LineEquation.from_direction_and_point(direction, point).distance_to_point(v)];
    - [line_direction points]:
      [linear_approximation(points).most_similar_line().direction];
    - [plane_normal points]:
      [linear_approximation(points).most_similar_plane().normal]. *)
Record Geom := {
  norm : vec3 -> Q;
  discretize : Edge -> Q -> list vec3;
  tessellate_face : Face -> Q -> list vec3;
  point_distance : vec3 -> vec3 -> Q;
  plane_distance : vec3 -> vec3 -> vec3 -> Q;
  line_distance : vec3 -> vec3 -> vec3 -> Q;
  line_direction : list vec3 -> vec3;
  plane_normal : list vec3 -> vec3
}.

(** *** numpy *)

Definition vsub (a b : vec3) : vec3 :=
  let '(ax, ay, az) := a in
  let '(bx, by_, bz) := b in
  (ax - bx, ay - by_, az - bz).

(** [direction / n] for an array and a scalar; numpy does not raise here. *)
Definition np_div (a : vec3) (n : Q) : vec3 :=
  let '(ax, ay, az) := a in (ax / n, ay / n, az / n).

Definition shape_error : exn :=
  mk_exn ValueError "shapes (0,) and (3,) not aligned".

(** [points.dot(direction)] for [points = np.array(list of 3-tuples)]: an
    empty list makes an array of shape (0,), which does not align with a
    vector of shape (3,). *)
Definition np_dot (points : list vec3) (direction : vec3) : result (list Q) :=
  match points with
  | [] => Raise shape_error
  | _ => Ok (map (fun p => dot p direction) points)
  end.

(** [values > threshold], elementwise. *)
Definition np_gt (values : list Q) (threshold : Q) : list bool :=
  map (fun v => Qgtb v threshold) values.

(** [distances < bound], elementwise. *)
Definition np_lt (values : list Q) (bound : Q) : list bool :=
  map (fun v => Qltb v bound) values.

(** [(dvs * dvs).sum(axis=1)] with [dvs = points - center]; the subtraction
    does not broadcast an array of shape (0,) against one of shape (3,). *)
Definition np_sq_distances (points : list vec3) (center : vec3)
  : result (list Q) :=
  match points with
  | [] => Raise (mk_exn ValueError "operands could not be broadcast together")
  | _ => Ok (map (fun p => let dv := vsub p center in dot dv dv) points)
  end.

(** *** The topology helper

    Modelled from the spec: the class [SvSolidTopology] of
    [sverchok.utils.solid] is not among the sources.  The spec gives it
    per-element point sampling at a tessellation precision, location masks
    (an element passes when its sample points satisfy the condition, any of
    them with partial selection, all of them otherwise) and adjacency masks
    (an element is marked when it is incident to at least one of the given
    elements). *)
Record SvSolidTopology := {
  solid : Solid;
  _points_by_edge : dict Edge (list vec3);
  _points_by_face : dict Face (list vec3)
}.

(** Modelled from the spec: [SvSolidTopology(solid)], nothing sampled yet. *)
Definition new_topology (s : Solid) : SvSolidTopology :=
  {| solid := s; _points_by_edge := []; _points_by_face := [] |}.

(** Modelled from the spec: [topo.tessellate(precision)] samples every edge
    and every face of the solid. *)
Definition tessellate (G : Geom) (topo : SvSolidTopology) (precision : Q)
  : SvSolidTopology :=
  {| solid := solid topo;
     _points_by_edge :=
       fold_left (fun d edge => dict_set d edge (discretize G edge precision))
                 (Edges (solid topo)) [];
     _points_by_face :=
       fold_left (fun d face => dict_set d face (tessellate_face G face precision))
                 (Faces (solid topo)) [] |}.

(** Modelled from the spec: [topo.get_points_by_edge(edge)], the sample
    points of the edge; an edge that was not sampled has none. *)
Definition get_points_by_edge (topo : SvSolidTopology) (edge : Edge)
  : list vec3 :=
  match dict_get Edge_eq_dec (_points_by_edge topo) edge with
  | Ok points => points
  | Raise _ => []
  end.

(** Modelled from the spec: [topo.get_points_by_face(face)]. *)
Definition get_points_by_face (topo : SvSolidTopology) (face : Face)
  : list vec3 :=
  match dict_get Face_eq_dec (_points_by_face topo) face with
  | Ok points => points
  | Raise _ => []
  end.

Definition to_tuple (v : Vertex) : vec3 := (v_X v, v_Y v, v_Z v).

(** Modelled from the spec: [topo.get_vertices_by_location_mask(condition)]. *)
Definition get_vertices_by_location_mask (topo : SvSolidTopology)
    (condition : vec3 -> bool) : list bool :=
  map (fun v => condition (to_tuple v)) (Vertexes (solid topo)).

(** Modelled from the spec: [topo.get_vertices_within_range_mask(origin,
    distance)]: the vertices whose distance to the origin is below the given
    distance. *)
Definition get_vertices_within_range_mask (G : Geom) (topo : SvSolidTopology)
    (origin : vec3) (distance : Q) : list bool :=
  map (fun v => Qltb (point_distance G origin (to_tuple v)) distance)
      (Vertexes (solid topo)).

(** Modelled from the spec: [topo.get_edges_by_location_mask(condition,
    include_partial)]; [condition] is vectorized over the sample points. *)
Definition get_edges_by_location_mask (topo : SvSolidTopology)
    (condition : list vec3 -> result (list bool)) (include_partial : bool)
  : result (list bool) :=
  let check := if include_partial then any else all in
  mapM (fun edge =>
          let* test := condition (get_points_by_edge topo edge) in
          Ok (check test))
       (Edges (solid topo)).

(** Modelled from the spec: [topo.get_faces_by_location_mask(condition,
    include_partial)]. *)
Definition get_faces_by_location_mask (topo : SvSolidTopology)
    (condition : list vec3 -> result (list bool)) (include_partial : bool)
  : result (list bool) :=
  let check := if include_partial then any else all in
  mapM (fun face =>
          let* test := condition (get_points_by_face topo face) in
          Ok (check test))
       (Faces (solid topo)).

(** Modelled from the spec: the six adjacency masks.  A vertex is incident to
    the edges and faces that contain it, an edge to the faces that contain
    it. *)
Definition get_edges_by_vertices_mask (topo : SvSolidTopology)
    (verts : list Vertex) : list bool :=
  map (fun edge => existsb (contains Vertex_eq_dec (e_Vertexes edge)) verts)
      (Edges (solid topo)).

Definition get_faces_by_vertices_mask (topo : SvSolidTopology)
    (verts : list Vertex) : list bool :=
  map (fun face => existsb (contains Vertex_eq_dec (f_Vertexes face)) verts)
      (Faces (solid topo)).

Definition get_vertices_by_edges_mask (topo : SvSolidTopology)
    (edges : list Edge) : list bool :=
  map (fun v => existsb (fun edge => contains Vertex_eq_dec (e_Vertexes edge) v)
                        edges)
      (Vertexes (solid topo)).

Definition get_faces_by_edges_mask (topo : SvSolidTopology)
    (edges : list Edge) : list bool :=
  map (fun face => existsb (contains Edge_eq_dec (f_Edges face)) edges)
      (Faces (solid topo)).

Definition get_vertices_by_faces_mask (topo : SvSolidTopology)
    (faces : list Face) : list bool :=
  map (fun v => existsb (fun face => contains Vertex_eq_dec (f_Vertexes face) v)
                        faces)
      (Vertexes (solid topo)).

Definition get_edges_by_faces_mask (topo : SvSolidTopology)
    (faces : list Face) : list bool :=
  map (fun edge => existsb (fun face => contains Edge_eq_dec (f_Edges face) edge)
                           faces)
      (Edges (solid topo)).

(** *** The selection criteria ([SvSelectSolidNode]) *)

(** [map_percent], its expression evaluated exactly; [Binary64.map_percent64]
    is the same function on binary64 numbers, where the product
    [percent * (maxv - minv) * 0.01] is rounded. *)
Definition map_percent (values : list Q) (percent : Q) : result Q :=
  let* maxv := py_max values in
  let* minv := py_min values in
  if Qle_bool maxv minv then Ok maxv
  else Ok (maxv - percent * (maxv - minv) * (1 # 100)).

Definition _by_side (G : Geom) (points : list vec3) (direction : vec3)
    (percent : Q) : result (list bool) :=
  let direction := np_div direction (norm G direction) in
  let* values := np_dot points direction in
  let* threshold := map_percent values percent in
  Ok (np_gt values threshold).

(** **** VERTS *)

Definition _verts_by_side (G : Geom) (topo : SvSolidTopology)
    (direction : vec3) (percent : Q) : result (list bool) :=
  let verts := map (fun v => (v_X v, v_Y v, v_Z v)) (Vertexes (solid topo)) in
  _by_side G verts direction percent.

Definition _verts_by_sphere (G : Geom) (topo : SvSolidTopology)
    (center : vec3) (radius : Q) : list bool :=
  get_vertices_within_range_mask G topo center radius.

Definition _verts_by_plane (G : Geom) (topo : SvSolidTopology)
    (center direction : vec3) (radius : Q) : list bool :=
  let condition := fun v => Qltb (plane_distance G direction center v) radius in
  get_vertices_by_location_mask topo condition.

Definition _verts_by_cylinder (G : Geom) (topo : SvSolidTopology)
    (center direction : vec3) (radius : Q) : list bool :=
  let condition := fun v => Qltb (line_distance G direction center v) radius in
  get_vertices_by_location_mask topo condition.

(** **** EDGES and FACES by side

    [_edges_by_side] and [_faces_by_side] are the same code over
    [topo.solid.Edges] with [topo.get_points_by_edge] and over
    [topo.solid.Faces] with [topo.get_points_by_face]; the two loops are
    written once, over the elements and the function that samples them. *)

Section BySide.

Variable A : Type.
Variable eq_dec : forall a b : A, {a = b} + {a <> b}.
Variable get_points : A -> list vec3.

(** The first loop: [all_values] and the dict of the values per element. *)
Fixpoint side_values (elements : list A) (direction : vec3)
    (all_values : list Q) (values_per : dict A (list Q))
  : result (list Q * dict A (list Q)) :=
  match elements with
  | [] => Ok (all_values, values_per)
  | element :: rest =>
      let* values := np_dot (get_points element) direction in
      side_values rest direction (all_values ++ values)
                  (dict_set values_per element values)
  end.

Definition elements_by_side (include_partial : bool) (elements : list A)
    (direction : vec3) (percent : Q) : result (list bool) :=
  let* '(all_values, values_per) := side_values elements direction [] [] in
  let* threshold := map_percent all_values percent in
  let check := if include_partial then any else all in
  mapM (fun element =>
          let* values := dict_get eq_dec values_per element in
          Ok (check (np_gt values threshold)))
       elements.

End BySide.

Definition _edges_by_side (self : node) (topo : SvSolidTopology)
    (direction : vec3) (percent : Q) : result (list bool) :=
  elements_by_side Edge_eq_dec (get_points_by_edge topo)
    (include_partial self) (Edges (solid topo)) direction percent.

Definition _faces_by_side (self : node) (topo : SvSolidTopology)
    (direction : vec3) (percent : Q) : result (list bool) :=
  elements_by_side Face_eq_dec (get_points_by_face topo)
    (include_partial self) (Faces (solid topo)) direction percent.

(** **** EDGES *)

Definition sphere_condition (center : vec3) (radius : Q) (points : list vec3)
  : result (list bool) :=
  let* distances := np_sq_distances points center in
  Ok (np_lt distances (radius * radius)).

Definition plane_condition (G : Geom) (center direction : vec3) (radius : Q)
    (points : list vec3) : result (list bool) :=
  let distances := map (plane_distance G direction center) points in
  Ok (np_lt distances radius).

Definition cylinder_condition (G : Geom) (center direction : vec3) (radius : Q)
    (points : list vec3) : result (list bool) :=
  let distances := map (line_distance G direction center) points in
  Ok (np_lt distances radius).

Definition _edges_by_sphere (self : node) (topo : SvSolidTopology)
    (center : vec3) (radius : Q) : result (list bool) :=
  get_edges_by_location_mask topo (sphere_condition center radius)
    (include_partial self).

Definition _edges_by_plane (G : Geom) (self : node) (topo : SvSolidTopology)
    (center direction : vec3) (radius : Q) : result (list bool) :=
  get_edges_by_location_mask topo (plane_condition G center direction radius)
    (include_partial self).

Definition _edges_by_cylinder (G : Geom) (self : node) (topo : SvSolidTopology)
    (center direction : vec3) (radius : Q) : result (list bool) :=
  get_edges_by_location_mask topo (cylinder_condition G center direction radius)
    (include_partial self).

Definition _edges_by_direction (G : Geom) (topo : SvSolidTopology)
    (direction : vec3) (percent : Q) : result (list bool) :=
  let calc_value := fun points =>
    Qabs (dot direction (line_direction G points)) in
  let values :=
    map (fun edge => calc_value (get_points_by_edge topo edge))
        (Edges (solid topo)) in
  let* threshold := map_percent values percent in
  Ok (np_gt values threshold).

(** **** FACES *)

Definition _faces_by_normal (G : Geom) (topo : SvSolidTopology)
    (direction : vec3) (percent : Q) : result (list bool) :=
  let calc_value := fun points => dot direction (plane_normal G points) in
  let values :=
    map (fun face => calc_value (get_points_by_face topo face))
        (Faces (solid topo)) in
  let* threshold := map_percent values percent in
  Ok (np_gt values threshold).

Definition _faces_by_sphere (self : node) (topo : SvSolidTopology)
    (center : vec3) (radius : Q) : result (list bool) :=
  get_faces_by_location_mask topo (sphere_condition center radius)
    (include_partial self).

Definition _faces_by_plane (G : Geom) (self : node) (topo : SvSolidTopology)
    (center direction : vec3) (radius : Q) : result (list bool) :=
  get_faces_by_location_mask topo (plane_condition G center direction radius)
    (include_partial self).

Definition _faces_by_cylinder (G : Geom) (self : node) (topo : SvSolidTopology)
    (center direction : vec3) (radius : Q) : result (list bool) :=
  get_faces_by_location_mask topo (cylinder_condition G center direction radius)
    (include_partial self).

(** **** SWITCH *)

(** [[x for c, x in zip(mask, elements) if c]] *)
Definition select_by_mask {A} (mask : list bool) (elements : list A) : list A :=
  map snd (filter fst (combine mask elements)).

Definition calc_mask (G : Geom) (self : node) (s : Solid)
    (precision : Q) (direction center : vec3) (percent radius : Q)
  : result (list bool * list bool * list bool) :=
  let topo := new_topology s in
  match element_type self with
  | VERTS =>
      let* vertex_mask :=
        match criteria_type self with
        | SIDE => _verts_by_side G topo direction percent
        | SPHERE => Ok (_verts_by_sphere G topo center radius)
        | PLANE => Ok (_verts_by_plane G topo center direction radius)
        | CYLINDER => Ok (_verts_by_cylinder G topo center direction radius)
        | _ => Raise (mk_exn Exception "Unknown criteria for vertices")
        end in
      let verts := select_by_mask vertex_mask (Vertexes s) in
      let edge_mask := get_edges_by_vertices_mask topo verts in
      let face_mask := get_faces_by_vertices_mask topo verts in
      Ok (vertex_mask, edge_mask, face_mask)
  | EDGES =>
      let topo := tessellate G topo precision in
      let* edge_mask :=
        match criteria_type self with
        | SIDE => _edges_by_side self topo direction percent
        | SPHERE => _edges_by_sphere self topo center radius
        | PLANE => _edges_by_plane G self topo center direction radius
        | CYLINDER => _edges_by_cylinder G self topo center direction radius
        | DIRECTION => _edges_by_direction G topo direction percent
        | _ => Raise (mk_exn Exception "Unknown criteria for edges")
        end in
      let edges := select_by_mask edge_mask (Edges s) in
      let vertex_mask := get_vertices_by_edges_mask topo edges in
      let face_mask := get_faces_by_edges_mask topo edges in
      Ok (vertex_mask, edge_mask, face_mask)
  | FACES =>
      let topo := tessellate G topo precision in
      let* face_mask :=
        match criteria_type self with
        | SIDE => _faces_by_side self topo direction percent
        | NORMAL => _faces_by_normal G topo direction percent
        | SPHERE => _faces_by_sphere self topo center radius
        | PLANE => _faces_by_plane G self topo center direction radius
        | CYLINDER => _faces_by_cylinder G self topo center direction radius
        | _ => Raise (mk_exn Exception "Unknown criteria type for faces")
        end in
      let faces := select_by_mask face_mask (Faces s) in
      let vertex_mask := get_vertices_by_faces_mask topo faces in
      let edge_mask := get_edges_by_faces_mask topo faces in
      Ok (vertex_mask, edge_mask, face_mask)
  end.

End SolidSelect.

(** ** Vector Math MK2 *)

Module VectorMath.

#[local] Unset Elimination Schemes.

(** Socket data: nested lists and tuples whose leaves are numbers ([int] or
    [float]); [None] stands for a socket that is not there. *)
Inductive pyval :=
| PNone
| PInt (n : Z)
| PFloat (x : Q)
| PTuple (items : list pyval)
| PList (items : list pyval).

#[local] Set Elimination Schemes.

Definition type_error : exn := mk_exn TypeError "".
Definition index_error : exn := mk_exn IndexError "index out of range".

(** [len(l)] *)
Definition py_len (l : pyval) : result nat :=
  match l with
  | PTuple items | PList items => Ok (length items)
  | _ => Raise type_error
  end.

(** [iter(l)], as a [for] loop or [zip_longest] starts it. *)
Definition py_iter (l : pyval) : result (list pyval) :=
  match l with
  | PTuple items | PList items => Ok items
  | _ => Raise type_error
  end.

(** [l[i]] for a non-negative index. *)
Definition getitem (l : pyval) (i : nat) : result pyval :=
  let* items := py_iter l in
  match nth_error items i with
  | Some x => Ok x
  | None => Raise index_error
  end.

(** [l[-1]] *)
Definition getitem_last (l : pyval) : result pyval :=
  let* items := py_iter l in
  match rev items with
  | x :: _ => Ok x
  | [] => Raise index_error
  end.

Definition int_zero_division : exn :=
  mk_exn ZeroDivisionError "division by zero".

(** Arithmetic on two numbers: two [int]s are combined as integers, and an
    [int] next to a [float] is converted to a [float] first.  Operands that
    are not numbers are a [TypeError]. *)
Definition arith (int_op : Z -> Z -> result pyval)
    (float_op : Q -> Q -> result Q) (a b : pyval) : result pyval :=
  match a, b with
  | PInt m, PInt n => int_op m n
  | PInt m, PFloat y => let* r := float_op (inject_Z m) y in Ok (PFloat r)
  | PFloat x, PInt n => let* r := float_op x (inject_Z n) in Ok (PFloat r)
  | PFloat x, PFloat y => let* r := float_op x y in Ok (PFloat r)
  | _, _ => Raise type_error
  end.

(** [items * n] for a list or a tuple and an [int]: [n] copies, none when
    [n] is not positive. *)
Definition sequence_repeat (items : list pyval) (n : Z) : list pyval :=
  concat (repeat items (Z.to_nat n)).

(** [a + b]: numbers are added; two lists, and two tuples, are
    concatenated. *)
Definition py_add (a b : pyval) : result pyval :=
  match a, b with
  | PTuple xs, PTuple ys => Ok (PTuple (xs ++ ys))
  | PList xs, PList ys => Ok (PList (xs ++ ys))
  | _, _ => arith (fun m n => Ok (PInt (m + n))) (fun x y => Ok (x + y)) a b
  end.

(** [a - b]: numbers only. *)
Definition py_sub : pyval -> pyval -> result pyval :=
  arith (fun m n => Ok (PInt (m - n))) (fun x y => Ok (x - y)).

(** [a * b]: numbers are multiplied; a list or a tuple is repeated by an
    [int] on either side. *)
Definition py_mul (a b : pyval) : result pyval :=
  match a, b with
  | PList xs, PInt n | PInt n, PList xs => Ok (PList (sequence_repeat xs n))
  | PTuple xs, PInt n | PInt n, PTuple xs => Ok (PTuple (sequence_repeat xs n))
  | _, _ => arith (fun m n => Ok (PInt (m * n))) (fun x y => Ok (x * y)) a b
  end.

(** [a / b]: true division of numbers, a [float] also for two [int]s. *)
Definition py_truediv : pyval -> pyval -> result pyval :=
  arith (fun m n =>
           if (n =? 0)%Z then Raise int_zero_division
           else Ok (PFloat (inject_Z m / inject_Z n)))
        py_div.

(** [itertools.zip_longest(l1, l2, fillvalue=fl)] *)
Fixpoint zip_longest {A} (l1 l2 : list A) (fillvalue : A) : list (A * A) :=
  match l1, l2 with
  | [], _ => map (fun v => (fillvalue, v)) l2
  | _, [] => map (fun u => (u, fillvalue)) l1
  | u :: l1', v :: l2' => (u, v) :: zip_longest l1' l2' fillvalue
  end.

(** *** [func_dict] *)

Inductive op :=
| DOT | DISTANCE_ | ANGLE_DEG | ANGLE_RAD
| LEN | CELL_S
| CROSS | ADD | SUB | PROJECT | REFLECT | COMPONENT_WISE
| SCALAR | ONE_OVER_SCALAR | ROUND
| NORMALIZE | NEG | CELL_V.

(** A lambda of one or of two parameters. *)
Inductive pyfun :=
| Lambda1 (f : pyval -> result pyval)
| Lambda2 (f : pyval -> pyval -> result pyval).

(** [f(l)] and [f(u, v)]: a call with the wrong number of arguments is a
    [TypeError]. *)
Definition call1 (f : pyfun) (l : pyval) : result pyval :=
  match f with
  | Lambda1 g => g l
  | Lambda2 _ => Raise type_error
  end.

Definition call2 (f : pyfun) (u v : pyval) : result pyval :=
  match f with
  | Lambda2 g => g u v
  | Lambda1 _ => Raise type_error
  end.

(** [(op(u[0], w0), op(u[1], w1), op(u[2], w2))], evaluated left to right. *)
Definition tuple3 (opr : pyval -> pyval -> result pyval)
    (u : pyval) (w : nat -> result pyval) : result pyval :=
  let* u0 := getitem u 0 in let* w0 := w 0%nat in let* x := opr u0 w0 in
  let* u1 := getitem u 1 in let* w1 := w 1%nat in let* y := opr u1 w1 in
  let* u2 := getitem u 2 in let* w2 := w 2%nat in let* z := opr u2 w2 in
  Ok (PTuple [x; y; z]).

Definition socket_info (o : op) : string :=
  match o with
  | DOT | DISTANCE_ | ANGLE_DEG | ANGLE_RAD => "vv s"
  | LEN | CELL_S => "v s"
  | CROSS | ADD | SUB | PROJECT | REFLECT | COMPONENT_WISE => "vv v"
  | SCALAR | ONE_OVER_SCALAR | ROUND => "vs v"
  | NORMALIZE | NEG | CELL_V => "v v"
  end.

Section Node.

(** The lambdas built on [mathutils.Vector] and [mathutils.noise], and
    [math.sqrt], come from outside the node. *)
Variable mathutils : op -> pyfun.
Variable sqrt : Q -> Q.

(** The function of each entry of [func_dict]. *)
Definition func_dict (o : op) : pyfun :=
  match o with
  | LEN =>
      Lambda1 (fun u =>
        let* u0 := getitem u 0 in let* a := py_mul u0 u0 in
        let* u1 := getitem u 1 in let* b := py_mul u1 u1 in
        let* ab := py_add a b in
        let* u2 := getitem u 2 in let* c := py_mul u2 u2 in
        let* abc := py_add ab c in
        match abc with
        | PInt n => let* r := py_sqrt sqrt (inject_Z n) in Ok (PFloat r)
        | PFloat x => let* r := py_sqrt sqrt x in Ok (PFloat r)
        | _ => Raise type_error
        end)
  | ADD => Lambda2 (fun u v => tuple3 py_add u (getitem v))
  | SUB => Lambda2 (fun u v => tuple3 py_sub u (getitem v))
  | COMPONENT_WISE => Lambda2 (fun u v => tuple3 py_mul u (getitem v))
  | SCALAR => Lambda2 (fun u s => tuple3 py_mul u (fun _ => Ok s))
  | ONE_OVER_SCALAR => Lambda2 (fun u s => tuple3 py_truediv u (fun _ => Ok s))
  | o' => mathutils o'
  end.

(** [levelsOflist] of [sverchok.data_structure] is not among the sources. *)
Variable levelsOflist : pyval -> result Z.

(** The interpreter's recursion limit: a call nested deeper raises
    [RecursionError]. *)
Variable recursion_limit : nat.

Definition recursion_error : exn :=
  mk_exn RecursionError "maximum recursion depth exceeded".

Fixpoint recurse_fx (limit : nat) (l : pyval) (f : pyfun) (leve : Z)
  : result pyval :=
  match limit with
  | O => Raise recursion_error
  | S limit' =>
      if (leve =? 0)%Z then call1 f l
      else
        let* items := py_iter l in
        let* t := mapM (fun i => recurse_fx limit' i f (leve - 1)%Z) items in
        Ok (PList t)
  end.

Fixpoint recurse_fxy (limit : nat) (l1 l2 : pyval) (f : pyfun) (leve : Z)
  : result pyval :=
  match limit with
  | O => Raise recursion_error
  | S limit' =>
      let* n1 := py_len l1 in
      let* n2 := py_len l2 in
      let* fl := if (n2 <? n1)%nat then getitem_last l2 else getitem_last l1 in
      let* items1 := py_iter l1 in
      let* items2 := py_iter l2 in
      let* res :=
        if (leve =? 1)%Z then
          mapM (fun '(u, v) => call2 f u v) (zip_longest items1 items2 fl)
        else
          mapM (fun '(u, v) => recurse_fxy limit' u v f (leve - 1)%Z)
               (zip_longest items1 items2 fl) in
      Ok (PList res)
  end.

(** [socket.sv_get(deepcopy=False)] belongs to the add-on's sockets, which
    are not among the sources: an input socket is given by what that call
    does, return the socket's data or raise (the add-on's [SvNoDataError],
    for a socket that has no data). *)
Definition input_socket : Type := result pyval.

Definition no_data : exn := mk_exn SvNoDataError "".

(** The node: the selected operation, its input sockets and whether its
    output socket is linked. *)
Record node := {
  current_op : op;
  inputs : list input_socket;
  output_linked : bool
}.

(** [inputs[i].sv_get(deepcopy=False)]: indexing the sockets is an
    [IndexError] when there is no socket [i]. *)
Definition sv_get (self : node) (i : nat) : result pyval :=
  match nth_error (inputs self) i with
  | Some socket => socket
  | None => Raise index_error
  end.

(** [try: result = body  except: pass] *)
Definition try_except_pass (result : pyval) (body : Py.result pyval) : pyval :=
  match body with
  | Ok r => r
  | Raise _ => result
  end.

(** [process]: [Ok None] when the node returns without writing its output,
    [Ok (Some result)] for [outputs[0].sv_set(result)], [Raise] for an
    exception that leaves [process]. *)
Definition process (self : node) : result (option pyval) :=
  if negb (output_linked self) then Ok None
  else
    let func := func_dict (current_op self) in
    let num_inputs := length (inputs self) in
    let* input_one := sv_get self 0 in
    let* input_two :=
      if (num_inputs =? 2)%nat then sv_get self 1 else Ok PNone in
    let* leve := levelsOflist input_one in
    let result := PList [PList []] in
    let result :=
      if (num_inputs =? 1)%nat then
        try_except_pass result
          (recurse_fx recursion_limit input_one func (leve - 1)%Z)
      else if (num_inputs =? 2)%nat then
        try_except_pass result
          (recurse_fxy recursion_limit input_one input_two func (leve - 1)%Z)
      else result in
    Ok (Some result).

End Node.

End VectorMath.

(** ** The bend kernel as the specification words it *)

Module BendSpec.

Import BendAlongSurface.

(** The coordinates of the grid along axis [k] take at least two values. *)
Definition varies (vertices : grid vec3) (k : idx3) : Prop :=
  exists p q, In p (concat vertices) /\ In q (concat vertices) /\
              ~ item p k == item q k.

(** All points of the grid share their coordinate along axis [k]. *)
Definition constant_along (vertices : grid vec3) (k : idx3) : Prop :=
  forall p q, In p (concat vertices) -> In q (concat vertices) ->
              item p k == item q k.

Definition rectangular {A} (g : grid A) : Prop :=
  forall r1 r2, In r1 g -> In r2 g -> length r1 = length r2.

(** Same number of rows, and every row as long as the row it comes from. *)
Definition same_shape {A B} (g : grid A) (h : grid B) : Prop :=
  length h = length g /\
  forall i r, nth_error g i = Some r ->
              exists r', nth_error h i = Some r' /\ length r' = length r.

(** A coordinate rescaled to [0, 1] by the observed minimum and maximum. *)
Definition normalized (x lo hi : Q) : Q := (x - lo) / (hi - lo).

(** spline position + scale * z * spline normal, at the given (u, v). *)
Definition displaced (spline : Spline) (scale z u v : Q) : vec3 :=
  vadd (eval spline u v) (smul (scale * z) (normal spline u v)).

(** The displacement scale: the root of the product of the two ratios of the
    surface's diameter to the source extent with auto-scale, 1 without. *)
Definition scale_factor (sqrt : Q -> Q) (self : node) (surface : grid vec3)
    (size_u size_v : Q) (scale : Q) : Prop :=
  if autoscale self then
    exists du dv,
      diameter (concat surface) (fst (get_other_axes self)) = Ok du /\
      diameter (concat surface) (snd (get_other_axes self)) = Ok dv /\
      scale = sqrt ((du / size_u) * (dv / size_v))
  else scale = 1.





(** An error of input validation is raised by a check of the input that
    runs before the arithmetic; whatever its class and its text, it is not
    the interpreter's [ZeroDivisionError], which reports a division that was
    carried out. *)
Definition input_validation_error (e : exn) : Prop :=
  exn_cls e <> ZeroDivisionError.

End BendSpec.

(** ** Concrete inputs *)

Module BendExamples.

Import BendAlongSurface.

(** A flat 3x3 surface grid at z = 0 spanning the unit square. *)
Definition flat_surface : grid vec3 :=
  [ [ (0, 0, 0); (0, 1 # 2, 0); (0, 1, 0) ];
    [ (1 # 2, 0, 0); (1 # 2, 1 # 2, 0); (1 # 2, 1, 0) ];
    [ (1, 0, 0); (1, 1 # 2, 0); (1, 1, 0) ] ].

(** Modelled from the spec: the spline surface fitted to that grid is the
    unit square itself, its position at (u, v) is (u, v, 0) and its normal is
    +Z everywhere. *)
Definition flat_spline : Spline :=
  {| eval := fun u v => (u, v, 0); normal := fun _ _ => (0, 0, 1) |}.

Definition flat_Spline2D (surface : grid vec3) (c : spline_constructor)
    (m : metric_t) : result Spline :=
  Ok flat_spline.

(** Orientation axis Z, auto-scale off (the node's defaults). *)
Definition node_z : node :=
  {| mode := SPL; metric := DISTANCE; orient_axis_ := Z; autoscale := false |}.


(** A source grid that consists of one point. *)
Definition single_point : grid vec3 := [ [ (1 # 2, 1 # 2, 2) ] ].

(** Two points with the same x (no extent along u for orientation Z). *)
Definition grid_const_u : grid vec3 := [ [ (0, 0, 0); (0, 1, 0) ] ].

(** Two points with the same y (no extent along v for orientation Z). *)
Definition grid_const_v : grid vec3 := [ [ (0, 0, 0); (1, 0, 0) ] ].

(** A 2x2 source grid over the square [0,2]x[0,4] with heights 0..3. *)
Definition square_grid : grid vec3 :=
  [ [ (0, 0, 0); (2, 0, 1) ]; [ (0, 4, 2); (2, 4, 3) ] ].

(** Stands for [math.sqrt] where the examples need some root function; it is
    exact on 0 and 1. *)
Definition sqrt_id (x : Q) : Q := x.



End BendExamples.

(** ** The selection kernel as the specification words it *)

Module SelectSpec.

Import SolidSelect.

(** The element [x] is one of those the mask selects. *)
Definition selected {A} (mask : list bool) (elements : list A) (x : A) : Prop :=
  exists j, nth_error mask j = Some true /\ nth_error elements j = Some x.

(** The mask is aligned with [elements] and marks exactly those with [P]. *)
Definition marks_exactly {A} (mask : list bool) (elements : list A)
    (P : A -> Prop) : Prop :=
  length mask = length elements /\
  forall i x, nth_error elements i = Some x ->
              (nth_error mask i = Some true <-> P x).

(** Every element selected by [m1] is selected by [m2]. *)
Definition mask_le (m1 m2 : list bool) : Prop :=
  length m1 = length m2 /\
  forall i, nth_error m1 i = Some true -> nth_error m2 i = Some true.

(** The same as a relation between the aligned entries of the two masks. *)
Definition grows (m1 m2 : list bool) : Prop :=
  Forall2 (fun a b : bool => a = true -> b = true) m1 m2.

(** The mask selects exactly the elements whose value is the largest. *)
Definition selects_exactly_maximal (values : list Q) (mask : list bool)
  : Prop :=
  marks_exactly mask values (fun v => forall w, In w values -> w <= v).

(** The measured values of an element for "by side": its sample points
    projected onto the direction. *)
Definition projections {A} (get_points : A -> list vec3) (direction : vec3)
    (element : A) : list Q :=
  map (fun p => dot p direction) (get_points element).



End SelectSpec.

Module SelectExamples.

Import SolidSelect.

(** The imports on polyhedral, axis-aligned data: edges and faces are sampled
    at their vertices, and lengths are measured by |x| + |y| + |z|, which is
    the Euclidean length of a vector along a coordinate axis. *)
Definition norm1 (a : vec3) : Q :=
  let '(x, y, z) := a in Qabs x + Qabs y + Qabs z.

Definition cross (a b : vec3) : vec3 :=
  let '(ax, ay, az) := a in
  let '(bx, by_, bz) := b in
  (ay * bz - az * by_, az * bx - ax * bz, ax * by_ - ay * bx).

Definition G_axis : Geom :=
  {| norm := norm1;
     discretize := fun edge _ => map to_tuple (e_Vertexes edge);
     tessellate_face := fun face _ => map to_tuple (f_Vertexes face);
     point_distance := fun origin v => norm1 (vsub v origin);
     plane_distance := fun normal point v =>
       Qabs (dot (vsub v point) normal) / norm1 normal;
     line_distance := fun direction point v =>
       norm1 (cross (vsub v point) direction) / norm1 direction;
     line_direction := fun points =>
       match points with
       | p :: q :: _ => vsub q p
       | _ => (0, 0, 0)
       end;
     plane_normal := fun points =>
       match points with
       | p :: q :: r :: _ => cross (vsub q p) (vsub r p)
       | _ => (0, 0, 0)
       end |}.

(** A tetrahedron with one corner at the origin and one on each axis. *)
Definition va : Vertex := {| v_id := 0; v_X := 0; v_Y := 0; v_Z := 0 |}.
Definition vb : Vertex := {| v_id := 1; v_X := 1; v_Y := 0; v_Z := 0 |}.
Definition vc : Vertex := {| v_id := 2; v_X := 0; v_Y := 1; v_Z := 0 |}.
Definition vd : Vertex := {| v_id := 3; v_X := 0; v_Y := 0; v_Z := 1 |}.

Definition eab : Edge := {| e_id := 0; e_Vertexes := [va; vb] |}.
Definition eac : Edge := {| e_id := 1; e_Vertexes := [va; vc] |}.
Definition ead : Edge := {| e_id := 2; e_Vertexes := [va; vd] |}.
Definition ebc : Edge := {| e_id := 3; e_Vertexes := [vb; vc] |}.
Definition ebd : Edge := {| e_id := 4; e_Vertexes := [vb; vd] |}.
Definition ecd : Edge := {| e_id := 5; e_Vertexes := [vc; vd] |}.

Definition fabc : Face :=
  {| f_id := 0; f_Vertexes := [va; vb; vc]; f_Edges := [eab; ebc; eac] |}.
Definition fabd : Face :=
  {| f_id := 1; f_Vertexes := [va; vb; vd]; f_Edges := [eab; ebd; ead] |}.
Definition facd : Face :=
  {| f_id := 2; f_Vertexes := [va; vc; vd]; f_Edges := [eac; ecd; ead] |}.
Definition fbcd : Face :=
  {| f_id := 3; f_Vertexes := [vb; vc; vd]; f_Edges := [ebc; ecd; ebd] |}.

Definition tetrahedron : Solid :=
  {| Vertexes := [va; vb; vc; vd];
     Edges := [eab; eac; ead; ebc; ebd; ecd];
     Faces := [fabc; fabd; facd; fbcd] |}.

Definition up : vec3 := (0, 0, 1).
Definition origin : vec3 := (0, 0, 0).

(** The triangle at the base of the tetrahedron, as a shape of its own. *)
Definition sheet : Solid :=
  {| Vertexes := [va; vb; vc]; Edges := [eab; ebc; eac]; Faces := [fabc] |}.

(** The topologies of the two shapes, tessellated. *)
Definition tetra_topo : SvSolidTopology :=
  tessellate G_axis (new_topology tetrahedron) (1 # 100).

Definition sheet_topo : SvSolidTopology :=
  tessellate G_axis (new_topology sheet) (1 # 100).

Definition select (t : element_type_t) (c : criteria_type_t) (partial : bool)
  : node :=
  {| element_type := t; criteria_type := c; include_partial := partial |}.

End SelectExamples.

(** ** Which calls the elementwise application makes *)

Module VectorMathSpec.

Import VectorMath.

(** The pairs [zip_longest(l1, l2, fillvalue=fl)] yields in [recurse_fxy]. *)
Definition zipped (l1 l2 : pyval) : result (list (pyval * pyval)) :=
  let* n1 := py_len l1 in
  let* n2 := py_len l2 in
  let* fl := if (n2 <? n1)%nat then getitem_last l2 else getitem_last l1 in
  let* items1 := py_iter l1 in
  let* items2 := py_iter l2 in
  Ok (zip_longest items1 items2 fl).

(** [fx_applies limit l leve x]: [recurse_fx(l, f, leve)] calls [f(x)]. *)
Inductive fx_applies : nat -> pyval -> Z -> pyval -> Prop :=
| fx_here (limit : nat) (l : pyval) : fx_applies (S limit) l 0 l
| fx_inside (limit : nat) (l : pyval) (leve : Z) (items : list pyval)
    (i x : pyval) :
    leve <> 0%Z -> py_iter l = Ok items -> In i items ->
    fx_applies limit i (leve - 1) x ->
    fx_applies (S limit) l leve x.

(** [fxy_applies limit l1 l2 leve u v]: [recurse_fxy(l1, l2, f, leve)] calls
    [f(u, v)]. *)
Inductive fxy_applies : nat -> pyval -> pyval -> Z -> pyval -> pyval -> Prop :=
| fxy_here (limit : nat) (l1 l2 : pyval) (pairs : list (pyval * pyval))
    (u v : pyval) :
    zipped l1 l2 = Ok pairs -> In (u, v) pairs ->
    fxy_applies (S limit) l1 l2 1 u v
| fxy_inside (limit : nat) (l1 l2 : pyval) (leve : Z)
    (pairs : list (pyval * pyval)) (x y u v : pyval) :
    leve <> 1%Z -> zipped l1 l2 = Ok pairs -> In (x, y) pairs ->
    fxy_applies limit x y (leve - 1) u v ->
    fxy_applies (S limit) l1 l2 leve u v.

End VectorMathSpec.

Module VectorMathExamples.

Import VectorMath.

(** The entries of [func_dict] that need [mathutils] are not used by the
    examples; a call to one of them is reported as an exception. *)
Definition mathutils_absent (o : op) : pyfun :=
  Lambda2 (fun _ _ => Raise (mk_exn Exception "mathutils is not available")).

(** One object with the one vector (1, 2, 3). *)
Definition one_vector : pyval :=
  PList [PList [PTuple [PFloat 1; PFloat 2; PFloat 3]]].

(** One object with the one scalar 0.0. *)
Definition zero_scalar : pyval := PList [PList [PFloat 0]].

(** One object with the one scalar 2.0. *)
Definition two_scalar : pyval := PList [PList [PFloat 2]].

(** Both inputs hold lists of lists of items: three levels for vectors. *)
Definition levels_three (data : pyval) : result Z := Ok 3%Z.

(** The node set to 1/SCALAR, its output linked. *)
Definition divide_by (scalars : pyval) : node :=
  {| current_op := ONE_OVER_SCALAR;
     inputs := [Ok one_vector; Ok scalars];
     output_linked := true |}.

End VectorMathExamples.

(** ** The arithmetic of the concrete inputs in binary64

    The expressions the nodes evaluate on floats, over IEEE doubles, to check
    that the concrete inputs used below involve no rounding. *)

Module Binary64.

Import PrimFloat.

(** The threshold expression of [map_percent]. *)
Definition threshold64 (maxv minv percent : float) : float :=
  (maxv - percent * (maxv - minv) * (1 / 100))%float.

(** The test of the edge and face sphere condition for one sample point:
    squared distance to the center below the squared radius. *)
Definition within_sphere64 (p center : float * float * float) (radius : float)
  : bool :=
  let '(px, py, pz) := p in
  let '(cx, cy, cz) := center in
  let dx := (px - cx)%float in
  let dy := (py - cy)%float in
  let dz := (pz - cz)%float in
  (dx * dx + dy * dy + dz * dz <? radius * radius)%float.

(** Float division raises [ZeroDivisionError] when the divisor compares
    equal to zero. *)
Definition raises_zero_division64 (divisor : float) : bool :=
  (divisor =? 0)%float.

(** Builtin [min] and [max] on a sequence of binary64 numbers. *)
Definition min64 (xs : list float) : result float :=
  match xs with
  | [] => Raise (mk_exn ValueError "min() arg is an empty sequence")
  | x :: rest =>
      Ok (fold_left (fun m y => if (y <? m)%float then y else m) rest x)
  end.

Definition max64 (xs : list float) : result float :=
  match xs with
  | [] => Raise (mk_exn ValueError "max() arg is an empty sequence")
  | x :: rest =>
      Ok (fold_left (fun m y => if (m <? y)%float then y else m) rest x)
  end.

(** [map_percent] and the test [values > threshold] in binary64. *)
Definition map_percent64 (values : list float) (percent : float)
  : result float :=
  let* maxv := max64 values in
  let* minv := min64 values in
  if (maxv <=? minv)%float then Ok maxv
  else Ok (threshold64 maxv minv percent).

Definition np_gt64 (values : list float) (threshold : float) : list bool :=
  map (fun v => (threshold <? v)%float) values.

(** A vertex whose coordinates are [numpy.float64] scalars. *)
Definition vec64 : Type := (float * float * float)%type.

Definition item64 (v : vec64) (i : idx3) : float :=
  let '(x, y, z) := v in
  match i with I0 => x | I1 => y | I2 => z end.

(** [get_uv] on a grid whose coordinates are [numpy.float64] scalars, as a
    grid written by this node has them: the same statements with numpy's
    arithmetic, whose division returns nan or an infinity (and warns) where
    the division of Python floats raises. *)
Definition get_uv64 (self : BendAlongSurface.node) (vertices : grid vec64)
  : result (float * float * grid (float * float)) :=
  let '(u_index, v_index) := BendAlongSurface.get_other_axes self in
  let us := map (fun vertex => item64 vertex u_index) (concat vertices) in
  let vs := map (fun vertex => item64 vertex v_index) (concat vertices) in
  let* min_u := min64 us in
  let* max_u := max64 us in
  let* min_v := min64 vs in
  let* max_v := max64 vs in
  let size_u := (max_u - min_u)%float in
  let size_v := (max_v - min_v)%float in
  Ok (size_u, size_v,
      map (fun col =>
             map (fun vertex =>
                    (((item64 vertex u_index - min_u) / size_u)%float,
                     ((item64 vertex v_index - min_v) / size_v)%float))
                 col)
          vertices).

(** Two points with the same x, as [numpy.float64]. *)
Definition grid_const_u64 : grid vec64 :=
  [ [ (0, 0, 0)%float; (0, 1, 0)%float ] ].

End Binary64.

(** ** Values up to their representation

    Two rationals that stand for the same float are related by [==]; points
    and (u, v) pairs are compared coordinate by coordinate. *)

Module ValueEq.

Definition veq (a b : vec3) : Prop :=
  item a I0 == item b I0 /\ item a I1 == item b I1 /\ item a I2 == item b I2.

Definition uv_eq (a b : Q * Q) : Prop :=
  fst a == fst b /\ snd a == snd b.

(** [y] is the image of [x] by the affine map of slope [k] and offset [c]. *)
Definition affine (k c : Q) (x y : Q) : Prop := y == k * x + c.

(** The position of an index in the tuple. *)
Definition idx_nat (i : idx3) : nat :=
  match i with I0 => 0 | I1 => 1 | I2 => 2 end.

(** The grid moved and resized: every point [p] becomes [k * p + t]. *)
Definition similar_grid (k : Q) (t : vec3) (vertices : grid vec3) : grid vec3 :=
  map (map (fun p => vadd (smul k p) t)) vertices.

End ValueEq.

(** ** Select solid elements: the criteria offered and the sockets shown *)

Module SolidSelectUI.

Import SolidSelect.

(** The identifiers of [criteria_types], in the order of the list. *)
Definition criteria_types : list criteria_type_t :=
  [SIDE; NORMAL; SPHERE; PLANE; CYLINDER; DIRECTION].

Definition criteria_eq_dec (a b : criteria_type_t) : {a = b} + {a <> b}.
Proof. decide equality. Defined.

(** [x in {...}] for a set of criteria. *)
Definition in_set (x : criteria_type_t) (set : list criteria_type_t) : bool :=
  if in_dec criteria_eq_dec x set then true else false.

Definition get_available_criteria (self : node) : list criteria_type_t :=
  filter (fun item => in_set item (known_criteria (element_type self)))
         criteria_types.

(** The input sockets that [update_sockets] shows or hides. *)
Inductive socket := Direction | Center | Percent | Radius | Precision.

(** [update_sockets]: the [hide_safe] it gives to each of these sockets
    (['BBOX'] is not among the criteria). *)
Definition update_sockets (self : node) (input : socket) : bool :=
  match input with
  | Direction =>
      negb (in_set (criteria_type self)
                   [SIDE; NORMAL; PLANE; CYLINDER; DIRECTION])
  | Center => negb (in_set (criteria_type self) [SPHERE; PLANE; CYLINDER])
  | Percent => negb (in_set (criteria_type self) [SIDE; NORMAL; DIRECTION])
  | Radius => negb (in_set (criteria_type self) [SPHERE; PLANE; CYLINDER])
  | Precision =>
      match element_type self with VERTS => true | _ => false end
  end.

(** The computation does not raise the plain [Exception] that [calc_mask]
    keeps for an unknown criterion. *)
Definition known {A} (r : result A) : Prop :=
  forall e, r = Raise e -> exn_cls e <> Exception.

(** What arrives at the five sockets for one solid. *)
Record socket_data := {
  direction : vec3;
  center : vec3;
  percent : Q;
  radius : Q;
  precision : Q
}.

(** [calc_mask] on the data of the sockets. *)
Definition calc_mask_on (G : Geom) (self : node) (s : Solid) (d : socket_data)
  : result (list bool * list bool * list bool) :=
  calc_mask G self s (precision d) (direction d) (center d) (percent d)
            (radius d).

(** The list of the solid that the node selects from first. *)
Definition primary_count (self : node) (s : Solid) : nat :=
  match element_type self with
  | VERTS => length (Vertexes s)
  | EDGES => length (Edges s)
  | FACES => length (Faces s)
  end.

End SolidSelectUI.

Module SelectMoreExamples.

Import SolidSelect SolidSelectUI SelectExamples.

(** Direction +Z, center at the origin, percent 50, radius 1. *)
Definition sockets : socket_data :=
  {| direction := up; center := origin; percent := 50; radius := 1;
     precision := 1 # 100 |}.

(** The same with other values at the Center, Radius and Precision sockets. *)
Definition sockets' : socket_data :=
  {| direction := up; center := (3, 3, 3); percent := 50; radius := 7;
     precision := 1 # 2 |}.

(** A shape without any element. *)
Definition nothing : Solid := {| Vertexes := []; Edges := []; Faces := [] |}.

End SelectMoreExamples.

(** ** Node groups: what is collected from the selection

    [SvNodeGroupCreator.execute] of [utils/group_tools.py], up to the
    placement of the three new nodes.  What follows in [execute] (new sockets,
    relinking, export and import of the selected nodes) is done through the
    host's node tree and [sv_IO_panel] and is not part of the model. *)

Module GroupTools.

(** A node of the tree, as far as [execute] reads it.  Nodes are compared by
    identity; a tree does not hold two nodes of the same name. *)
Record Node := {
  name : string;
  select : bool;
  location : Q * Q
}.

Record NodeLink := {
  from_node : Node;
  from_socket : string;
  to_node : Node;
  to_socket : string
}.

Record NodeTree := {
  nodes : list Node;
  links : list NodeLink
}.

Definition Node_eq_dec (a b : Node) : {a = b} + {a <> b}.
Proof.
  decide equality;
    first [ apply string_dec | apply Bool.bool_dec
          | decide equality; apply SolidSelect.Q_eq_dec ].
Defined.

(** [n in nodes] *)
Definition in_nodes (n : Node) (nodes : list Node) : bool :=
  if in_dec Node_eq_dec n nodes then true else false.

(** [sum(xs)] *)
Definition py_sum (xs : list Q) : Q := fold_left Qplus xs 0.

(** [len(xs)], as the divisor of a float division. *)
Definition py_len {A} (xs : list A) : Q := inject_Z (Z.of_nat (length xs)).

Definition test_in (nodes : list Node) (l : NodeLink) : bool :=
  in_nodes (to_node l) nodes && negb (in_nodes (from_node l) nodes).

Definition test_out (nodes : list Node) (l : NodeLink) : bool :=
  in_nodes (from_node l) nodes && negb (in_nodes (to_node l) nodes).

(** What [execute] calls on the way belongs to the add-on's tree and to the
    host: [ng.freeze(hard=True)], [self.report(type, message)] and
    [ng.nodes.new(type)].  Each call returns or raises. *)
Record Host := {
  freeze : result unit;
  report : list string -> string -> result unit;
  nodes_new : string -> result unit
}.

(** What [execute] has collected and placed when it starts to relink. *)
Record collected := {
  out_links : list NodeLink;
  in_links : list NodeLink;
  group_in_location : Q * Q;
  group_out_location : Q * Q;
  group_node_location : Q * Q
}.

(** [iteration] is the order in which the set [nodes] is iterated, which the
    language leaves open.  [Ok None] stands for the return of
    [{'CANCELLED'}]. *)
Definition collect_data (host : Host) (iteration : list Node -> list Node)
    (ng : NodeTree) : result (option collected) :=
  let* _ := freeze host in
  let nodes_ := iteration (nodup Node_eq_dec (filter select (nodes ng))) in
  match nodes_ with
  | [] =>
      let* _ := report host ["CANCELLED"%string] "No nodes selected"%string in
      Ok None
  | _ =>
      let out_links := filter (test_out nodes_) (links ng) in
      let in_links := filter (test_in nodes_) (links ng) in
      let locx := map (fun n => fst (location n)) nodes_ in
      let* locy :=
        py_div (py_sum (map (fun n => snd (location n)) nodes_))
               (py_len nodes_) in
      let* _ := nodes_new host "SvGroupInputsNode"%string in
      let* min_x := py_min locx in
      let group_in := (min_x - 300, locy) in
      let* _ := nodes_new host "SvGroupOutputsNode"%string in
      let* max_x := py_max locx in
      let group_out := (max_x + 300, locy) in
      let* _ := nodes_new host "SvGroupNode"%string in
      let* mean_x := py_div (py_sum locx) (py_len nodes_) in
      let group_node := (mean_x, locy) in
      Ok (Some {| out_links := out_links; in_links := in_links;
                  group_in_location := group_in;
                  group_out_location := group_out;
                  group_node_location := group_node |})
  end.

End GroupTools.

Module GroupSpec.

Import GroupTools.

(** The node is one of the tree's selected nodes. *)
Definition selected_in (ng : NodeTree) (n : Node) : Prop :=
  In n (nodes ng) /\ select n = true.

End GroupSpec.

Module GroupExamples.

Import GroupTools.

Definition viewer : Node :=
  {| name := "Viewer"; select := false; location := (600, 0) |}.

Definition line : Node :=
  {| name := "Line"; select := false; location := (-400, 20) |}.

Definition move : Node :=
  {| name := "Move"; select := true; location := (0, 40) |}.

Definition scale : Node :=
  {| name := "Scale"; select := true; location := (200, -40) |}.

(** Line -> Move -> Scale -> Viewer, the two middle nodes selected. *)
Definition chain : NodeTree :=
  {| nodes := [line; move; scale; viewer];
     links :=
       [ {| from_node := line; from_socket := "Vertices";
            to_node := move; to_socket := "Vertices" |};
         {| from_node := move; from_socket := "Vertices";
            to_node := scale; to_socket := "Vertices" |};
         {| from_node := scale; from_socket := "Vertices";
            to_node := viewer; to_socket := "Vertices" |} ] |}.

(** The same tree with nothing selected. *)
Definition unselected : NodeTree :=
  {| nodes := [line; viewer]; links := [] |}.

(** A host whose [report] accepts the report types of its documentation and
    raises [TypeError] for any other. *)
Definition report_types : list string :=
  ["DEBUG"; "INFO"; "OPERATOR"; "PROPERTY"; "WARNING"; "ERROR";
   "ERROR_INVALID_INPUT"; "ERROR_INVALID_CONTEXT";
   "ERROR_OUT_OF_MEMORY"]%string.

Definition strict_host : Host :=
  {| freeze := Ok tt;
     report := fun types _ =>
       if forallb (fun t => if in_dec string_dec t report_types
                            then true else false) types
       then Ok tt
       else Raise (mk_exn TypeError "enum not found");
     nodes_new := fun _ => Ok tt |}.

End GroupExamples.

(** * Properties *)

Unset Implicit Arguments.

(** ** The Python runtime *)

Module PyFacts.

Lemma Qltb_lt (x y : Q) : Qltb x y = true <-> x < y.
Proof.
  unfold Qltb. rewrite negb_true_iff.
  split; intro H.
  - apply Qnot_le_lt. intro Hle. apply Qle_bool_iff in Hle. congruence.
  - destruct (Qle_bool y x) eqn:E; [|reflexivity].
    apply Qle_bool_iff in E. exfalso. exact (Qlt_not_le _ _ H E).
Qed.

Lemma Qltb_ge (x y : Q) : Qltb x y = false <-> y <= x.
Proof.
  unfold Qltb. rewrite negb_false_iff. apply Qle_bool_iff.
Qed.

Lemma Qgtb_gt (x y : Q) : Qgtb x y = true <-> y < x.
Proof. apply Qltb_lt. Qed.

Lemma Qgtb_le (x y : Q) : Qgtb x y = false <-> x <= y.
Proof. apply Qltb_ge. Qed.

Lemma py_div_ok (x y : Q) : ~ y == 0 -> py_div x y = Ok (x / y).
Proof.
  intro H. unfold py_div.
  destruct (Qeq_bool y 0) eqn:E; [|reflexivity].
  apply Qeq_bool_iff in E. contradiction.
Qed.

Lemma py_div_zero (x y : Q) : y == 0 -> py_div x y = Raise zero_division.
Proof.
  intro H. unfold py_div. apply Qeq_bool_iff in H. now rewrite H.
Qed.

(** The running minimum of a fold is one of the items seen and is below all
    of them. *)
Lemma fold_min_spec (rest : list Q) (x : Q) :
  let m := fold_left (fun m y => if Qltb y m then y else m) rest x in
  In m (x :: rest) /\ forall y, In y (x :: rest) -> m <= y.
Proof.
  revert x. induction rest as [|a rest IH]; intro x; simpl.
  - split; [now left|]. intros y [<-|[]]. apply Qle_refl.
  - destruct (Qltb a x) eqn:E.
    + destruct (IH a) as [Hin Hle]. split.
      * destruct Hin as [<-|Hin]; [right; now left | right; now right].
      * intros y [<-|[<-|Hy]].
        -- apply Qltb_lt in E. apply Qle_trans with a.
           ++ apply Hle. now left.
           ++ now apply Qlt_le_weak.
        -- apply Hle. now left.
        -- apply Hle. now right.
    + destruct (IH x) as [Hin Hle]. split.
      * destruct Hin as [<-|Hin]; [now left | right; now right].
      * intros y [<-|[<-|Hy]].
        -- apply Hle. now left.
        -- apply Qltb_ge in E. apply Qle_trans with x; [|exact E].
           apply Hle. now left.
        -- apply Hle. now right.
Qed.

Lemma fold_max_spec (rest : list Q) (x : Q) :
  let m := fold_left (fun m y => if Qgtb y m then y else m) rest x in
  In m (x :: rest) /\ forall y, In y (x :: rest) -> y <= m.
Proof.
  revert x. induction rest as [|a rest IH]; intro x; simpl.
  - split; [now left|]. intros y [<-|[]]. apply Qle_refl.
  - destruct (Qgtb a x) eqn:E.
    + destruct (IH a) as [Hin Hle]. split.
      * destruct Hin as [<-|Hin]; [right; now left | right; now right].
      * intros y [<-|[<-|Hy]].
        -- apply Qgtb_gt in E. apply Qle_trans with a.
           ++ now apply Qlt_le_weak.
           ++ apply Hle. now left.
        -- apply Hle. now left.
        -- apply Hle. now right.
    + destruct (IH x) as [Hin Hle]. split.
      * destruct Hin as [<-|Hin]; [now left | right; now right].
      * intros y [<-|[<-|Hy]].
        -- apply Hle. now left.
        -- apply Qgtb_le in E. apply Qle_trans with x; [exact E|].
           apply Hle. now left.
        -- apply Hle. now right.
Qed.

Lemma py_min_spec (xs : list Q) (m : Q) :
  py_min xs = Ok m -> In m xs /\ forall y, In y xs -> m <= y.
Proof.
  destruct xs as [|x rest]; simpl; [discriminate|].
  intro H. injection H as <-. apply fold_min_spec.
Qed.

Lemma py_max_spec (xs : list Q) (m : Q) :
  py_max xs = Ok m -> In m xs /\ forall y, In y xs -> y <= m.
Proof.
  destruct xs as [|x rest]; simpl; [discriminate|].
  intro H. injection H as <-. apply fold_max_spec.
Qed.

Lemma py_min_ok (xs : list Q) : xs <> [] -> exists m, py_min xs = Ok m.
Proof. destruct xs; [congruence|]. intros _. simpl. eauto. Qed.

Lemma py_max_ok (xs : list Q) : xs <> [] -> exists m, py_max xs = Ok m.
Proof. destruct xs; [congruence|]. intros _. simpl. eauto. Qed.

(** The extent [max - min] of a sequence is never negative, and it is zero
    exactly when all items have the same value. *)
Lemma extent_nonneg (xs : list Q) (m M : Q) :
  py_min xs = Ok m -> py_max xs = Ok M -> 0 <= M - m.
Proof.
  intros Hm HM. apply py_min_spec in Hm. apply py_max_spec in HM.
  destruct Hm as [Hin _]. destruct HM as [_ Hle].
  specialize (Hle _ Hin). lra.
Qed.

Lemma extent_zero_iff (xs : list Q) (m M : Q) :
  py_min xs = Ok m -> py_max xs = Ok M ->
  (M - m == 0 <-> forall x y, In x xs -> In y xs -> x == y).
Proof.
  intros Hm HM. apply py_min_spec in Hm. apply py_max_spec in HM.
  destruct Hm as [Hmin Hmle]. destruct HM as [HMin HMle].
  split.
  - intros H0 x y Hx Hy.
    pose proof (Hmle _ Hx). pose proof (HMle _ Hx).
    pose proof (Hmle _ Hy). pose proof (HMle _ Hy). lra.
  - intro H. specialize (H _ _ HMin Hmin). lra.
Qed.

(** *** Comprehensions that may raise *)

Section MapM.

Variables A B : Type.
Variable f : A -> result B.

(** A comprehension with a pure body is [map]. *)
Lemma mapM_pure (g : A -> B) (xs : list A) :
  (forall x, In x xs -> f x = Ok (g x)) -> mapM f xs = Ok (map g xs).
Proof.
  induction xs as [|a xs IH]; simpl; intro H; [reflexivity|].
  rewrite (H a (or_introl eq_refl)). simpl.
  rewrite IH; [reflexivity|]. intros; apply H; now right.
Qed.

End MapM.

(** A comprehension raises when its body raises on one of the items. *)
Lemma mapM_member_raises {A B} (f : A -> result B) (xs : list A) (x : A)
    (e : exn) :
  In x xs -> f x = Raise e -> is_ok (mapM f xs) = false.
Proof.
  induction xs as [|a xs IH]; simpl; intros Hin Hx; [destruct Hin|].
  destruct (f a) as [y|e'] eqn:Ea; simpl; [|reflexivity].
  destruct Hin as [->|Hin]; [congruence|].
  specialize (IH Hin Hx). destruct (mapM f xs); [discriminate | reflexivity].
Qed.

Lemma all_false_iff (bs : list bool) :
  bs <> [] -> (forall b, In b bs -> b = false) -> all bs = false.
Proof.
  destruct bs as [|b bs]; [congruence|]. intros _ H. unfold all. simpl.
  now rewrite (H b (or_introl eq_refl)).
Qed.

Lemma any_false_iff (bs : list bool) :
  (forall b, In b bs -> b = false) -> any bs = false.
Proof.
  induction bs as [|b bs IH]; intro H; [reflexivity|]. unfold any in *. simpl.
  rewrite (H b (or_introl eq_refl)). simpl. apply IH. intros; apply H; now right.
Qed.

End PyFacts.

(** ** Bend object along surface *)

Module BendProofs.

Import BendAlongSurface BendSpec PyFacts.

Lemma combine_map_self {A B} (f : A -> B) (l : list A) :
  combine (map f l) l = map (fun x => (f x, x)) l.
Proof. induction l; simpl; congruence. Qed.

Lemma varies_nonempty (vertices : grid vec3) (k : idx3) :
  varies vertices k -> concat vertices <> [].
Proof. intros (p & _ & Hp & _) E. rewrite E in Hp. destruct Hp. Qed.

Section Kernel.

Variable Spline2D : grid vec3 -> spline_constructor -> metric_t -> result Spline.
Variable sqrt : Q -> Q.

(** On a grid whose u and v coordinates both vary, [get_uv] returns the two
    extents and every point's rescaled coordinates. *)
Lemma get_uv_valid (self : node) (vertices : grid vec3) :
  varies vertices (fst (get_other_axes self)) ->
  varies vertices (snd (get_other_axes self)) ->
  let u_index := fst (get_other_axes self) in
  let v_index := snd (get_other_axes self) in
  let us := map (fun vertex => item vertex u_index) (concat vertices) in
  let vs := map (fun vertex => item vertex v_index) (concat vertices) in
  exists min_u max_u min_v max_v,
    py_min us = Ok min_u /\ py_max us = Ok max_u /\
    py_min vs = Ok min_v /\ py_max vs = Ok max_v /\
    0 < max_u - min_u /\ 0 < max_v - min_v /\
    get_uv self vertices =
      Ok (max_u - min_u, max_v - min_v,
          map (map (fun p => (normalized (item p u_index) min_u max_u,
                              normalized (item p v_index) min_v max_v)))
              vertices).
Proof.
  intros Hu Hv. unfold get_uv.
  destruct (get_other_axes self) as [u_index v_index]. simpl in *.
  set (us := map (fun vertex => item vertex u_index) (concat vertices)).
  set (vs := map (fun vertex => item vertex v_index) (concat vertices)).
  assert (Hne : concat vertices <> []) by (eapply varies_nonempty; eauto).
  assert (Hus : us <> []).
  { unfold us. destruct (concat vertices); [congruence | discriminate]. }
  assert (Hvs : vs <> []).
  { unfold vs. destruct (concat vertices); [congruence | discriminate]. }
  destruct (py_min_ok _ Hus) as [min_u Emin_u].
  destruct (py_max_ok _ Hus) as [max_u Emax_u].
  destruct (py_min_ok _ Hvs) as [min_v Emin_v].
  destruct (py_max_ok _ Hvs) as [max_v Emax_v].
  exists min_u, max_u, min_v, max_v.
  assert (Hsu : 0 < max_u - min_u).
  { pose proof (extent_nonneg _ _ _ Emin_u Emax_u) as Hge.
    destruct (Qeq_dec (max_u - min_u) 0) as [E0|N0]; [|lra].
    exfalso. destruct Hu as (p & q & Hp & Hq & Hpq). apply Hpq.
    apply (proj1 (extent_zero_iff _ _ _ Emin_u Emax_u) E0);
      unfold us; apply in_map_iff; eauto. }
  assert (Hsv : 0 < max_v - min_v).
  { pose proof (extent_nonneg _ _ _ Emin_v Emax_v) as Hge.
    destruct (Qeq_dec (max_v - min_v) 0) as [E0|N0]; [|lra].
    exfalso. destruct Hv as (p & q & Hp & Hq & Hpq). apply Hpq.
    apply (proj1 (extent_zero_iff _ _ _ Emin_v Emax_v) E0);
      unfold vs; apply in_map_iff; eauto. }
  repeat (split; [assumption|]).
  rewrite Emin_u, Emax_u, Emin_v, Emax_v. simpl.
  erewrite mapM_pure; [reflexivity|].
  intros col _. apply mapM_pure. intros vertex _.
  rewrite !py_div_ok by lra. reflexivity.
Qed.

Lemma diameter_valid (vs : list vec3) (k : idx3) :
  vs <> [] -> exists d, diameter vs k = Ok d /\ 0 <= d.
Proof.
  intro Hne. unfold diameter.
  assert (Hxs : map (fun vertex => item vertex k) vs <> []).
  { destruct vs; [congruence | discriminate]. }
  destruct (py_max_ok _ Hxs) as [M EM]. destruct (py_min_ok _ Hxs) as [m Em].
  rewrite EM, Em. simpl. eexists; split; [reflexivity|].
  eapply extent_nonneg; eauto.
Qed.

Lemma ratio_nonneg (d size : Q) : 0 <= d -> 0 < size -> 0 <= d / size.
Proof.
  intros Hd Hs. unfold Qdiv. apply Qmult_le_0_compat; [assumption|].
  apply Qinv_le_0_compat. now apply Qlt_le_weak.
Qed.

Lemma py_sqrt_ok (x : Q) : 0 <= x -> py_sqrt sqrt x = Ok (sqrt x).
Proof.
  intro H. unfold py_sqrt. now rewrite (proj2 (Qltb_ge x 0) H).
Qed.

(** With positive source extents the displacement scale is computed without
    an exception and is the factor the specification describes. *)
Lemma scale_z_valid (self : node) (surface : grid vec3) (size_u size_v : Q) :
  (autoscale self = true -> concat surface <> []) ->
  0 < size_u -> 0 < size_v ->
  exists scale,
    scale_z_of sqrt self surface size_u size_v = Ok scale /\
    scale_factor sqrt self surface size_u size_v scale.
Proof.
  intros Hne Hu Hv. unfold scale_z_of, scale_factor.
  destruct (autoscale self); [|eauto].
  specialize (Hne eq_refl).
  destruct (get_other_axes self) as [u_index v_index]. simpl.
  destruct (diameter_valid _ u_index Hne) as (du & Edu & Hdu).
  destruct (diameter_valid _ v_index Hne) as (dv & Edv & Hdv).
  rewrite Edu. simpl. rewrite py_div_ok by lra. simpl.
  rewrite Edv. simpl. rewrite py_div_ok by lra. simpl.
  rewrite py_sqrt_ok.
  - eexists; split; [reflexivity|]. exists du, dv. auto.
  - apply Qmult_le_0_compat; now apply ratio_nonneg.
Qed.

(** The whole output of the kernel on a valid input: the grid of the
    displaced points, in the order of the source grid. *)
Lemma bend_valid (self : node) (vertices surface : grid vec3)
    (spline : Spline) :
  build_spline Spline2D self surface = Ok spline ->
  (autoscale self = true -> concat surface <> []) ->
  varies vertices (fst (get_other_axes self)) ->
  varies vertices (snd (get_other_axes self)) ->
  let u_index := fst (get_other_axes self) in
  let v_index := snd (get_other_axes self) in
  let us := map (fun vertex => item vertex u_index) (concat vertices) in
  let vs := map (fun vertex => item vertex v_index) (concat vertices) in
  exists min_u max_u min_v max_v scale,
    py_min us = Ok min_u /\ py_max us = Ok max_u /\
    py_min vs = Ok min_v /\ py_max vs = Ok max_v /\
    scale_factor sqrt self surface (max_u - min_u) (max_v - min_v) scale /\
    bend Spline2D sqrt self vertices surface =
      Ok (map (map (fun p =>
            displaced spline scale (item p (orient_axis self))
              (normalized (item p u_index) min_u max_u)
              (normalized (item p v_index) min_v max_v)))
          vertices).
Proof.
  intros Hsp Hne Hu Hv u_index v_index us vs.
  destruct (get_uv_valid self vertices Hu Hv)
    as (min_u & max_u & min_v & max_v & E1 & E2 & E3 & E4 & Hsu & Hsv & Euv).
  destruct (scale_z_valid self surface _ _ Hne Hsu Hsv) as (scale & Esc & Hsc).
  exists min_u, max_u, min_v, max_v, scale.
  repeat (split; [assumption|]).
  unfold bend. rewrite Hsp. simpl. rewrite Euv. simpl. rewrite Esc. simpl.
  f_equal. rewrite combine_map_self, map_map.
  apply map_ext. intro row.
  rewrite combine_map_self, map_map. reflexivity.
Qed.



(** C2.  On a valid source grid the kernel returns a grid of the shape of
    the source grid: as many rows, and each row as long as the source row;
    the output of a rectangular grid is rectangular. *)
Theorem bend_preserves_shape (self : node) (vertices surface : grid vec3)
    (spline : Spline) :
  build_spline Spline2D self surface = Ok spline ->
  (autoscale self = true -> concat surface <> []) ->
  varies vertices (fst (get_other_axes self)) ->
  varies vertices (snd (get_other_axes self)) ->
  exists out,
    bend Spline2D sqrt self vertices surface = Ok out /\
    same_shape vertices out /\
    (rectangular vertices -> rectangular out).
Proof.
  intros Hsp Hne Hu Hv.
  destruct (bend_valid self vertices surface spline Hsp Hne Hu Hv)
    as (min_u & max_u & min_v & max_v & scale & _ & _ & _ & _ & _ & Eb).
  eexists; split; [exact Eb|]. split; [split|].
  - apply length_map.
  - intros i r Hi. eexists; split.
    + apply map_nth_error. exact Hi.
    + apply length_map.
  - intros Hrect r1 r2 H1 H2.
    apply in_map_iff in H1. destruct H1 as (s1 & <- & H1).
    apply in_map_iff in H2. destruct H2 as (s2 & <- & H2).
    rewrite !length_map. now apply Hrect.
Qed.

(** A comprehension over the rows of a grid raises as soon as it meets a
    point, when its body raises on every point. *)
Lemma mapM_rows_raise {A B} (f : A -> result B) (e : exn) (g : grid A) :
  (forall x, f x = Raise e) -> concat g <> [] ->
  mapM (fun col => mapM f col) g = Raise e.
Proof.
  intros Hf. induction g as [|col g IH]; simpl; intro Hne; [congruence|].
  destruct col as [|x col]; simpl in *.
  - rewrite IH by assumption. reflexivity.
  - rewrite Hf. reflexivity.
Qed.

(** A source grid with points but no extent along u or along v makes
    [get_uv] divide by zero. *)
Lemma get_uv_degenerate (self : node) (vertices : grid vec3) :
  concat vertices <> [] ->
  constant_along vertices (fst (get_other_axes self)) \/
  constant_along vertices (snd (get_other_axes self)) ->
  get_uv self vertices = Raise zero_division.
Proof.
  intros Hne Hconst. unfold get_uv.
  destruct (get_other_axes self) as [u_index v_index]. simpl in *.
  set (us := map (fun vertex => item vertex u_index) (concat vertices)).
  set (vs := map (fun vertex => item vertex v_index) (concat vertices)).
  assert (Hus : us <> []).
  { unfold us. destruct (concat vertices); [congruence | discriminate]. }
  assert (Hvs : vs <> []).
  { unfold vs. destruct (concat vertices); [congruence | discriminate]. }
  destruct (py_min_ok _ Hus) as [min_u Emin_u].
  destruct (py_max_ok _ Hus) as [max_u Emax_u].
  destruct (py_min_ok _ Hvs) as [min_v Emin_v].
  destruct (py_max_ok _ Hvs) as [max_v Emax_v].
  rewrite Emin_u, Emax_u, Emin_v, Emax_v. simpl.
  rewrite mapM_rows_raise with (e := zero_division); [reflexivity | | exact Hne].
  intro vertex.
  destruct (Qeq_dec (max_u - min_u) 0) as [E0|N0].
  - rewrite py_div_zero by exact E0. reflexivity.
  - rewrite py_div_ok by exact N0. simpl.
    destruct Hconst as [Hc|Hc].
    + exfalso. apply N0. apply (proj2 (extent_zero_iff _ _ _ Emin_u Emax_u)).
      intros x y Hx Hy. unfold us in Hx, Hy.
      apply in_map_iff in Hx. destruct Hx as (p & <- & Hp).
      apply in_map_iff in Hy. destruct Hy as (q & <- & Hq). now apply Hc.
    + rewrite py_div_zero; [reflexivity|].
      apply (proj2 (extent_zero_iff _ _ _ Emin_v Emax_v)).
      intros x y Hx Hy. unfold vs in Hx, Hy.
      apply in_map_iff in Hx. destruct Hx as (p & <- & Hp).
      apply in_map_iff in Hy. destruct Hy as (q & <- & Hq). now apply Hc.
Qed.

Lemma bend_degenerate (self : node) (vertices surface : grid vec3)
    (spline : Spline) :
  build_spline Spline2D self surface = Ok spline ->
  concat vertices <> [] ->
  constant_along vertices (fst (get_other_axes self)) \/
  constant_along vertices (snd (get_other_axes self)) ->
  bend Spline2D sqrt self vertices surface = Raise zero_division.
Proof.
  intros Hsp Hne Hc. unfold bend. rewrite Hsp. simpl.
  rewrite get_uv_degenerate by assumption. reflexivity.
Qed.

(** C7, as the code has it.  On a source grid of Python floats, with points,
    whose coordinates along u, or along v, are all the same, the kernel
    checks nothing: the rescaling division of [get_uv] is carried out and
    raises the interpreter's [ZeroDivisionError] ("float division by zero"),
    and [process] then writes no output at all. *)
Theorem bend_degenerate_raises_zero_division (self : node)
    (vertices surface : grid vec3) (spline : Spline) :
  build_spline Spline2D self surface = Ok spline ->
  concat vertices <> [] ->
  constant_along vertices (fst (get_other_axes self)) \/
  constant_along vertices (snd (get_other_axes self)) ->
  bend Spline2D sqrt self vertices surface = Raise zero_division /\
  forall vertices_s,
    In vertices vertices_s ->
    is_ok (process Spline2D sqrt self vertices_s surface) = false.
Proof.
  intros Hsp Hne Hc.
  pose proof (bend_degenerate self vertices surface spline Hsp Hne Hc) as Hb.
  split; [exact Hb|].
  intros vertices_s Hin. unfold process.
  eapply mapM_member_raises; eauto.
Qed.

(** C8, as the code has it.  For the flat 3x3 surface, the source grid of the
    single point (0.5, 0.5, 2.0), orientation axis Z and auto-scale off, the
    kernel raises [ZeroDivisionError]: the extent of a one-point grid is zero
    along u and along v.  No point is returned. *)
Theorem bend_single_point_raises (m : mode_t) (mt : metric_t)
    (spline : Spline) :
  let self :=
    {| mode := m; metric := mt; orient_axis_ := Z; autoscale := false |} in
  build_spline Spline2D self BendExamples.flat_surface = Ok spline ->
  bend Spline2D sqrt self BendExamples.single_point BendExamples.flat_surface
    = Raise zero_division.
Proof.
  intros self Hsp. apply bend_degenerate with (spline := spline).
  - exact Hsp.
  - discriminate.
  - left. intros p q [<-|[]] [<-|[]]. reflexivity.
Qed.

End Kernel.

Import BendExamples.

Lemma square_grid_varies_u : varies square_grid I0.
Proof.
  exists (0, 0, 0), (2, 0, 1). simpl. repeat split; auto.
  intro H. discriminate H.
Defined.

Lemma square_grid_varies_v : varies square_grid I1.
Proof.
  exists (0, 0, 0), (0, 4, 2). simpl. repeat split; auto.
  intro H. discriminate H.
Defined.





Lemma bend_preserves_shape_witness :
  varies square_grid I0 /\ varies square_grid I1 /\
  exists out,
    bend flat_Spline2D sqrt_id node_z square_grid flat_surface = Ok out /\
    same_shape square_grid out /\
    (rectangular square_grid -> rectangular out).
Proof.
  split; [exact square_grid_varies_u|]. split; [exact square_grid_varies_v|].
  apply (bend_preserves_shape flat_Spline2D sqrt_id node_z square_grid
           flat_surface flat_spline eq_refl).
  - intro H. discriminate H.
  - exact square_grid_varies_u.
  - exact square_grid_varies_v.
Defined.

Lemma grid_const_u_constant : constant_along grid_const_u I0.
Proof.
  intros p q Hp Hq. simpl in Hp, Hq.
  destruct Hp as [<-|[<-|[]]]; destruct Hq as [<-|[<-|[]]]; reflexivity.
Defined.

Lemma grid_const_v_constant : constant_along grid_const_v I1.
Proof.
  intros p q Hp Hq. simpl in Hp, Hq.
  destruct Hp as [<-|[<-|[]]]; destruct Hq as [<-|[<-|[]]]; reflexivity.
Defined.

(** A grid without extent along u and one without extent along v: the same
    exception for both. *)
Lemma bend_degenerate_raises_zero_division_witness :
  constant_along grid_const_u I0 /\
  constant_along grid_const_v I1 /\
  bend flat_Spline2D sqrt_id node_z grid_const_u flat_surface
    = Raise zero_division /\
  bend flat_Spline2D sqrt_id node_z grid_const_v flat_surface
    = Raise zero_division /\
  is_ok (process flat_Spline2D sqrt_id node_z [square_grid; grid_const_u]
           flat_surface) = false.
Proof.
  split; [exact grid_const_u_constant|].
  split; [exact grid_const_v_constant|].
  destruct (bend_degenerate_raises_zero_division flat_Spline2D sqrt_id node_z
              grid_const_u flat_surface flat_spline eq_refl)
    as [Hb Hp].
  - discriminate.
  - left. exact grid_const_u_constant.
  - split; [exact Hb|]. split.
    + apply (bend_degenerate_raises_zero_division flat_Spline2D sqrt_id
               node_z grid_const_v flat_surface flat_spline eq_refl).
      * discriminate.
      * right. exact grid_const_v_constant.
    + apply Hp. simpl. auto.
Defined.

(** C7 as stated fails.  On a grid of Python floats without extent along u
    the kernel validates nothing and carries the division out: what it
    raises is the interpreter's [ZeroDivisionError], not an error of input
    validation.  On the same grid with [numpy.float64] coordinates nothing is
    raised at all: [get_uv] returns, with nan for every u. *)
Lemma degenerate_grid_is_not_validated :
  (~ exists e,
       bend flat_Spline2D sqrt_id node_z grid_const_u flat_surface = Raise e /\
       input_validation_error e) /\
  (exists size_u size_v uv,
      Binary64.get_uv64 node_z Binary64.grid_const_u64
        = Ok (size_u, size_v, uv) /\
      map (map (fun c => PrimFloat.is_nan (fst c))) uv = [[true; true]]).
Proof.
  split.
  - intros (e & H & Hv).
    assert (E : bend flat_Spline2D sqrt_id node_z grid_const_u flat_surface
                = Raise zero_division) by reflexivity.
    rewrite E in H. injection H as <-. apply Hv. reflexivity.
  - do 3 eexists. split; reflexivity.
Qed.

Lemma bend_single_point_raises_witness :
  bend flat_Spline2D sqrt_id node_z single_point flat_surface
    = Raise zero_division.
Proof.
  exact (bend_single_point_raises flat_Spline2D sqrt_id SPL DISTANCE
           flat_spline eq_refl).
Defined.

(** C8 as stated fails: on that input the kernel returns no
    grid, so no point near (0.5, 0.5, 2.0) either. *)
Lemma bend_single_point_returns_nothing :
  ~ exists out,
      bend flat_Spline2D sqrt_id node_z single_point flat_surface = Ok out.
Proof.
  intros (out & H). vm_compute in H. discriminate H.
Qed.

End BendProofs.

(** ** Select solid elements *)

Module SelectProofs.

Import SolidSelect SelectSpec PyFacts.

(** *** The percentile threshold *)

Lemma np_gt_none (values : list Q) (t : Q) :
  (forall v, In v values -> v <= t) ->
  np_gt values t = repeat false (length values).
Proof.
  induction values as [|v values IH]; intro H; simpl; [reflexivity|].
  rewrite (proj2 (Qgtb_le v t)) by (apply H; now left).
  f_equal. apply IH. intros; apply H; now right.
Qed.

Lemma map_percent_ok (values : list Q) (percent : Q) :
  values <> [] ->
  exists maxv minv t,
    py_max values = Ok maxv /\ py_min values = Ok minv /\
    map_percent values percent = Ok t /\
    (t == maxv \/ t = maxv - percent * (maxv - minv) * (1 # 100)).
Proof.
  intro Hne. unfold map_percent.
  destruct (py_max_ok _ Hne) as [maxv EM].
  destruct (py_min_ok _ Hne) as [minv Em].
  rewrite EM, Em. simpl. exists maxv, minv.
  destruct (Qle_bool maxv minv); eexists; repeat split; auto.
  left. reflexivity.
Qed.

(** When all values are the same, the threshold is that value. *)
Lemma map_percent_const (values : list Q) (percent c : Q) :
  values <> [] -> (forall v, In v values -> v == c) ->
  exists t, map_percent values percent = Ok t /\ t == c.
Proof.
  intros Hne Hc. unfold map_percent.
  destruct (py_max_ok _ Hne) as [maxv EM].
  destruct (py_min_ok _ Hne) as [minv Em].
  rewrite EM, Em. simpl.
  pose proof (proj1 (py_max_spec _ _ EM)) as HM. apply Hc in HM.
  pose proof (proj1 (py_min_spec _ _ Em)) as Hm. apply Hc in Hm.
  assert (Hle : Qle_bool maxv minv = true).
  { apply Qle_bool_iff. rewrite HM, Hm. apply Qle_refl. }
  rewrite Hle. eauto.
Qed.

(** With percent = 0 the threshold is the largest value. *)
Lemma map_percent_zero (values : list Q) :
  values <> [] ->
  exists maxv t,
    py_max values = Ok maxv /\ map_percent values 0 = Ok t /\ t == maxv.
Proof.
  intro Hne.
  destruct (map_percent_ok values 0 Hne)
    as (maxv & minv & t & EM & Em & Et & Ht).
  exists maxv, t. repeat split; auto.
  destruct Ht as [H| ->]; [exact H | ring].
Qed.

(** *** By side *)

Lemma np_dot_ok (points : list vec3) (direction : vec3) :
  points <> [] ->
  np_dot points direction = Ok (map (fun p => dot p direction) points).
Proof. destruct points; [congruence | reflexivity]. Qed.

Lemma np_dot_inv (points : list vec3) (direction : vec3) (values : list Q) :
  np_dot points direction = Ok values ->
  points <> [] /\ values = map (fun p => dot p direction) points.
Proof.
  destruct points; simpl; intro H; [discriminate|].
  injection H as <-. split; [discriminate | reflexivity].
Qed.

(** The mask of [_by_side]: the values above the threshold of the values. *)
Lemma by_side_spec (G : Geom) (points : list vec3) (direction : vec3)
    (percent : Q) :
  points <> [] ->
  let values :=
    map (fun p => dot p (np_div direction (norm G direction))) points in
  exists t,
    map_percent values percent = Ok t /\
    _by_side G points direction percent = Ok (np_gt values t).
Proof.
  intros Hne values. unfold _by_side.
  rewrite np_dot_ok by assumption. simpl. fold values.
  assert (Hv : values <> []).
  { unfold values. destruct points; [congruence | discriminate]. }
  destruct (map_percent_ok values percent Hv) as (_ & _ & t & _ & _ & Et & _).
  exists t. rewrite Et. auto.
Qed.

Section BySide.

Variable A : Type.
Variable eq_dec : forall a b : A, {a = b} + {a <> b}.
Variable get_points : A -> list vec3.
Variable direction : vec3.

Lemma dict_get_set_same {V} (d : dict A V) (k : A) (v : V) :
  dict_get eq_dec (dict_set d k v) k = Ok v.
Proof. simpl. destruct (eq_dec k k); [reflexivity | congruence]. Qed.

Lemma dict_get_set_other {V} (d : dict A V) (k k' : A) (v : V) :
  k <> k' -> dict_get eq_dec (dict_set d k' v) k = dict_get eq_dec d k.
Proof. intro N. simpl. destruct (eq_dec k k'); [congruence | reflexivity]. Qed.

(** What the first loop leaves behind: all values in order, and for every
    element its own values under its key. *)
Lemma side_values_spec (elements : list A) :
  forall all0 d0 allv d,
    side_values get_points elements direction all0 d0 = Ok (allv, d) ->
    allv = all0 ++ concat (map (projections get_points direction) elements) /\
    (forall e, In e elements ->
               get_points e <> [] /\ dict_get eq_dec d e = Ok (projections get_points direction e)) /\
    (forall k, ~ In k elements -> dict_get eq_dec d k = dict_get eq_dec d0 k).
Proof.
  induction elements as [|e rest IH]; simpl; intros all0 d0 allv d H.
  - injection H as <- <-. rewrite app_nil_r.
    split; [reflexivity|]. split; [intros e []|reflexivity].
  - destruct (np_dot (get_points e) direction) as [values|err] eqn:Ev;
      simpl in H; [|discriminate].
    apply np_dot_inv in Ev. destruct Ev as [Hne ->].
    change (map (fun p => dot p direction) (get_points e))
      with (projections get_points direction e) in H.
    destruct (IH _ _ _ _ H) as (Hall & Hin & Hout).
    split; [|split].
    + rewrite Hall, <- app_assoc. reflexivity.
    + intros x Hx. destruct (in_dec eq_dec x rest) as [Hr|Hr].
      * now apply Hin.
      * destruct Hx as [<-|Hx]; [|contradiction].
        split; [exact Hne|]. rewrite (Hout _ Hr). apply dict_get_set_same.
    + intros k Hk. rewrite Hout by tauto.
      apply dict_get_set_other. intro E. apply Hk. now left.
Qed.

Lemma side_values_ok (elements : list A) :
  (forall e, In e elements -> get_points e <> []) ->
  forall all0 d0,
    exists allv d,
      side_values get_points elements direction all0 d0 = Ok (allv, d).
Proof.
  induction elements as [|e rest IH]; simpl; intros Hne all0 d0; [eauto|].
  rewrite np_dot_ok by (apply Hne; now left). simpl.
  apply IH. intros; apply Hne; now right.
Qed.

Lemma all_values_nonempty (elements : list A) :
  elements <> [] -> (forall e, In e elements -> get_points e <> []) ->
  concat (map (projections get_points direction) elements) <> [].
Proof.
  destruct elements as [|e rest]; [congruence|]. intros _ Hne. simpl.
  specialize (Hne e (or_introl eq_refl)). unfold projections.
  destruct (get_points e); [congruence | discriminate].
Qed.

(** The mask of [_edges_by_side] and [_faces_by_side]: an element passes when
    all of its values (any of them, with partial selection) are above the
    threshold of all values. *)
Lemma elements_by_side_spec (partial : bool) (elements : list A)
    (percent : Q) :
  elements <> [] -> (forall e, In e elements -> get_points e <> []) ->
  let check := if partial then any else all in
  exists t,
    map_percent (concat (map (projections get_points direction) elements)) percent = Ok t /\
    elements_by_side eq_dec get_points partial elements direction percent
      = Ok (map (fun e => check (np_gt (projections get_points direction e) t)) elements).
Proof.
  intros Hne Hpts check. unfold elements_by_side.
  destruct (side_values_ok elements Hpts [] []) as (allv & d & Esv).
  rewrite Esv. simpl.
  destruct (side_values_spec _ _ _ _ _ Esv) as (Hall & Hin & _).
  simpl in Hall. subst allv.
  destruct (map_percent_ok _ percent (all_values_nonempty _ Hne Hpts))
    as (_ & _ & t & _ & _ & Et & _).
  exists t. split; [exact Et|]. rewrite Et. simpl.
  apply mapM_pure. intros e He.
  destruct (Hin e He) as [_ ->]. reflexivity.
Qed.

Lemma check_none (partial : bool) (values : list Q) (t : Q) :
  values <> [] -> (forall v, In v values -> v <= t) ->
  (if partial then any else all) (np_gt values t) = false.
Proof.
  intros Hne Hle. rewrite np_gt_none by assumption.
  destruct partial.
  - apply any_false_iff. intros b Hb. now apply repeat_spec in Hb.
  - apply all_false_iff.
    + destruct values; [congruence | discriminate].
    + intros b Hb. now apply repeat_spec in Hb.
Qed.

Lemma map_const_false {B} (f : B -> bool) (l : list B) :
  (forall x, In x l -> f x = false) -> map f l = repeat false (length l).
Proof.
  induction l as [|x l IH]; intro H; simpl; [reflexivity|].
  rewrite (H x (or_introl eq_refl)). f_equal. apply IH.
  intros; apply H; now right.
Qed.

Lemma projections_nonempty (e : A) :
  get_points e <> [] -> projections get_points direction e <> [].
Proof.
  unfold projections. destruct (get_points e); [congruence | discriminate].
Qed.

Lemma in_all_values (elements : list A) (e : A) (v : Q) :
  In e elements -> In v (projections get_points direction e) ->
  In v (concat (map (projections get_points direction) elements)).
Proof.
  intros He Hv. apply in_concat. eexists; split; [|exact Hv].
  now apply in_map.
Qed.

(** No element passes when the threshold is not below any value. *)
Lemma elements_by_side_none (partial : bool) (elements : list A)
    (percent : Q) :
  elements <> [] -> (forall e, In e elements -> get_points e <> []) ->
  (forall t,
      map_percent (concat (map (projections get_points direction) elements))
                  percent = Ok t ->
      forall v,
        In v (concat (map (projections get_points direction) elements)) ->
        v <= t) ->
  elements_by_side eq_dec get_points partial elements direction percent
    = Ok (repeat false (length elements)).
Proof.
  intros Hne Hpts Hle.
  destruct (elements_by_side_spec partial elements percent Hne Hpts)
    as (t & Et & ->).
  f_equal. apply map_const_false. intros e He.
  apply check_none.
  - apply projections_nonempty. now apply Hpts.
  - intros v Hv. apply (Hle t Et). eapply in_all_values; eauto.
Qed.

(** Percent = 0: the threshold is the largest value, nothing is above it. *)
Lemma elements_by_side_zero (partial : bool) (elements : list A) :
  elements <> [] -> (forall e, In e elements -> get_points e <> []) ->
  elements_by_side eq_dec get_points partial elements direction 0
    = Ok (repeat false (length elements)).
Proof.
  intros Hne Hpts. apply elements_by_side_none; auto.
  intros t Et v Hv.
  destruct (map_percent_zero _ (all_values_nonempty _ Hne Hpts))
    as (maxv & t' & EM & Et' & Ht).
  rewrite Et in Et'. injection Et' as <-. rewrite Ht.
  now apply (proj2 (py_max_spec _ _ EM)).
Qed.

(** All values the same: the threshold is that value, nothing is above. *)
Lemma elements_by_side_const (partial : bool) (elements : list A)
    (percent c : Q) :
  elements <> [] ->
  (forall e, In e elements ->
             get_points e <> [] /\
             forall p, In p (get_points e) -> dot p direction == c) ->
  elements_by_side eq_dec get_points partial elements direction percent
    = Ok (repeat false (length elements)).
Proof.
  intros Hne Hc.
  assert (Hpts : forall e, In e elements -> get_points e <> []).
  { intros e He. now apply Hc. }
  assert (Hall : forall v,
             In v (concat (map (projections get_points direction) elements)) ->
             v == c).
  { intros v Hv. apply in_concat in Hv. destruct Hv as (l & Hl & Hv).
    apply in_map_iff in Hl. destruct Hl as (e & <- & He).
    unfold projections in Hv. apply in_map_iff in Hv.
    destruct Hv as (p & <- & Hp). now apply (Hc e He). }
  apply elements_by_side_none; auto.
  intros t Et v Hv.
  destruct (map_percent_const _ percent c (all_values_nonempty _ Hne Hpts) Hall)
    as (t' & Et' & Ht).
  rewrite Et in Et'. injection Et' as <-. rewrite Ht, (Hall v Hv).
  apply Qle_refl.
Qed.

End BySide.

(** The same for the vertices, whose values are the projections onto the
    normalized direction. *)
Lemma by_side_none (G : Geom) (points : list vec3) (direction : vec3)
    (percent : Q) :
  points <> [] ->
  let values :=
    map (fun p => dot p (np_div direction (norm G direction))) points in
  (forall t, map_percent values percent = Ok t ->
             forall v, In v values -> v <= t) ->
  _by_side G points direction percent = Ok (repeat false (length points)).
Proof.
  intros Hne values Hle.
  destruct (by_side_spec G points direction percent Hne) as (t & Et & ->).
  f_equal. fold values. rewrite np_gt_none by (apply (Hle t Et)).
  unfold values. now rewrite length_map.
Qed.

(** The threshold of a list of values that are all the same selects none of
    them, and neither does the threshold for percent = 0. *)
Lemma values_none_const (values : list Q) (percent c : Q) :
  values <> [] -> (forall v, In v values -> v == c) ->
  forall t, map_percent values percent = Ok t ->
            forall v, In v values -> v <= t.
Proof.
  intros Hne Hc t Et v Hv.
  destruct (map_percent_const values percent c Hne Hc) as (t' & Et' & Ht).
  rewrite Et in Et'. injection Et' as <-. rewrite Ht, (Hc v Hv).
  apply Qle_refl.
Qed.

Lemma values_none_zero (values : list Q) :
  values <> [] ->
  forall t, map_percent values 0 = Ok t -> forall v, In v values -> v <= t.
Proof.
  intros Hne t Et v Hv.
  destruct (map_percent_zero values Hne) as (maxv & t' & EM & Et' & Ht).
  rewrite Et in Et'. injection Et' as <-. rewrite Ht.
  now apply (proj2 (py_max_spec _ _ EM)).
Qed.

Lemma map_nonempty {B C} (f : B -> C) (l : list B) : l <> [] -> map f l <> [].
Proof. destruct l; [congruence | discriminate]. Qed.

Lemma threshold_const (values : list Q) (percent c : Q) :
  values <> [] -> (forall v, In v values -> v == c) ->
  exists t,
    map_percent values percent = Ok t /\ t == c /\
    np_gt values t = repeat false (length values).
Proof.
  intros Hne Hc.
  destruct (map_percent_const values percent c Hne Hc) as (t & Et & Ht).
  exists t. repeat split; auto. apply np_gt_none.
  intros v Hv. rewrite Ht, (Hc v Hv). apply Qle_refl.
Qed.

(** C3, as the code has it.  With percent = 0 the threshold of a "by side"
    selection is the largest measured value and the test is a strict
    greater-than, so no element is selected: no vertex, no edge, no face. *)
Theorem by_side_percent_zero_selects_nothing (G : Geom) (self : node)
    (topo : SvSolidTopology) (direction : vec3) :
  (Vertexes (solid topo) <> [] ->
   _verts_by_side G topo direction 0
     = Ok (repeat false (length (Vertexes (solid topo))))) /\
  (Edges (solid topo) <> [] ->
   (forall e, In e (Edges (solid topo)) -> get_points_by_edge topo e <> []) ->
   _edges_by_side self topo direction 0
     = Ok (repeat false (length (Edges (solid topo))))) /\
  (Faces (solid topo) <> [] ->
   (forall f, In f (Faces (solid topo)) -> get_points_by_face topo f <> []) ->
   _faces_by_side self topo direction 0
     = Ok (repeat false (length (Faces (solid topo))))).
Proof.
  split; [|split].
  - intro Hne. unfold _verts_by_side.
    rewrite by_side_none.
    + now rewrite length_map.
    + now apply map_nonempty.
    + apply values_none_zero. apply map_nonempty. now apply map_nonempty.
  - intros Hne Hpts. now apply elements_by_side_zero.
  - intros Hne Hpts. now apply elements_by_side_zero.
Qed.

Lemma map_percent_inv (values : list Q) (percent t : Q) :
  map_percent values percent = Ok t ->
  exists minv maxv,
    py_min values = Ok minv /\ py_max values = Ok maxv /\ minv <= maxv /\
    ((maxv <= minv /\ t = maxv) \/
     (minv < maxv /\ t = maxv - percent * (maxv - minv) * (1 # 100))).
Proof.
  unfold map_percent. intro H.
  destruct (py_max values) as [maxv|e] eqn:EM; simpl in H; [|discriminate].
  destruct (py_min values) as [minv|e] eqn:Em; simpl in H; [|discriminate].
  exists minv, maxv. repeat split; auto.
  - pose proof (extent_nonneg _ _ _ Em EM). lra.
  - destruct (Qle_bool maxv minv) eqn:Hle; injection H as <-.
    + left. split; [now apply Qle_bool_iff | reflexivity].
    + right. split; [|reflexivity].
      apply Qnot_le_lt. intro Hc. apply Qle_bool_iff in Hc. congruence.
Qed.








(** C10.  When all measured values of a percentile-thresholded selection are
    the same, [map_percent] returns that value and, the test being a strict
    greater-than, the mask selects no element, whatever the percent: by side
    (vertices, edges, faces), by normal (faces) and by direction (edges). *)
Theorem constant_values_select_nothing (G : Geom) (self : node)
    (topo : SvSolidTopology) (direction : vec3) (percent c : Q) :
  (forall values,
      values <> [] -> (forall v, In v values -> v == c) ->
      exists t, map_percent values percent = Ok t /\ t == c /\
                np_gt values t = repeat false (length values)) /\
  (Vertexes (solid topo) <> [] ->
   (forall v, In v (Vertexes (solid topo)) ->
              dot (to_tuple v) (np_div direction (norm G direction)) == c) ->
   _verts_by_side G topo direction percent
     = Ok (repeat false (length (Vertexes (solid topo))))) /\
  (Edges (solid topo) <> [] ->
   (forall e, In e (Edges (solid topo)) ->
              get_points_by_edge topo e <> [] /\
              forall p, In p (get_points_by_edge topo e) ->
                        dot p direction == c) ->
   _edges_by_side self topo direction percent
     = Ok (repeat false (length (Edges (solid topo))))) /\
  (Faces (solid topo) <> [] ->
   (forall f, In f (Faces (solid topo)) ->
              get_points_by_face topo f <> [] /\
              forall p, In p (get_points_by_face topo f) ->
                        dot p direction == c) ->
   _faces_by_side self topo direction percent
     = Ok (repeat false (length (Faces (solid topo))))) /\
  (Faces (solid topo) <> [] ->
   (forall f, In f (Faces (solid topo)) ->
              dot direction (plane_normal G (get_points_by_face topo f)) == c) ->
   _faces_by_normal G topo direction percent
     = Ok (repeat false (length (Faces (solid topo))))) /\
  (Edges (solid topo) <> [] ->
   (forall e, In e (Edges (solid topo)) ->
              Qabs (dot direction (line_direction G (get_points_by_edge topo e)))
              == c) ->
   _edges_by_direction G topo direction percent
     = Ok (repeat false (length (Edges (solid topo))))).
Proof.
  split; [|split; [|split; [|split; [|split]]]].
  - intros values Hne Hc. now apply threshold_const.
  - intros Hne Hc. unfold _verts_by_side.
    rewrite by_side_none.
    + now rewrite length_map.
    + now apply map_nonempty.
    + apply values_none_const with (c := c).
      * apply map_nonempty. now apply map_nonempty.
      * intros v Hv. apply in_map_iff in Hv. destruct Hv as (p & <- & Hp).
        apply in_map_iff in Hp. destruct Hp as (x & <- & Hx). now apply Hc.
  - intros Hne Hc. now apply elements_by_side_const with (c := c).
  - intros Hne Hc. now apply elements_by_side_const with (c := c).
  - intros Hne Hc. unfold _faces_by_normal.
    destruct (threshold_const
                (map (fun face =>
                        dot direction
                            (plane_normal G (get_points_by_face topo face)))
                     (Faces (solid topo))) percent c)
      as (t & Et & _ & Hnone).
    + now apply map_nonempty.
    + intros v Hv. apply in_map_iff in Hv. destruct Hv as (f & <- & Hf).
      now apply Hc.
    + rewrite Et. simpl. rewrite Hnone. now rewrite length_map.
  - intros Hne Hc. unfold _edges_by_direction.
    destruct (threshold_const
                (map (fun edge =>
                        Qabs (dot direction
                                (line_direction G
                                   (get_points_by_edge topo edge))))
                     (Edges (solid topo))) percent c)
      as (t & Et & _ & Hnone).
    + now apply map_nonempty.
    + intros v Hv. apply in_map_iff in Hv. destruct Hv as (e & <- & He).
      now apply Hc.
    + rewrite Et. simpl. rewrite Hnone. now rewrite length_map.
Qed.

(** *** Masks that grow *)

Lemma grows_mask_le (m1 m2 : list bool) : grows m1 m2 -> mask_le m1 m2.
Proof.
  intro H. split.
  - eapply Forall2_length; eauto.
  - induction H as [|a b m1 m2 Hab H IH]; intros [|i] Hi; simpl in *;
      try discriminate.
    + injection Hi as ->. now rewrite Hab.
    + now apply IH.
Qed.

Lemma grows_map {B} (f g : B -> bool) (l : list B) :
  (forall x, In x l -> f x = true -> g x = true) ->
  grows (map f l) (map g l).
Proof.
  induction l as [|x l IH]; intro H; simpl; constructor.
  - apply H. now left.
  - apply IH. intros; apply H; auto. now right.
Qed.

Lemma Qltb_mono (x r1 r2 : Q) : r1 <= r2 -> Qltb x r1 = true -> Qltb x r2 = true.
Proof.
  intros Hr H. apply Qltb_lt in H. apply Qltb_lt.
  eapply Qlt_le_trans; eauto.
Qed.

Lemma np_lt_grows (distances : list Q) (b1 b2 : Q) :
  b1 <= b2 -> grows (np_lt distances b1) (np_lt distances b2).
Proof.
  intro Hb. apply grows_map. intros x _. now apply Qltb_mono.
Qed.

Lemma all_grows (t1 t2 : list bool) :
  grows t1 t2 -> all t1 = true -> all t2 = true.
Proof.
  unfold all. induction 1 as [|a b t1 t2 Hab H IH]; simpl; [auto|].
  rewrite !andb_true_iff. intros [Ha Ht]. split; auto.
Qed.

Lemma any_grows (t1 t2 : list bool) :
  grows t1 t2 -> any t1 = true -> any t2 = true.
Proof.
  unfold any. induction 1 as [|a b t1 t2 Hab H IH]; simpl; [auto|].
  rewrite !orb_true_iff. intros [Ha|Ht]; auto.
Qed.

Lemma check_grows (partial : bool) (t1 t2 : list bool) :
  grows t1 t2 ->
  (if partial then any else all) t1 = true ->
  (if partial then any else all) t2 = true.
Proof. destruct partial; [apply any_grows | apply all_grows]. Qed.

(** A location mask grows when the condition does. *)
Lemma location_mask_grows {B} (get_points : B -> list vec3)
    (cond1 cond2 : list vec3 -> result (list bool)) (partial : bool)
    (elements : list B) :
  (forall points t1, cond1 points = Ok t1 ->
                     exists t2, cond2 points = Ok t2 /\ grows t1 t2) ->
  let check := if partial then any else all in
  forall m1,
    mapM (fun e => let* test := cond1 (get_points e) in Ok (check test))
         elements = Ok m1 ->
    exists m2,
      mapM (fun e => let* test := cond2 (get_points e) in Ok (check test))
           elements = Ok m2 /\
      grows m1 m2.
Proof.
  intros Hc check.
  induction elements as [|e elements IH]; simpl; intros m1 H.
  - injection H as <-. exists []. split; [reflexivity | constructor].
  - destruct (cond1 (get_points e)) as [t1|err] eqn:E1; simpl in H;
      [|discriminate].
    destruct (mapM _ elements) as [m1'|err] eqn:Em; simpl in H; [|discriminate].
    injection H as <-.
    destruct (Hc _ _ E1) as (t2 & -> & Ht).
    destruct (IH _ eq_refl) as (m2 & -> & Hm). simpl.
    eexists; split; [reflexivity|]. constructor; [|exact Hm].
    now apply check_grows.
Qed.

Lemma sphere_condition_grows (center : vec3) (r1 r2 : Q) :
  r1 * r1 <= r2 * r2 ->
  forall points t1,
    sphere_condition center r1 points = Ok t1 ->
    exists t2, sphere_condition center r2 points = Ok t2 /\ grows t1 t2.
Proof.
  intros Hr points t1. unfold sphere_condition.
  destruct (np_sq_distances points center) as [ds|err]; simpl; [|discriminate].
  intro H. injection H as <-. eexists; split; [reflexivity|].
  now apply np_lt_grows.
Qed.

Lemma plane_condition_grows (G : Geom) (center direction : vec3) (r1 r2 : Q) :
  r1 <= r2 ->
  forall points t1,
    plane_condition G center direction r1 points = Ok t1 ->
    exists t2,
      plane_condition G center direction r2 points = Ok t2 /\ grows t1 t2.
Proof.
  intros Hr points t1. unfold plane_condition.
  intro H. injection H as <-. eexists; split; [reflexivity|].
  now apply np_lt_grows.
Qed.

Lemma cylinder_condition_grows (G : Geom) (center direction : vec3)
    (r1 r2 : Q) :
  r1 <= r2 ->
  forall points t1,
    cylinder_condition G center direction r1 points = Ok t1 ->
    exists t2,
      cylinder_condition G center direction r2 points = Ok t2 /\ grows t1 t2.
Proof.
  intros Hr points t1. unfold cylinder_condition.
  intro H. injection H as <-. eexists; split; [reflexivity|].
  now apply np_lt_grows.
Qed.

Lemma square_mono (r1 r2 : Q) : 0 <= r1 -> r1 <= r2 -> r1 * r1 <= r2 * r2.
Proof. intros H0 H. nra. Qed.

(** *** From the primary mask to the derived masks *)

Lemma select_by_mask_spec {B} (mask : list bool) (elements : list B) (x : B) :
  In x (select_by_mask mask elements) <-> selected mask elements x.
Proof.
  unfold select_by_mask, selected. revert elements.
  induction mask as [|b mask IH]; intros [|y elements]; simpl.
  - split; [intros [] | intros ([|j] & H & _); discriminate].
  - split; [intros [] | intros ([|j] & H & _); discriminate].
  - split; [intros [] | intros ([|j] & _ & H); discriminate].
  - destruct b; simpl.
    + rewrite IH. split.
      * intros [<-|(j & Hm & He)]; [exists 0%nat; auto | exists (S j); auto].
      * intros ([|j] & Hm & He); simpl in *.
        -- left. congruence.
        -- right. eauto.
    + rewrite IH. split.
      * intros (j & Hm & He). exists (S j); auto.
      * intros ([|j] & Hm & He); simpl in *; [discriminate | eauto].
Qed.

Lemma select_by_mask_grows {B} (m1 m2 : list bool) (elements : list B) :
  grows m1 m2 ->
  incl (select_by_mask m1 elements) (select_by_mask m2 elements).
Proof.
  intros H x. rewrite !select_by_mask_spec.
  intros (j & Hm & He). exists j. split; [|exact He].
  now apply (proj2 (grows_mask_le _ _ H)).
Qed.

Lemma contains_In {B} (eq_dec : forall a b : B, {a = b} + {a <> b})
    (container : list B) (x : B) :
  contains eq_dec container x = true <-> In x container.
Proof.
  unfold contains. rewrite existsb_exists. split.
  - intros (y & Hy & E). destruct (eq_dec x y); [now subst | discriminate].
  - intro H. exists x. split; [exact H|].
    destruct (eq_dec x x); [reflexivity | congruence].
Qed.

(** An adjacency mask marks exactly the elements incident to a given one. *)
Lemma adjacency_mask_exact {B C} (incident : B -> C -> bool)
    (elements : list B) (given : list C) :
  marks_exactly (map (fun x => existsb (incident x) given) elements) elements
    (fun x => exists y, In y given /\ incident x y = true).
Proof.
  split; [apply length_map|].
  intros i x Hi. rewrite (map_nth_error _ _ _ Hi).
  rewrite <- existsb_exists. split; [intro H; now injection H | congruence].
Qed.

Lemma adjacency_mask_grows {B C} (incident : B -> C -> bool)
    (elements : list B) (given1 given2 : list C) :
  incl given1 given2 ->
  grows (map (fun x => existsb (incident x) given1) elements)
        (map (fun x => existsb (incident x) given2) elements).
Proof.
  intro Hincl. apply grows_map. intros x _.
  rewrite !existsb_exists. intros (y & Hy & H). eauto.
Qed.

Lemma marks_exactly_iff {B} (mask : list bool) (elements : list B)
    (P Q : B -> Prop) :
  (forall x, P x <-> Q x) ->
  marks_exactly mask elements P -> marks_exactly mask elements Q.
Proof.
  intros HPQ [Hlen H]. split; [exact Hlen|].
  intros i x Hi. rewrite (H i x Hi). apply HPQ.
Qed.

Ltac incident_step :=
  match goal with
  | H1 : In _ (select_by_mask _ _), H2 : contains _ _ _ = true |- _ =>
      split; [ exact (proj1 (select_by_mask_spec _ _ _) H1)
             | exact (proj1 (contains_In _ _ _) H2) ]
  | H1 : selected _ _ _, H2 : In _ _ |- _ =>
      split; [ exact (proj2 (select_by_mask_spec _ _ _) H1)
             | exact (proj2 (contains_In _ _ _) H2) ]
  end.

(** C6.  Whatever the criterion, the two masks [calc_mask] derives from the
    primary mask mark exactly the elements incident to at least one selected
    element of the primary kind: after a face selection the vertices and the
    edges of the selected faces, after an edge selection the vertices of the
    selected edges and the faces that contain one, after a vertex selection
    the edges and the faces that contain a selected vertex. *)
Theorem derived_masks_mark_incident_elements (G : Geom) (self : node)
    (s : Solid) (precision : Q) (direction center : vec3) (percent radius : Q)
    (vm em fm : list bool) :
  calc_mask G self s precision direction center percent radius
    = Ok (vm, em, fm) ->
  match element_type self with
  | FACES =>
      marks_exactly vm (Vertexes s)
        (fun v => exists f, selected fm (Faces s) f /\ In v (f_Vertexes f)) /\
      marks_exactly em (Edges s)
        (fun e => exists f, selected fm (Faces s) f /\ In e (f_Edges f))
  | EDGES =>
      marks_exactly vm (Vertexes s)
        (fun v => exists e, selected em (Edges s) e /\ In v (e_Vertexes e)) /\
      marks_exactly fm (Faces s)
        (fun f => exists e, selected em (Edges s) e /\ In e (f_Edges f))
  | VERTS =>
      marks_exactly em (Edges s)
        (fun e => exists v, selected vm (Vertexes s) v /\ In v (e_Vertexes e)) /\
      marks_exactly fm (Faces s)
        (fun f => exists v, selected vm (Vertexes s) v /\ In v (f_Vertexes f))
  end.
Proof.
  unfold calc_mask. intro H.
  destruct (element_type self).
  - (* VERTS *)
    match type of H with
    | bind ?m _ = _ => destruct m as [mask|err]; simpl in H; [|discriminate]
    end.
    injection H as <- <- <-. split.
    + eapply marks_exactly_iff;
        [|apply (adjacency_mask_exact
                   (fun edge => contains Vertex_eq_dec (e_Vertexes edge)))].
      intro e. simpl. split; intros (v & Hv & Hin); exists v.
      * incident_step.
      * incident_step.
    + eapply marks_exactly_iff;
        [|apply (adjacency_mask_exact
                   (fun face => contains Vertex_eq_dec (f_Vertexes face)))].
      intro f. simpl. split; intros (v & Hv & Hin); exists v.
      * incident_step.
      * incident_step.
  - (* EDGES *)
    match type of H with
    | bind ?m _ = _ => destruct m as [mask|err]; simpl in H; [|discriminate]
    end.
    injection H as <- <- <-. split.
    + eapply marks_exactly_iff;
        [|apply (adjacency_mask_exact
                   (fun v edge => contains Vertex_eq_dec (e_Vertexes edge) v))].
      intro v. simpl. split; intros (e & He & Hin); exists e.
      * incident_step.
      * incident_step.
    + eapply marks_exactly_iff;
        [|apply (adjacency_mask_exact
                   (fun face => contains Edge_eq_dec (f_Edges face)))].
      intro f. simpl. split; intros (e & He & Hin); exists e.
      * incident_step.
      * incident_step.
  - (* FACES *)
    match type of H with
    | bind ?m _ = _ => destruct m as [mask|err]; simpl in H; [|discriminate]
    end.
    injection H as <- <- <-. split.
    + eapply marks_exactly_iff;
        [|apply (adjacency_mask_exact
                   (fun v face => contains Vertex_eq_dec (f_Vertexes face) v))].
      intro v. simpl. split; intros (f & Hf & Hin); exists f.
      * incident_step.
      * incident_step.
    + eapply marks_exactly_iff;
        [|apply (adjacency_mask_exact
                   (fun edge face => contains Edge_eq_dec (f_Edges face) edge))].
      intro e. simpl. split; intros (f & Hf & Hin); exists f.
      * incident_step.
      * incident_step.
Qed.

(** *** Growing the radius *)

Lemma edges_by_vertices_grows (topo : SvSolidTopology) (g1 g2 : list Vertex) :
  incl g1 g2 ->
  grows (get_edges_by_vertices_mask topo g1) (get_edges_by_vertices_mask topo g2).
Proof.
  apply (adjacency_mask_grows
           (fun edge => contains Vertex_eq_dec (e_Vertexes edge))).
Qed.

Lemma faces_by_vertices_grows (topo : SvSolidTopology) (g1 g2 : list Vertex) :
  incl g1 g2 ->
  grows (get_faces_by_vertices_mask topo g1) (get_faces_by_vertices_mask topo g2).
Proof.
  apply (adjacency_mask_grows
           (fun face => contains Vertex_eq_dec (f_Vertexes face))).
Qed.

Lemma vertices_by_edges_grows (topo : SvSolidTopology) (g1 g2 : list Edge) :
  incl g1 g2 ->
  grows (get_vertices_by_edges_mask topo g1) (get_vertices_by_edges_mask topo g2).
Proof.
  apply (adjacency_mask_grows
           (fun v edge => contains Vertex_eq_dec (e_Vertexes edge) v)).
Qed.

Lemma faces_by_edges_grows (topo : SvSolidTopology) (g1 g2 : list Edge) :
  incl g1 g2 ->
  grows (get_faces_by_edges_mask topo g1) (get_faces_by_edges_mask topo g2).
Proof.
  apply (adjacency_mask_grows (fun face => contains Edge_eq_dec (f_Edges face))).
Qed.

Lemma vertices_by_faces_grows (topo : SvSolidTopology) (g1 g2 : list Face) :
  incl g1 g2 ->
  grows (get_vertices_by_faces_mask topo g1) (get_vertices_by_faces_mask topo g2).
Proof.
  apply (adjacency_mask_grows
           (fun v face => contains Vertex_eq_dec (f_Vertexes face) v)).
Qed.

Lemma edges_by_faces_grows (topo : SvSolidTopology) (g1 g2 : list Face) :
  incl g1 g2 ->
  grows (get_edges_by_faces_mask topo g1) (get_edges_by_faces_mask topo g2).
Proof.
  apply (adjacency_mask_grows
           (fun edge face => contains Edge_eq_dec (f_Edges face) edge)).
Qed.

(** The primary masks of the three radius criteria. *)
Lemma verts_by_radius_grows (G : Geom) (self : node) (topo : SvSolidTopology)
    (center direction : vec3) (r1 r2 : Q) :
  r1 <= r2 ->
  grows (_verts_by_sphere G topo center r1) (_verts_by_sphere G topo center r2)
  /\ grows (_verts_by_plane G topo center direction r1)
           (_verts_by_plane G topo center direction r2)
  /\ grows (_verts_by_cylinder G topo center direction r1)
           (_verts_by_cylinder G topo center direction r2).
Proof.
  intro Hr. repeat split; apply grows_map; intros v _; now apply Qltb_mono.
Qed.

Lemma edges_by_radius_grows (G : Geom) (self : node) (topo : SvSolidTopology)
    (center direction : vec3) (r1 r2 : Q) (m1 : list bool) :
  r1 <= r2 ->
  (r1 * r1 <= r2 * r2 ->
   _edges_by_sphere self topo center r1 = Ok m1 ->
   exists m2, _edges_by_sphere self topo center r2 = Ok m2 /\ grows m1 m2) /\
  (_edges_by_plane G self topo center direction r1 = Ok m1 ->
   exists m2,
     _edges_by_plane G self topo center direction r2 = Ok m2 /\ grows m1 m2) /\
  (_edges_by_cylinder G self topo center direction r1 = Ok m1 ->
   exists m2,
     _edges_by_cylinder G self topo center direction r2 = Ok m2 /\
     grows m1 m2).
Proof.
  intro Hr. repeat split.
  - intro Hsq. apply location_mask_grows. now apply sphere_condition_grows.
  - apply location_mask_grows. now apply plane_condition_grows.
  - apply location_mask_grows. now apply cylinder_condition_grows.
Qed.

Lemma faces_by_radius_grows (G : Geom) (self : node) (topo : SvSolidTopology)
    (center direction : vec3) (r1 r2 : Q) (m1 : list bool) :
  r1 <= r2 ->
  (r1 * r1 <= r2 * r2 ->
   _faces_by_sphere self topo center r1 = Ok m1 ->
   exists m2, _faces_by_sphere self topo center r2 = Ok m2 /\ grows m1 m2) /\
  (_faces_by_plane G self topo center direction r1 = Ok m1 ->
   exists m2,
     _faces_by_plane G self topo center direction r2 = Ok m2 /\ grows m1 m2) /\
  (_faces_by_cylinder G self topo center direction r1 = Ok m1 ->
   exists m2,
     _faces_by_cylinder G self topo center direction r2 = Ok m2 /\
     grows m1 m2).
Proof.
  intro Hr. repeat split.
  - intro Hsq. apply location_mask_grows. now apply sphere_condition_grows.
  - apply location_mask_grows. now apply plane_condition_grows.
  - apply location_mask_grows. now apply cylinder_condition_grows.
Qed.

Ltac finish_grown Hg :=
  eexists _, _, _; split; [reflexivity|];
  repeat split;
    try (apply grows_mask_le;
         first [ exact Hg
               | apply edges_by_vertices_grows
               | apply faces_by_vertices_grows
               | apply vertices_by_edges_grows
               | apply faces_by_edges_grows
               | apply vertices_by_faces_grows
               | apply edges_by_faces_grows ];
         try (apply select_by_mask_grows; exact Hg)).

Ltac grow_primary H lemma :=
  match type of H with
  | bind ?m _ = _ =>
      let m1 := fresh "m1" in
      let E1 := fresh "E1" in
      let Hg := fresh "Hg" in
      destruct m as [m1|] eqn:E1; simpl in H; [|discriminate];
      injection H as <- <- <-;
      destruct (lemma m1 E1) as (? & -> & Hg); simpl;
      finish_grown Hg
  end.

(** C5, as the code has it.  For the sphere, plane and cylinder criteria and
    radii r1 <= r2, every element that [calc_mask] selects at r1, in the
    primary mask and in the two derived masks, is selected at r2; for the
    sphere test on edges and faces, which compares squared distances with
    the squared radius, r1 must not be negative. *)
Theorem masks_grow_with_radius (G : Geom) (self : node) (s : Solid)
    (precision : Q) (direction center : vec3) (percent r1 r2 : Q)
    (vm1 em1 fm1 : list bool) :
  In (criteria_type self) [SPHERE; PLANE; CYLINDER] ->
  r1 <= r2 ->
  (criteria_type self = SPHERE -> element_type self <> VERTS -> 0 <= r1) ->
  calc_mask G self s precision direction center percent r1
    = Ok (vm1, em1, fm1) ->
  exists vm2 em2 fm2,
    calc_mask G self s precision direction center percent r2
      = Ok (vm2, em2, fm2) /\
    mask_le vm1 vm2 /\ mask_le em1 em2 /\ mask_le fm1 fm2.
Proof.
  intros Hcrit Hr Hpos H. unfold calc_mask in *.
  destruct (element_type self) eqn:Et;
    destruct (criteria_type self) eqn:Ec;
    simpl in Hcrit;
    try (exfalso; intuition discriminate); clear Hcrit.
  - (* VERTS, SPHERE *)
    simpl in H. injection H as <- <- <-. simpl.
    pose proof (proj1 (verts_by_radius_grows G self (new_topology s)
                         center direction r1 r2 Hr)) as Hg.
    finish_grown Hg.
  - (* VERTS, PLANE *)
    simpl in H. injection H as <- <- <-. simpl.
    pose proof (proj1 (proj2 (verts_by_radius_grows G self (new_topology s)
                                center direction r1 r2 Hr))) as Hg.
    finish_grown Hg.
  - (* VERTS, CYLINDER *)
    simpl in H. injection H as <- <- <-. simpl.
    pose proof (proj2 (proj2 (verts_by_radius_grows G self (new_topology s)
                                center direction r1 r2 Hr))) as Hg.
    finish_grown Hg.
  - (* EDGES, SPHERE *)
    assert (Hsq : r1 * r1 <= r2 * r2).
    { apply square_mono; [|exact Hr]. apply Hpos; [reflexivity | discriminate]. }
    grow_primary H
      (fun m1 E1 =>
         proj1 (edges_by_radius_grows G self
                  (tessellate G (new_topology s) precision)
                  center direction r1 r2 m1 Hr) Hsq E1).
  - (* EDGES, PLANE *)
    grow_primary H
      (fun m1 E1 =>
         proj1 (proj2 (edges_by_radius_grows G self
                         (tessellate G (new_topology s) precision)
                         center direction r1 r2 m1 Hr)) E1).
  - (* EDGES, CYLINDER *)
    grow_primary H
      (fun m1 E1 =>
         proj2 (proj2 (edges_by_radius_grows G self
                         (tessellate G (new_topology s) precision)
                         center direction r1 r2 m1 Hr)) E1).
  - (* FACES, SPHERE *)
    assert (Hsq : r1 * r1 <= r2 * r2).
    { apply square_mono; [|exact Hr]. apply Hpos; [reflexivity | discriminate]. }
    grow_primary H
      (fun m1 E1 =>
         proj1 (faces_by_radius_grows G self
                  (tessellate G (new_topology s) precision)
                  center direction r1 r2 m1 Hr) Hsq E1).
  - (* FACES, PLANE *)
    grow_primary H
      (fun m1 E1 =>
         proj1 (proj2 (faces_by_radius_grows G self
                         (tessellate G (new_topology s) precision)
                         center direction r1 r2 m1 Hr)) E1).
  - (* FACES, CYLINDER *)
    grow_primary H
      (fun m1 E1 =>
         proj2 (proj2 (faces_by_radius_grows G self
                         (tessellate G (new_topology s) precision)
                         center direction r1 r2 m1 Hr)) E1).
Qed.

(** *** On the tetrahedron *)

Import SelectExamples.

Lemma tetra_edges_sampled (e : Edge) :
  In e (Edges (solid tetra_topo)) -> get_points_by_edge tetra_topo e <> [].
Proof.
  intro He. simpl in He.
  repeat (destruct He as [<-|He]; [vm_compute; discriminate|]). destruct He.
Qed.

Lemma tetra_faces_sampled (f : Face) :
  In f (Faces (solid tetra_topo)) -> get_points_by_face tetra_topo f <> [].
Proof.
  intro Hf. simpl in Hf.
  repeat (destruct Hf as [<-|Hf]; [vm_compute; discriminate|]). destruct Hf.
Qed.

Lemma by_side_percent_zero_selects_nothing_witness :
  _verts_by_side G_axis tetra_topo up 0 = Ok (repeat false 4) /\
  _edges_by_side (select EDGES SIDE false) tetra_topo up 0
    = Ok (repeat false 6) /\
  _faces_by_side (select EDGES SIDE false) tetra_topo up 0
    = Ok (repeat false 4).
Proof.
  destruct (by_side_percent_zero_selects_nothing G_axis
              (select EDGES SIDE false) tetra_topo up) as (Hv & He & Hf).
  split; [apply Hv; discriminate|].
  split; [apply He; [discriminate | exact tetra_edges_sampled]|].
  apply Hf; [discriminate | exact tetra_faces_sampled].
Defined.

(** C3 as stated fails: with percent = 0 and the direction +Z
    the apex of the tetrahedron has the largest projection, and it is not
    selected (no vertex is). *)
Lemma percent_zero_misses_the_maximal_vertex :
  exists mask,
    _verts_by_side G_axis (new_topology tetrahedron) up 0 = Ok mask /\
    ~ selects_exactly_maximal
        (map (fun v => dot (to_tuple v) up) (Vertexes tetrahedron)) mask.
Proof.
  exists [false; false; false; false]. split; [reflexivity|].
  intros [_ H]. specialize (H 3%nat _ eq_refl). destruct H as [_ H].
  assert (Hsel : nth_error [false; false; false; false] 3 = Some true).
  { apply H. intros w Hw. simpl in Hw.
    repeat (destruct Hw as [<-|Hw]; [vm_compute; discriminate|]).
    destruct Hw. }
  discriminate Hsel.
Qed.



Lemma masks_grow_with_radius_witness :
  1 # 2 <= 2 /\
  exists vm2 em2 fm2,
    calc_mask G_axis (select EDGES PLANE false) tetrahedron (1 # 100)
              up origin 0 2 = Ok (vm2, em2, fm2) /\
    mask_le [true; true; true; false] vm2 /\
    mask_le [true; true; false; true; false; false] em2 /\
    mask_le [true; true; true; true] fm2.
Proof.
  assert (Hr : 1 # 2 <= 2) by (vm_compute; discriminate).
  split; [exact Hr|].
  apply (masks_grow_with_radius G_axis (select EDGES PLANE false) tetrahedron
           (1 # 100) up origin 0 (1 # 2) 2).
  - simpl. auto.
  - exact Hr.
  - intro H. discriminate H.
  - reflexivity.
Defined.

(** C5 as stated fails: the edge sphere test compares squared
    distances with the squared radius, so at radius -2 every edge of the
    tetrahedron is within the sphere around the origin, and at the larger
    radius 1 none is. *)
Lemma sphere_mask_shrinks_from_negative_radius :
  -2 <= 1 /\
  calc_mask G_axis (select EDGES SPHERE false) tetrahedron (1 # 100)
            up origin 0 (-2)
    = Ok ([true; true; true; true],
          [true; true; true; true; true; true],
          [true; true; true; true]) /\
  calc_mask G_axis (select EDGES SPHERE false) tetrahedron (1 # 100)
            up origin 0 1
    = Ok ([false; false; false; false],
          [false; false; false; false; false; false],
          [false; false; false; false]) /\
  ~ mask_le [true; true; true; true; true; true]
            [false; false; false; false; false; false].
Proof.
  split; [vm_compute; discriminate|].
  split; [reflexivity|]. split; [reflexivity|].
  intros [_ H]. specialize (H 0%nat eq_refl). discriminate H.
Qed.

Lemma derived_masks_mark_incident_elements_witness :
  marks_exactly [true; true; true; true] (Vertexes tetrahedron)
    (fun v => exists f,
         selected [false; true; true; true] (Faces tetrahedron) f /\
         In v (f_Vertexes f)) /\
  marks_exactly [true; true; true; true; true; true] (Edges tetrahedron)
    (fun e => exists f,
         selected [false; true; true; true] (Faces tetrahedron) f /\
         In e (f_Edges f)).
Proof.
  exact (derived_masks_mark_incident_elements G_axis (select FACES SIDE true)
           tetrahedron (1 # 100) up origin 100 1 _ _ _ eq_refl).
Defined.

Lemma sheet_edges_flat (e : Edge) :
  In e (Edges (solid sheet_topo)) ->
  get_points_by_edge sheet_topo e <> [] /\
  forall p, In p (get_points_by_edge sheet_topo e) -> dot p up == 0.
Proof.
  intro He. simpl in He.
  repeat (destruct He as [<-|He];
          [split; [vm_compute; discriminate|];
           intros p Hp; vm_compute in Hp;
           repeat (destruct Hp as [<-|Hp]; [reflexivity|]); destruct Hp|]).
  destruct He.
Qed.

Lemma sheet_faces_flat (f : Face) :
  In f (Faces (solid sheet_topo)) ->
  get_points_by_face sheet_topo f <> [] /\
  forall p, In p (get_points_by_face sheet_topo f) -> dot p up == 0.
Proof.
  intro Hf. simpl in Hf.
  repeat (destruct Hf as [<-|Hf];
          [split; [vm_compute; discriminate|];
           intros p Hp; vm_compute in Hp;
           repeat (destruct Hp as [<-|Hp]; [reflexivity|]); destruct Hp|]).
  destruct Hf.
Qed.

Lemma constant_values_select_nothing_witness :
  _verts_by_side G_axis sheet_topo up 30 = Ok (repeat false 3) /\
  _edges_by_side (select EDGES SIDE true) sheet_topo up 30
    = Ok (repeat false 3) /\
  _faces_by_side (select EDGES SIDE true) sheet_topo up 30
    = Ok (repeat false 1) /\
  _faces_by_normal G_axis sheet_topo up 30 = Ok (repeat false 1) /\
  _edges_by_direction G_axis sheet_topo up 30 = Ok (repeat false 3).
Proof.
  destruct (constant_values_select_nothing G_axis (select EDGES SIDE true)
              sheet_topo up 30 0) as (_ & Hv & He & Hf & _ & Hd).
  destruct (constant_values_select_nothing G_axis (select EDGES SIDE true)
              sheet_topo up 30 1) as (_ & _ & _ & _ & Hn & _).
  split.
  { apply Hv; [discriminate|]. intros v Hin. simpl in Hin.
    repeat (destruct Hin as [<-|Hin]; [reflexivity|]). destruct Hin. }
  split; [apply He; [discriminate | exact sheet_edges_flat]|].
  split; [apply Hf; [discriminate | exact sheet_faces_flat]|].
  split.
  { apply Hn; [discriminate|]. intros f Hin. simpl in Hin.
    repeat (destruct Hin as [<-|Hin]; [reflexivity|]). destruct Hin. }
  apply Hd; [discriminate|]. intros e Hin. simpl in Hin.
  repeat (destruct Hin as [<-|Hin]; [reflexivity|]). destruct Hin.
Defined.

End SelectProofs.

(** ** Vector Math MK2 *)

Module MathProofs.

Import VectorMath VectorMathSpec VectorMathExamples PyFacts.

Lemma mapM_member_not_ok {A B} (f : A -> result B) (xs : list A) (x : A) :
  In x xs -> is_ok (f x) = false -> is_ok (mapM f xs) = false.
Proof.
  intros Hin Hx. destruct (f x) as [y|e] eqn:E; [discriminate|].
  eapply mapM_member_raises; eauto.
Qed.

Lemma bind_not_ok {A B} (m : result A) (k : A -> result B) :
  (forall a, m = Ok a -> is_ok (k a) = false) -> is_ok (bind m k) = false.
Proof. destruct m as [a|e]; simpl; [intro H; now apply H | reflexivity]. Qed.

(** One step of [recurse_fxy], over the pairs it zips. *)
Lemma recurse_fxy_step (limit : nat) (l1 l2 : pyval) (f : pyfun) (leve : Z) :
  recurse_fxy (S limit) l1 l2 f leve =
  let* pairs := zipped l1 l2 in
  let* res :=
    if (leve =? 1)%Z then mapM (fun '(u, v) => call2 f u v) pairs
    else mapM (fun '(u, v) => recurse_fxy limit u v f (leve - 1)%Z) pairs in
  Ok (PList res).
Proof.
  simpl. unfold zipped.
  destruct (py_len l1) as [n1|e]; simpl; [|reflexivity].
  destruct (py_len l2) as [n2|e]; simpl; [|reflexivity].
  destruct (if (n2 <? n1)%nat then getitem_last l2 else getitem_last l1)
    as [fl|e]; simpl; [|reflexivity].
  destruct (py_iter l1) as [items1|e]; simpl; [|reflexivity].
  destruct (py_iter l2) as [items2|e]; simpl; reflexivity.
Qed.

(** An exception of the applied function, at any call the recursion makes,
    leaves the recursion as an exception. *)
Lemma recurse_fxy_raises (f : pyfun) (limit : nat) (l1 l2 : pyval) (leve : Z)
    (u v : pyval) (e : exn) :
  fxy_applies limit l1 l2 leve u v -> call2 f u v = Raise e ->
  is_ok (recurse_fxy limit l1 l2 f leve) = false.
Proof.
  intros Happ Hf.
  induction Happ as [limit l1 l2 pairs u v Hz Hin
                    |limit l1 l2 leve pairs x y u v Hleve Hz Hin Happ IH].
  - rewrite recurse_fxy_step, Hz. simpl.
    apply bind_not_ok. intros res Hres.
    pose proof (mapM_member_raises (fun '(u, v) => call2 f u v) pairs (u, v) e
                  Hin Hf) as Hm.
    rewrite Hres in Hm. discriminate Hm.
  - rewrite recurse_fxy_step, Hz. simpl.
    apply Z.eqb_neq in Hleve. rewrite Hleve.
    apply bind_not_ok. intros res Hres.
    pose proof (mapM_member_not_ok
                  (fun '(u, v) => recurse_fxy limit u v f (leve - 1)%Z)
                  pairs (x, y) Hin (IH Hf)) as Hm.
    rewrite Hres in Hm. discriminate Hm.
Qed.

Lemma recurse_fx_raises (f : pyfun) (limit : nat) (l : pyval) (leve : Z)
    (x : pyval) (e : exn) :
  fx_applies limit l leve x -> call1 f x = Raise e ->
  is_ok (recurse_fx limit l f leve) = false.
Proof.
  intros Happ Hf.
  induction Happ as [limit l|limit l leve items i x Hleve Hit Hin Happ IH].
  - simpl. now rewrite Hf.
  - simpl. apply Z.eqb_neq in Hleve. rewrite Hleve, Hit. simpl.
    apply bind_not_ok. intros res Hres.
    pose proof (mapM_member_not_ok
                  (fun i => recurse_fx limit i f (leve - 1)%Z)
                  items i Hin (IH Hf)) as Hm.
    rewrite Hres in Hm. discriminate Hm.
Qed.

Section Node.

Variable mathutils : op -> pyfun.
Variable sqrt : Q -> Q.
Variable levelsOflist : pyval -> result Z.
Variable recursion_limit : nat.

Lemma try_except_pass_not_ok (result : pyval) (body : Py.result pyval) :
  is_ok body = false -> try_except_pass result body = result.
Proof. destruct body; [discriminate | reflexivity]. Qed.

(** C9.  When the elementwise application of the node's function raises an
    exception, [process] does not let it out: it writes the empty result
    [[]] to its output.  This holds on the one-input path ([recurse_fx]) and
    on the two-input path ([recurse_fxy]), for any exception of the
    recursion, and in particular for an exception of the applied function
    (a division by zero in 1/SCALAR, for one) at any call the recursion
    makes. *)
Theorem process_discards_exceptions (self : node) :
  output_linked self = true ->
  let f := func_dict mathutils sqrt (current_op self) in
  let emits_empty :=
    process mathutils sqrt levelsOflist recursion_limit self
      = Ok (Some (PList [PList []])) in
  (forall a leve,
      inputs self = [Ok a] -> levelsOflist a = Ok leve ->
      is_ok (recurse_fx recursion_limit a f (leve - 1)%Z) = false ->
      emits_empty) /\
  (forall a b leve,
      inputs self = [Ok a; Ok b] -> levelsOflist a = Ok leve ->
      is_ok (recurse_fxy recursion_limit a b f (leve - 1)%Z) = false ->
      emits_empty) /\
  (forall a leve x e,
      inputs self = [Ok a] -> levelsOflist a = Ok leve ->
      fx_applies recursion_limit a (leve - 1)%Z x ->
      call1 f x = Raise e ->
      emits_empty) /\
  (forall a b leve u v e,
      inputs self = [Ok a; Ok b] -> levelsOflist a = Ok leve ->
      fxy_applies recursion_limit a b (leve - 1)%Z u v ->
      call2 f u v = Raise e ->
      emits_empty).
Proof.
  intros Hlinked f emits_empty.
  assert (H1 : forall a leve,
             inputs self = [Ok a] -> levelsOflist a = Ok leve ->
             is_ok (recurse_fx recursion_limit a f (leve - 1)%Z) = false ->
             emits_empty).
  { intros a leve Hin Hlev Hrec. unfold emits_empty, process, sv_get.
    rewrite Hlinked, Hin. simpl. rewrite Hlev. simpl.
    fold f. now rewrite try_except_pass_not_ok. }
  assert (H2 : forall a b leve,
             inputs self = [Ok a; Ok b] -> levelsOflist a = Ok leve ->
             is_ok (recurse_fxy recursion_limit a b f (leve - 1)%Z) = false ->
             emits_empty).
  { intros a b leve Hin Hlev Hrec. unfold emits_empty, process, sv_get.
    rewrite Hlinked, Hin. simpl. rewrite Hlev. simpl.
    fold f. now rewrite try_except_pass_not_ok. }
  repeat split; auto.
  - intros a leve x e Hin Hlev Happ Hf.
    apply (H1 a leve Hin Hlev). eapply recurse_fx_raises; eauto.
  - intros a b leve u v e Hin Hlev Happ Hf.
    apply (H2 a b leve Hin Hlev). eapply recurse_fxy_raises; eauto.
Qed.

End Node.

(** 1/SCALAR on the vector (1, 2, 3) and the scalar 0.0: the recursion
    reaches the call [f((1, 2, 3), 0.0)]. *)
Lemma divide_by_zero_applied :
  fxy_applies 1000 one_vector zero_scalar 2
    (PTuple [PFloat 1; PFloat 2; PFloat 3]) (PFloat 0).
Proof.
  eapply fxy_inside with (x := PList [PTuple [PFloat 1; PFloat 2; PFloat 3]])
                         (y := PList [PFloat 0]).
  - discriminate.
  - reflexivity.
  - left. reflexivity.
  - eapply fxy_here; [reflexivity|]. left. reflexivity.
Qed.

(** The lambda raises [ZeroDivisionError] there, and the node writes [[]]. *)
Lemma process_discards_exceptions_witness :
  call2 (func_dict mathutils_absent BendExamples.sqrt_id ONE_OVER_SCALAR)
        (PTuple [PFloat 1; PFloat 2; PFloat 3]) (PFloat 0)
    = Raise zero_division /\
  process mathutils_absent BendExamples.sqrt_id levels_three 1000
          (divide_by zero_scalar)
    = Ok (Some (PList [PList []])).
Proof.
  split; [reflexivity|].
  destruct (process_discards_exceptions mathutils_absent BendExamples.sqrt_id
              levels_three 1000 (divide_by zero_scalar) eq_refl)
    as (_ & _ & _ & H).
  exact (H one_vector zero_scalar 3%Z _ _ zero_division eq_refl eq_refl
           divide_by_zero_applied eq_refl).
Defined.

(** Without an exception the node writes what the recursion returns: 1/SCALAR
    with the scalar 2.0 halves the vector. *)
Example process_divides_by_two :
  process mathutils_absent BendExamples.sqrt_id levels_three 1000
          (divide_by two_scalar)
    = Ok (Some (PList [PList [PTuple [PFloat (1 / 2); PFloat (2 / 2);
                                      PFloat (3 / 2)]]])).
Proof. reflexivity. Qed.

(** [+] concatenates lists: ADD on vectors whose components are lists
    raises nothing, and the node writes the concatenated components. *)
Example process_adds_list_components :
  process mathutils_absent BendExamples.sqrt_id levels_three 1000
          {| current_op := ADD;
             inputs :=
               [ Ok (PList [PList [PTuple [PList [PInt 1]; PList [PInt 2];
                                           PList [PInt 3]]]]);
                 Ok (PList [PList [PTuple [PList [PInt 4]; PList [PInt 5];
                                           PList [PInt 6]]]]) ];
             output_linked := true |}
    = Ok (Some (PList [PList [PTuple [PList [PInt 1; PInt 4];
                                      PList [PInt 2; PInt 5];
                                      PList [PInt 3; PInt 6]]]])).
Proof. reflexivity. Qed.

(** [*] repeats a list by an [int] and refuses a [float]: SCALAR with the
    scalar 2 doubles list components, with 2.0 it raises and the node
    writes [[]]. *)
Example process_repeats_list_components :
  let vectors :=
    PList [PList [PTuple [PList [PInt 1]; PList [PInt 2]; PList [PInt 3]]]] in
  let scalar_node := fun s =>
    {| current_op := SCALAR;
       inputs := [Ok vectors; Ok (PList [PList [s]])];
       output_linked := true |} in
  process mathutils_absent BendExamples.sqrt_id levels_three 1000
          (scalar_node (PInt 2))
    = Ok (Some (PList [PList [PTuple [PList [PInt 1; PInt 1];
                                      PList [PInt 2; PInt 2];
                                      PList [PInt 3; PInt 3]]]])) /\
  process mathutils_absent BendExamples.sqrt_id levels_three 1000
          (scalar_node (PFloat 2))
    = Ok (Some (PList [PList []])).
Proof. split; reflexivity. Qed.

End MathProofs.

(** ** The concrete inputs in binary64 *)

Module Binary64Facts.

Import PrimFloat Binary64.

(** Values 0 and 1, percent = 0: the threshold is exactly 1, which the
    largest value does not exceed. *)
Example threshold64_percent_zero :
  (threshold64 1 0 0 =? 1)%float = true /\
  (threshold64 1 0 0 <? 1)%float = false.
Proof. split; reflexivity. Qed.

(** Values 0 and 1, percent = 100: the threshold is exactly 0, which the
    smallest value does not exceed. *)
Example threshold64_percent_hundred :
  (threshold64 1 0 100 =? 0)%float = true /\
  (threshold64 1 0 100 <? 0)%float = false.
Proof. split; reflexivity. Qed.

(** The end point (1, 0, 0) of an edge of the tetrahedron is within the
    sphere of radius -2 around the origin and not within that of radius 1. *)
Example within_sphere64_negative_radius :
  within_sphere64 (1, 0, 0)%float (0, 0, 0)%float (-2)%float = true /\
  within_sphere64 (1, 0, 0)%float (0, 0, 0)%float 1%float = false.
Proof. split; reflexivity. Qed.

(** The extent of a grid whose coordinates are all 0.5, or all 0, is a zero
    divisor. *)
Example extent64_of_one_value :
  raises_zero_division64 (0.5 - 0.5)%float = true /\
  raises_zero_division64 (0 - 0)%float = true.
Proof. split; reflexivity. Qed.

(** Values 0 and 1, percent = 100, in binary64: the threshold is the
    minimum and the element at the minimum is not selected. *)
Example map_percent64_hundred_exact :
  exists t,
    map_percent64 [0; 1]%float 100 = Ok t /\
    (t =? 0)%float = true /\
    np_gt64 [0; 1]%float t = [false; true].
Proof. eexists. repeat split; reflexivity. Qed.

(** Values 0 and 0.7 (the binary64 number 0x1.6666666666666p-1),
    percent = 100: the product 100 * 0.7 * 0.01 rounds above 0.7, the
    threshold ends below the minimum and every element is selected. *)
Example map_percent64_hundred_rounded :
  exists t,
    map_percent64 [0; 0x1.6666666666666p-1]%float 100 = Ok t /\
    (t <? 0)%float = true /\
    np_gt64 [0; 0x1.6666666666666p-1]%float t = [true; true].
Proof. eexists. repeat split; reflexivity. Qed.

(** Values 0 and 1 with the percent 1e-15 (0x1.203af9ee75616p-50): the
    product rounds away, the threshold is the maximum and nothing is
    selected, although the percent is positive and the values differ. *)
Example map_percent64_tiny_percent :
  exists t,
    map_percent64 [0; 1]%float 0x1.203af9ee75616p-50 = Ok t /\
    np_gt64 [0; 1]%float t = [false; false].
Proof. eexists. split; reflexivity. Qed.

(** A grid of [numpy.float64] coordinates without extent along u: [get_uv]
    returns, with the size 0 and nan for every u. *)
Example get_uv64_degenerate_returns_nan :
  exists size_u size_v uv,
    get_uv64 BendExamples.node_z grid_const_u64 = Ok (size_u, size_v, uv) /\
    (size_u =? 0)%float = true /\
    map (map (fun c => is_nan (fst c))) uv = [[true; true]].
Proof. do 3 eexists. repeat split; reflexivity. Qed.

End Binary64Facts.

(** * Further properties *)

(** ** Sequences, extrema and comprehensions *)

Module MoreFacts.

Import PyFacts ValueEq.

Lemma mapM_length {A B} (f : A -> result B) (xs : list A) (ys : list B) :
  mapM f xs = Ok ys -> length ys = length xs.
Proof.
  revert ys. induction xs as [|x xs IH]; simpl; intros ys H.
  - injection H as <-. reflexivity.
  - destruct (f x) as [y|e]; simpl in H; [|discriminate].
    destruct (mapM f xs) as [ys'|e]; simpl in H; [|discriminate].
    injection H as <-. simpl. f_equal. now apply IH.
Qed.


(** The exception of a comprehension is the exception of its body on one of
    the items. *)
Lemma mapM_Raise_inv {A B} (f : A -> result B) (xs : list A) (e : exn) :
  mapM f xs = Raise e -> exists x, In x xs /\ f x = Raise e.
Proof.
  induction xs as [|x xs IH]; simpl; intro H; [discriminate|].
  destruct (f x) as [y|e'] eqn:Ef; simpl in H.
  - destruct (mapM f xs) as [ys|e'] eqn:Em; simpl in H; [discriminate|].
    injection H as ->. destruct (IH eq_refl) as (x' & Hin & Hx'). eauto.
  - injection H as ->. eauto.
Qed.

Lemma affine_lt (k c x1 y1 x2 y2 : Q) :
  0 < k -> affine k c x1 y1 -> affine k c x2 y2 -> (y1 < y2 <-> x1 < x2).
Proof. unfold affine. intros Hk H1 H2. rewrite H1, H2. split; intro H; nra. Qed.

Lemma affine_Qltb (k c x1 y1 x2 y2 : Q) :
  0 < k -> affine k c x1 y1 -> affine k c x2 y2 -> Qltb y1 y2 = Qltb x1 x2.
Proof.
  intros Hk H1 H2. destruct (Qltb x1 x2) eqn:E.
  - apply Qltb_lt. apply Qltb_lt in E. now apply (affine_lt k c x1 y1 x2 y2).
  - apply Qltb_ge. apply Qltb_ge in E.
    apply Qnot_lt_le. intro H. apply (affine_lt k c x1 y1 x2 y2) in H; auto.
    exact (Qlt_not_le _ _ H E).
Qed.

Lemma affine_min (k c : Q) (xs ys : list Q) (m : Q) :
  0 < k -> Forall2 (affine k c) xs ys -> py_min xs = Ok m ->
  exists m', py_min ys = Ok m' /\ affine k c m m'.
Proof.
  intros Hk H. destruct H as [|x y xs ys Hxy H]; simpl; [discriminate|].
  intro E. injection E as <-. eexists; split; [reflexivity|].
  revert x y Hxy. induction H as [|a b xs ys Hab H IH]; intros x y Hxy; simpl.
  - exact Hxy.
  - rewrite (affine_Qltb k c a b x y Hk Hab Hxy).
    destruct (Qltb a x); now apply IH.
Qed.

Lemma affine_max (k c : Q) (xs ys : list Q) (m : Q) :
  0 < k -> Forall2 (affine k c) xs ys -> py_max xs = Ok m ->
  exists m', py_max ys = Ok m' /\ affine k c m m'.
Proof.
  intros Hk H. destruct H as [|x y xs ys Hxy H]; simpl; [discriminate|].
  intro E. injection E as <-. eexists; split; [reflexivity|].
  revert x y Hxy. induction H as [|a b xs ys Hab H IH]; intros x y Hxy; simpl.
  - exact Hxy.
  - unfold Qgtb. rewrite (affine_Qltb k c x y a b Hk Hxy Hab).
    destruct (Qltb x a); now apply IH.
Qed.

Lemma Forall2_map_both {A B C} (R : B -> C -> Prop) (f : A -> B) (g : A -> C)
    (l : list A) :
  (forall x, In x l -> R (f x) (g x)) -> Forall2 R (map f l) (map g l).
Proof.
  induction l as [|x l IH]; intro H; simpl; constructor.
  - apply H. now left.
  - apply IH. intros; apply H. now right.
Qed.

End MoreFacts.

(** ** Bend object along surface: the rescaling and the batch *)

Module BendMore.

Import BendAlongSurface BendSpec BendExamples ValueEq PyFacts MoreFacts.

(** The two axes of [get_other_axes] are the two that are not the orientation
    axis, the lower one first. *)
Theorem other_axes_complete (self : node) :
  let '(u_index, v_index) := get_other_axes self in
  u_index <> orient_axis self /\ v_index <> orient_axis self /\
  (idx_nat u_index < idx_nat v_index)%nat.
Proof.
  unfold get_other_axes, orient_axis, get_axis_idx.
  destruct (orient_axis_ self); simpl; repeat split; (discriminate || lia).
Qed.

Lemma in_grid {A} (g : grid A) (row : list A) (p : A) :
  In row g -> In p row -> In p (concat g).
Proof. intros Hr Hp. apply in_concat. eauto. Qed.

(** A grid on which [get_uv] returns has an extent along u and along v. *)
Lemma get_uv_ok_inv (self : node) (vertices : grid vec3)
    (r : Q * Q * grid (Q * Q)) :
  get_uv self vertices = Ok r ->
  varies vertices (fst (get_other_axes self)) /\
  varies vertices (snd (get_other_axes self)).
Proof.
  intro H.
  destruct (concat vertices) as [|p0 rest] eqn:Ec.
  { unfold get_uv in H. destruct (get_other_axes self). rewrite Ec in H.
    discriminate H. }
  assert (Hne : concat vertices <> []) by (rewrite Ec; discriminate).
  assert (Hvar : forall k, constant_along vertices k \/ varies vertices k).
  { intro k.
    set (xs := map (fun vertex => item vertex k) (concat vertices)).
    assert (Hxs : xs <> []).
    { unfold xs. rewrite Ec. discriminate. }
    destruct (py_min_ok _ Hxs) as [m Em]. destruct (py_max_ok _ Hxs) as [M EM].
    destruct (Qeq_dec (M - m) 0) as [E0|N0].
    - left. intros p q Hp Hq.
      apply (proj1 (extent_zero_iff _ _ _ Em EM) E0);
        unfold xs; apply in_map_iff; eauto.
    - right.
      pose proof (proj1 (py_max_spec _ _ EM)) as HM.
      pose proof (proj1 (py_min_spec _ _ Em)) as Hm'.
      unfold xs in HM, Hm'.
      apply in_map_iff in HM. destruct HM as (p & Ep & Hp).
      apply in_map_iff in Hm'. destruct Hm' as (q & Eq & Hq).
      exists p, q. repeat split; auto. rewrite Ep, Eq. intro E. apply N0.
      rewrite E. ring. }
  destruct (Hvar (fst (get_other_axes self))) as [Cu|Vu].
  { rewrite BendProofs.get_uv_degenerate in H by auto. discriminate H. }
  destruct (Hvar (snd (get_other_axes self))) as [Cv|Vv].
  { rewrite BendProofs.get_uv_degenerate in H by auto. discriminate H. }
  auto.
Qed.

Lemma unit_interval (x lo hi : Q) :
  lo <= x -> x <= hi -> 0 < hi - lo ->
  0 <= normalized x lo hi /\ normalized x lo hi <= 1.
Proof.
  intros Hlo Hhi Hd. unfold normalized. split.
  - apply BendProofs.ratio_nonneg; lra.
  - apply Qle_shift_div_r; lra.
Qed.

(** Whenever [get_uv] returns, the two sizes are positive and every (u, v)
    it returns lies in the unit square. *)
Theorem get_uv_in_unit_square (self : node) (vertices : grid vec3)
    (size_u size_v : Q) (uv_coords : grid (Q * Q)) :
  get_uv self vertices = Ok (size_u, size_v, uv_coords) ->
  0 < size_u /\ 0 < size_v /\
  forall row uv, In row uv_coords -> In uv row ->
    0 <= fst uv <= 1 /\ 0 <= snd uv <= 1.
Proof.
  intro H. destruct (get_uv_ok_inv _ _ _ H) as [Hu Hv].
  destruct (BendProofs.get_uv_valid self vertices Hu Hv)
    as (min_u & max_u & min_v & max_v & E1 & E2 & E3 & E4 & Hsu & Hsv & Euv).
  rewrite Euv in H. injection H as <- <- <-.
  split; [exact Hsu|]. split; [exact Hsv|].
  intros row uv Hrow Huv.
  apply in_map_iff in Hrow. destruct Hrow as (src_row & <- & Hsrc).
  apply in_map_iff in Huv. destruct Huv as (p & <- & Hp). simpl.
  pose proof (in_grid _ _ _ Hsrc Hp) as Hin.
  split; apply unit_interval; auto.
  - apply (proj2 (py_min_spec _ _ E1)). apply in_map_iff. eauto.
  - apply (proj2 (py_max_spec _ _ E2)). apply in_map_iff. eauto.
  - apply (proj2 (py_min_spec _ _ E3)). apply in_map_iff. eauto.
  - apply (proj2 (py_max_spec _ _ E4)). apply in_map_iff. eauto.
Qed.

Lemma get_uv_in_unit_square_witness :
  exists size_u size_v uv_coords,
    get_uv node_z square_grid = Ok (size_u, size_v, uv_coords) /\
    0 < size_u /\ 0 < size_v /\
    forall row uv, In row uv_coords -> In uv row ->
      0 <= fst uv <= 1 /\ 0 <= snd uv <= 1.
Proof.
  eexists. eexists. eexists. split; [reflexivity|].
  apply (get_uv_in_unit_square node_z square_grid). reflexivity.
Defined.

Lemma point_of_value (vertices : grid vec3) (k : idx3) (x : Q) :
  In x (map (fun vertex => item vertex k) (concat vertices)) ->
  exists row p, In row vertices /\ In p row /\ item p k = x.
Proof.
  intro H. apply in_map_iff in H. destruct H as (p & E & Hp).
  apply in_concat in Hp. destruct Hp as (row & Hrow & Hp). eauto.
Qed.

(** The rescaling is tight: whenever [get_uv] returns, some point has u = 0,
    some has u = 1, some has v = 0 and some has v = 1. *)
Theorem get_uv_reaches_both_ends (self : node) (vertices : grid vec3)
    (size_u size_v : Q) (uv_coords : grid (Q * Q)) :
  get_uv self vertices = Ok (size_u, size_v, uv_coords) ->
  let reached (coord : Q * Q -> Q) (x : Q) :=
    exists row uv, In row uv_coords /\ In uv row /\ coord uv == x in
  reached fst 0 /\ reached fst 1 /\ reached snd 0 /\ reached snd 1.
Proof.
  intros H reached. destruct (get_uv_ok_inv _ _ _ H) as [Hu Hv].
  destruct (BendProofs.get_uv_valid self vertices Hu Hv)
    as (min_u & max_u & min_v & max_v & E1 & E2 & E3 & E4 & Hsu & Hsv & Euv).
  rewrite Euv in H. injection H as <- <- <-.
  assert (Hreach : forall (coord : Q * Q -> Q) k x lo hi goal,
             In x (map (fun vertex => item vertex k) (concat vertices)) ->
             (forall p, coord (normalized (item p (fst (get_other_axes self)))
                                          min_u max_u,
                               normalized (item p (snd (get_other_axes self)))
                                          min_v max_v)
                        = normalized (item p k) lo hi) ->
             normalized x lo hi == goal ->
             reached coord goal).
  { intros coord k x lo hi goal Hx Hcoord Hgoal.
    destruct (point_of_value _ _ _ Hx) as (row & p & Hrow & Hp & Ep).
    eexists. eexists. split; [apply in_map; exact Hrow|].
    split; [apply in_map; exact Hp|].
    rewrite Hcoord, Ep. exact Hgoal. }
  repeat split.
  - apply (Hreach fst (fst (get_other_axes self)) min_u min_u max_u);
      [exact (proj1 (py_min_spec _ _ E1)) | reflexivity |].
    unfold normalized. field. lra.
  - apply (Hreach fst (fst (get_other_axes self)) max_u min_u max_u);
      [exact (proj1 (py_max_spec _ _ E2)) | reflexivity |].
    unfold normalized. field. lra.
  - apply (Hreach snd (snd (get_other_axes self)) min_v min_v max_v);
      [exact (proj1 (py_min_spec _ _ E3)) | reflexivity |].
    unfold normalized. field. lra.
  - apply (Hreach snd (snd (get_other_axes self)) max_v min_v max_v);
      [exact (proj1 (py_max_spec _ _ E4)) | reflexivity |].
    unfold normalized. field. lra.
Qed.

Lemma get_uv_reaches_both_ends_witness :
  exists size_u size_v uv_coords,
    get_uv node_z square_grid = Ok (size_u, size_v, uv_coords) /\
    (exists row uv, In row uv_coords /\ In uv row /\ fst uv == 0) /\
    (exists row uv, In row uv_coords /\ In uv row /\ fst uv == 1) /\
    (exists row uv, In row uv_coords /\ In uv row /\ snd uv == 0) /\
    (exists row uv, In row uv_coords /\ In uv row /\ snd uv == 1).
Proof.
  eexists. eexists. eexists. split; [reflexivity|].
  exact (get_uv_reaches_both_ends node_z square_grid _ _ _ eq_refl).
Defined.

(** A grid without points (no rows, or only empty rows) makes [get_uv] raise
    the [ValueError] of [min] on an empty sequence, and with it the kernel,
    once the spline is built. *)
Theorem get_uv_without_points (self : node) (vertices : grid vec3) :
  concat vertices = [] ->
  let empty_min := mk_exn ValueError "min() arg is an empty sequence" in
  get_uv self vertices = Raise empty_min /\
  forall Spline2D sqrt surface spline,
    build_spline Spline2D self surface = Ok spline ->
    bend Spline2D sqrt self vertices surface = Raise empty_min.
Proof.
  intros He empty_min.
  assert (H : get_uv self vertices = Raise empty_min).
  { unfold get_uv. destruct (get_other_axes self). rewrite He. reflexivity. }
  split; [exact H|].
  intros Spline2D sqrt surface spline Hsp. unfold bend.
  rewrite Hsp. simpl. rewrite H. reflexivity.
Qed.

Lemma get_uv_without_points_witness :
  get_uv node_z [[]; []]
    = Raise (mk_exn ValueError "min() arg is an empty sequence") /\
  bend flat_Spline2D sqrt_id node_z [[]; []] flat_surface
    = Raise (mk_exn ValueError "min() arg is an empty sequence").
Proof.
  destruct (get_uv_without_points node_z [[]; []] eq_refl) as [H1 H2].
  split; [exact H1|].
  exact (H2 flat_Spline2D sqrt_id flat_surface flat_spline eq_refl).
Defined.

(** *** Moving and resizing the source grid *)

Lemma item_similar (k : Q) (t p : vec3) (i : idx3) :
  item (vadd (smul k p) t) i = k * item p i + item t i.
Proof. destruct p as [[x y] z], t as [[tx ty] tz], i; reflexivity. Qed.

Lemma concat_similar (k : Q) (t : vec3) (vertices : grid vec3) :
  concat (similar_grid k t vertices)
  = map (fun p => vadd (smul k p) t) (concat vertices).
Proof. unfold similar_grid. symmetry. apply concat_map. Qed.

Lemma values_similar (k : Q) (t : vec3) (vertices : grid vec3) (i : idx3) :
  Forall2 (affine k (item t i))
    (map (fun vertex => item vertex i) (concat vertices))
    (map (fun vertex => item vertex i) (concat (similar_grid k t vertices))).
Proof.
  rewrite concat_similar, map_map. apply Forall2_map_both.
  intros p _. unfold affine. rewrite item_similar. reflexivity.
Qed.

Lemma varies_similar (k : Q) (t : vec3) (vertices : grid vec3) (i : idx3) :
  0 < k -> varies vertices i -> varies (similar_grid k t vertices) i.
Proof.
  intros Hk (p & q & Hp & Hq & Hpq).
  exists (vadd (smul k p) t), (vadd (smul k q) t).
  rewrite concat_similar.
  split; [now apply (in_map (fun p0 => vadd (smul k p0) t))|].
  split; [now apply (in_map (fun p0 => vadd (smul k p0) t))|].
  rewrite !item_similar. intro E. apply Hpq.
  apply (Qmult_inj_l _ _ k); lra.
Qed.

Lemma normalized_affine (k c x lo hi lo' hi' : Q) :
  0 < k -> 0 < hi - lo -> affine k c lo lo' -> affine k c hi hi' ->
  normalized x lo hi == normalized (k * x + c) lo' hi'.
Proof.
  unfold affine, normalized. intros Hk Hd Hlo Hhi. rewrite Hlo, Hhi.
  field. split; [|lra].
  assert (Hpos : 0 < k * (hi - lo)) by (apply Qmult_lt_0_compat; assumption).
  lra.
Qed.

(** [get_uv] sees the shape of the source grid only: moving the grid and
    resizing it by a positive factor changes no (u, v); the two sizes are
    multiplied by the factor. *)
Theorem get_uv_similar_grid (self : node) (vertices : grid vec3)
    (k : Q) (t : vec3) (size_u size_v : Q) (uv_coords : grid (Q * Q)) :
  0 < k ->
  get_uv self vertices = Ok (size_u, size_v, uv_coords) ->
  exists size_u' size_v' uv_coords',
    get_uv self (similar_grid k t vertices)
      = Ok (size_u', size_v', uv_coords') /\
    size_u' == k * size_u /\ size_v' == k * size_v /\
    Forall2 (Forall2 uv_eq) uv_coords uv_coords'.
Proof.
  intros Hk H. destruct (get_uv_ok_inv _ _ _ H) as [Hu Hv].
  destruct (BendProofs.get_uv_valid self vertices Hu Hv)
    as (min_u & max_u & min_v & max_v & E1 & E2 & E3 & E4 & Hsu & Hsv & Euv).
  rewrite Euv in H. injection H as <- <- <-.
  destruct (BendProofs.get_uv_valid self (similar_grid k t vertices)
              (varies_similar k t _ _ Hk Hu) (varies_similar k t _ _ Hk Hv))
    as (min_u' & max_u' & min_v' & max_v' & E1' & E2' & E3' & E4' & _ & _ & Euv').
  destruct (affine_min _ _ _ _ _ Hk (values_similar k t vertices _) E1)
    as (x & Ex & Amin_u). rewrite E1' in Ex. injection Ex as <-.
  destruct (affine_max _ _ _ _ _ Hk (values_similar k t vertices _) E2)
    as (x & Ex & Amax_u). rewrite E2' in Ex. injection Ex as <-.
  destruct (affine_min _ _ _ _ _ Hk (values_similar k t vertices _) E3)
    as (x & Ex & Amin_v). rewrite E3' in Ex. injection Ex as <-.
  destruct (affine_max _ _ _ _ _ Hk (values_similar k t vertices _) E4)
    as (x & Ex & Amax_v). rewrite E4' in Ex. injection Ex as <-.
  eexists. eexists. eexists. split; [exact Euv'|].
  split; [unfold affine in *; rewrite Amin_u, Amax_u; ring|].
  split; [unfold affine in *; rewrite Amin_v, Amax_v; ring|].
  unfold similar_grid. rewrite map_map. apply Forall2_map_both.
  intros row _. rewrite map_map. apply Forall2_map_both.
  intros p _. split; simpl; rewrite item_similar.
  - now apply normalized_affine.
  - now apply normalized_affine.
Qed.

Lemma get_uv_similar_grid_witness :
  exists size_u' size_v' uv_coords',
    get_uv node_z (similar_grid 3 (5, 7, 9) square_grid)
      = Ok (size_u', size_v', uv_coords') /\
    size_u' == 3 * 2 /\ size_v' == 3 * 4 /\
    Forall2 (Forall2 uv_eq)
      [ [ ((0 - 0) / (2 - 0), (0 - 0) / (4 - 0));
          ((2 - 0) / (2 - 0), (0 - 0) / (4 - 0)) ];
        [ ((0 - 0) / (2 - 0), (4 - 0) / (4 - 0));
          ((2 - 0) / (2 - 0), (4 - 0) / (4 - 0)) ] ]
      uv_coords'.
Proof.
  assert (Hk : 0 < 3) by reflexivity.
  exact (get_uv_similar_grid node_z square_grid 3 (5, 7, 9) _ _ _ Hk eq_refl).
Defined.

(** *** The kernel without preconditions, and the batch *)

Section Kernel.

Variable Spline2D : grid vec3 -> spline_constructor -> metric_t -> result Spline.
Variable sqrt : Q -> Q.

(** What the kernel returns, whenever it returns: the spline that was built,
    the extrema of the source grid, the scale, and the grid of the displaced
    points. *)
Lemma bend_ok_inv (self : node) (vertices surface : grid vec3)
    (out : grid vec3) :
  bend Spline2D sqrt self vertices surface = Ok out ->
  let u_index := fst (get_other_axes self) in
  let v_index := snd (get_other_axes self) in
  exists spline min_u max_u min_v max_v scale,
    build_spline Spline2D self surface = Ok spline /\
    py_min (map (fun vertex => item vertex u_index) (concat vertices))
      = Ok min_u /\
    py_max (map (fun vertex => item vertex u_index) (concat vertices))
      = Ok max_u /\
    py_min (map (fun vertex => item vertex v_index) (concat vertices))
      = Ok min_v /\
    py_max (map (fun vertex => item vertex v_index) (concat vertices))
      = Ok max_v /\
    out = map (map (fun p =>
            displaced spline scale (item p (orient_axis self))
              (normalized (item p u_index) min_u max_u)
              (normalized (item p v_index) min_v max_v)))
          vertices.
Proof.
  intros H u_index v_index. unfold bend in H.
  destruct (build_spline Spline2D self surface) as [spline|e] eqn:Hsp;
    simpl in H; [|discriminate].
  destruct (get_uv self vertices) as [[[size_u size_v] uv]|e] eqn:Huv;
    simpl in H; [|discriminate].
  destruct (scale_z_of sqrt self surface size_u size_v) as [scale|e] eqn:Hsc;
    simpl in H; [|discriminate].
  injection H as <-.
  destruct (get_uv_ok_inv _ _ _ Huv) as [Hu Hv].
  destruct (BendProofs.get_uv_valid self vertices Hu Hv)
    as (min_u & max_u & min_v & max_v & E1 & E2 & E3 & E4 & _ & _ & Euv).
  rewrite Euv in Huv. injection Huv as <- <- <-.
  exists spline, min_u, max_u, min_v, max_v, scale.
  repeat (split; [assumption || reflexivity|]).
  rewrite BendProofs.combine_map_self, map_map.
  apply map_ext. intro row.
  rewrite BendProofs.combine_map_self, map_map. reflexivity.
Qed.


(** A source point with coordinate 0 along the orientation axis is put on the
    spline surface itself, at its (u, v), whatever the scale. *)
Theorem bend_keeps_zero_height_on_surface (self : node)
    (vertices surface : grid vec3) (out : grid vec3) :
  bend Spline2D sqrt self vertices surface = Ok out ->
  exists spline min_u max_u min_v max_v,
    build_spline Spline2D self surface = Ok spline /\
    py_min (map (fun vertex => item vertex (fst (get_other_axes self)))
                (concat vertices)) = Ok min_u /\
    py_max (map (fun vertex => item vertex (fst (get_other_axes self)))
                (concat vertices)) = Ok max_u /\
    py_min (map (fun vertex => item vertex (snd (get_other_axes self)))
                (concat vertices)) = Ok min_v /\
    py_max (map (fun vertex => item vertex (snd (get_other_axes self)))
                (concat vertices)) = Ok max_v /\
    forall i j row p,
      nth_error vertices i = Some row -> nth_error row j = Some p ->
      item p (orient_axis self) == 0 ->
      exists row' q,
        nth_error out i = Some row' /\ nth_error row' j = Some q /\
        veq q (eval spline
                 (normalized (item p (fst (get_other_axes self))) min_u max_u)
                 (normalized (item p (snd (get_other_axes self))) min_v max_v)).
Proof.
  intro Hb.
  destruct (bend_ok_inv _ _ _ _ Hb)
    as (spline & min_u & max_u & min_v & max_v & scale
        & Hsp & E1 & E2 & E3 & E4 & ->).
  exists spline, min_u, max_u, min_v, max_v.
  repeat (split; [assumption|]).
  intros i j row p Hi Hj Hz.
  eexists. eexists. split; [apply map_nth_error; exact Hi|].
  split.
  - apply map_nth_error with (f := fun p => displaced spline scale _ _ _).
    exact Hj.
  - unfold displaced, veq.
    destruct (eval spline _ _) as [[ex ey] ez].
    destruct (normal spline _ _) as [[nx ny] nz].
    simpl. rewrite Hz. repeat split; ring.
Qed.

End Kernel.


(** The 2x2 grid above the unit square, all four points at height 0. *)
Lemma bend_keeps_zero_height_on_surface_witness :
  exists out row q,
    bend flat_Spline2D sqrt_id node_z
         [ [ (0, 0, 0); (2, 0, 0) ]; [ (0, 4, 0); (2, 4, 0) ] ] flat_surface
      = Ok out /\
    nth_error out 1 = Some row /\ nth_error row 1 = Some q /\
    veq q (1, 1, 0).
Proof.
  eexists.
  destruct (bend_keeps_zero_height_on_surface flat_Spline2D sqrt_id node_z
              [ [ (0, 0, 0); (2, 0, 0) ]; [ (0, 4, 0); (2, 4, 0) ] ]
              flat_surface _ eq_refl)
    as (spline & min_u & max_u & min_v & max_v & Hsp & E1 & E2 & E3 & E4 & H).
  injection Hsp as <-. injection E1 as <-. injection E2 as <-.
  injection E3 as <-. injection E4 as <-.
  destruct (H 1%nat 1%nat _ _ eq_refl eq_refl (Qeq_refl 0))
    as (row' & q & Hrow & Hq & Hveq).
  exists row', q. split; [reflexivity|]. split; [exact Hrow|].
  split; [exact Hq|].
  destruct Hveq as (H0 & H1 & H2). repeat split.
  - rewrite H0. reflexivity.
  - rewrite H1. reflexivity.
  - rewrite H2. reflexivity.
Defined.

End BendMore.

(** ** Select solid elements: dispatch, sockets and alignment *)

Module SelectMore.

Import SolidSelect SelectSpec SolidSelectUI ValueEq PyFacts MoreFacts SelectProofs.

(** *** Which exceptions the criteria raise *)

Lemma known_ok {A} (a : A) : known (Ok a).
Proof. intros e H. discriminate H. Qed.

Lemma known_bind {A B} (m : result A) (k : A -> result B) :
  known m -> (forall a, known (k a)) -> known (bind m k).
Proof.
  intros Hm Hk e H. destruct m as [a|e']; simpl in H.
  - now apply (Hk a).
  - injection H as ->. now apply Hm.
Qed.

Lemma known_mapM {A B} (f : A -> result B) (xs : list A) :
  (forall x, known (f x)) -> known (mapM f xs).
Proof.
  intros Hf e H. apply mapM_Raise_inv in H. destruct H as (x & _ & Hx).
  now apply (Hf x).
Qed.

Lemma known_py_max (xs : list Q) : known (py_max xs).
Proof. destruct xs; intros e H; [|discriminate]. now injection H as <-. Qed.

Lemma known_py_min (xs : list Q) : known (py_min xs).
Proof. destruct xs; intros e H; [|discriminate]. now injection H as <-. Qed.

Lemma known_map_percent (values : list Q) (percent : Q) :
  known (map_percent values percent).
Proof.
  unfold map_percent. apply known_bind; [apply known_py_max|]. intro maxv.
  apply known_bind; [apply known_py_min|]. intro minv.
  destruct (Qle_bool maxv minv); apply known_ok.
Qed.

Lemma known_np_dot (points : list vec3) (direction : vec3) :
  known (np_dot points direction).
Proof. destruct points; intros e H; [|discriminate]. now injection H as <-. Qed.

Lemma known_by_side (G : Geom) (points : list vec3) (direction : vec3)
    (percent : Q) :
  known (_by_side G points direction percent).
Proof.
  unfold _by_side. apply known_bind; [apply known_np_dot|]. intro values.
  apply known_bind; [apply known_map_percent|]. intro t. apply known_ok.
Qed.

Lemma known_dict_get {K V} (eq_dec : forall a b : K, {a = b} + {a <> b})
    (d : dict K V) (k : K) :
  known (dict_get eq_dec d k).
Proof.
  induction d as [|[k' v] d IH]; simpl.
  - intros e H. now injection H as <-.
  - destruct (eq_dec k k'); [apply known_ok | exact IH].
Qed.

Lemma known_side_values {A} (get_points : A -> list vec3) (elements : list A)
    (direction : vec3) :
  forall all0 d0, known (side_values get_points elements direction all0 d0).
Proof.
  induction elements as [|x elements IH]; simpl; intros all0 d0.
  - apply known_ok.
  - apply known_bind; [apply known_np_dot|]. intro values. apply IH.
Qed.

Lemma known_elements_by_side {A} (eq_dec : forall a b : A, {a = b} + {a <> b})
    (get_points : A -> list vec3) (partial : bool) (elements : list A)
    (direction : vec3) (percent : Q) :
  known (elements_by_side eq_dec get_points partial elements direction percent).
Proof.
  unfold elements_by_side.
  apply known_bind; [apply known_side_values|]. intros [all_values values_per].
  apply known_bind; [apply known_map_percent|]. intro t.
  apply known_mapM. intro x.
  apply known_bind; [apply known_dict_get|]. intro values. apply known_ok.
Qed.

Lemma known_sphere_condition (center : vec3) (radius : Q)
    (points : list vec3) :
  known (sphere_condition center radius points).
Proof.
  unfold sphere_condition. apply known_bind; [|intro; apply known_ok].
  destruct points; intros e H; [|discriminate]. now injection H as <-.
Qed.

(** *** Dispatch *)

Ltac known_primary :=
  repeat first
    [ apply known_ok
    | apply known_by_side
    | apply known_elements_by_side
    | apply known_map_percent
    | apply known_sphere_condition
    | apply known_mapM; intro
    | apply known_bind; [|intro] ].

(** The criteria [get_available_criteria] offers for the element type are
    exactly those [calc_mask] has a branch for: with one of them [calc_mask]
    never raises its "Unknown criteria" exception, with any other it always
    does. *)
Theorem calc_mask_dispatches_available_criteria (G : Geom) (self : node)
    (s : Solid) (d : socket_data) :
  (In (criteria_type self) (get_available_criteria self) ->
   known (calc_mask_on G self s d)) /\
  (~ In (criteria_type self) (get_available_criteria self) ->
   exists e, calc_mask_on G self s d = Raise e /\ exn_cls e = Exception).
Proof.
  unfold calc_mask_on, calc_mask, get_available_criteria.
  destruct (element_type self) eqn:Et; destruct (criteria_type self) eqn:Ec;
    simpl; split; intro H;
    try (exfalso; intuition discriminate);
    try (eexists; split; reflexivity);
    unfold _verts_by_side, _edges_by_side, _faces_by_side,
      _edges_by_sphere, _edges_by_plane, _edges_by_cylinder,
      _faces_by_sphere, _faces_by_plane, _faces_by_cylinder,
      _edges_by_direction, _faces_by_normal,
      get_edges_by_location_mask, get_faces_by_location_mask,
      plane_condition, cylinder_condition;
    known_primary.
Qed.

Import SelectExamples SelectMoreExamples.

Lemma calc_mask_dispatches_available_criteria_witness :
  known (calc_mask_on G_axis (select EDGES DIRECTION false) tetrahedron
           sockets) /\
  exists e,
    calc_mask_on G_axis (select VERTS NORMAL false) tetrahedron sockets
      = Raise e /\
    exn_cls e = Exception.
Proof.
  split.
  - apply (calc_mask_dispatches_available_criteria G_axis
             (select EDGES DIRECTION false) tetrahedron sockets).
    simpl. auto 10.
  - apply (calc_mask_dispatches_available_criteria G_axis
             (select VERTS NORMAL false) tetrahedron sockets).
    simpl. intuition discriminate.
Defined.

(** *** Sockets *)

(** [calc_mask] reads no socket that [update_sockets] hides: two sets of
    socket data that agree on the sockets shown give the same masks (or the
    same exception). *)
Theorem hidden_sockets_are_not_read (G : Geom) (self : node) (s : Solid)
    (d1 d2 : socket_data) :
  (update_sockets self Direction = false -> direction d1 = direction d2) ->
  (update_sockets self Center = false -> center d1 = center d2) ->
  (update_sockets self Percent = false -> percent d1 = percent d2) ->
  (update_sockets self Radius = false -> radius d1 = radius d2) ->
  (update_sockets self Precision = false -> precision d1 = precision d2) ->
  calc_mask_on G self s d1 = calc_mask_on G self s d2.
Proof.
  unfold update_sockets, calc_mask_on, calc_mask.
  destruct d1 as [dir1 cen1 per1 rad1 pre1], d2 as [dir2 cen2 per2 rad2 pre2].
  simpl.
  destruct (element_type self); destruct (criteria_type self); simpl;
    intros Hdir Hcen Hper Hrad Hpre;
    try rewrite (Hdir eq_refl); try rewrite (Hcen eq_refl);
    try rewrite (Hper eq_refl); try rewrite (Hrad eq_refl);
    try rewrite (Hpre eq_refl); reflexivity.
Qed.

Lemma hidden_sockets_are_not_read_witness :
  calc_mask_on G_axis (select VERTS SIDE false) tetrahedron sockets
  = calc_mask_on G_axis (select VERTS SIDE false) tetrahedron sockets'.
Proof.
  apply (hidden_sockets_are_not_read G_axis (select VERTS SIDE false)
           tetrahedron sockets sockets');
    simpl; intro H; (reflexivity || discriminate H).
Defined.

(** *** Alignment *)

Lemma by_side_length (G : Geom) (points : list vec3) (direction : vec3)
    (percent : Q) (mask : list bool) :
  _by_side G points direction percent = Ok mask ->
  length mask = length points.
Proof.
  unfold _by_side. intro H.
  destruct (np_dot points _) as [values|e] eqn:Ev; simpl in H; [|discriminate].
  destruct (map_percent values percent) as [t|e]; simpl in H; [|discriminate].
  injection H as <-. apply np_dot_inv in Ev. destruct Ev as [_ ->].
  unfold np_gt. now rewrite !length_map.
Qed.

Lemma elements_by_side_length {A}
    (eq_dec : forall a b : A, {a = b} + {a <> b})
    (get_points : A -> list vec3) (partial : bool) (elements : list A)
    (direction : vec3) (percent : Q) (mask : list bool) :
  elements_by_side eq_dec get_points partial elements direction percent
    = Ok mask ->
  length mask = length elements.
Proof.
  unfold elements_by_side. intro H.
  destruct (side_values _ _ _ _ _) as [[allv values_per]|e];
    simpl in H; [|discriminate].
  destruct (map_percent allv percent) as [t|e]; simpl in H; [|discriminate].
  now apply mapM_length in H.
Qed.

Lemma threshold_mask_length (values : list Q) (percent : Q)
    (mask : list bool) :
  (let* threshold := map_percent values percent in
   Ok (np_gt values threshold)) = Ok mask ->
  length mask = length values.
Proof.
  destruct (map_percent values percent) as [t|e]; simpl; [|discriminate].
  intro H. injection H as <-. unfold np_gt. apply length_map.
Qed.

(** Whenever [calc_mask] returns, its three masks are as long as the lists of
    the solid's vertices, edges and faces. *)
Theorem calc_mask_masks_aligned (G : Geom) (self : node) (s : Solid)
    (d : socket_data) (vm em fm : list bool) :
  calc_mask_on G self s d = Ok (vm, em, fm) ->
  length vm = length (Vertexes s) /\
  length em = length (Edges s) /\
  length fm = length (Faces s).
Proof.
  unfold calc_mask_on, calc_mask. intro H.
  destruct (element_type self); destruct (criteria_type self);
    simpl in H; try discriminate H;
    try match type of H with
        | bind ?m _ = _ =>
            let E := fresh "E" in
            destruct m as [mask|] eqn:E; simpl in H; [|discriminate H]
        end;
    injection H as <- <- <-;
    unfold get_edges_by_vertices_mask, get_faces_by_vertices_mask,
      get_vertices_by_edges_mask, get_faces_by_edges_mask,
      get_vertices_by_faces_mask, get_edges_by_faces_mask,
      _verts_by_sphere, _verts_by_plane, _verts_by_cylinder,
      get_vertices_within_range_mask, get_vertices_by_location_mask;
    simpl; rewrite ?length_map; repeat split; try reflexivity;
    first
      [ apply by_side_length in E; now rewrite length_map in E
      | now apply elements_by_side_length in E
      | now apply mapM_length in E
      | apply threshold_mask_length in E; now rewrite length_map in E ].
Qed.

Lemma calc_mask_masks_aligned_witness :
  exists vm em fm,
    calc_mask_on G_axis (select FACES NORMAL false) tetrahedron sockets
      = Ok (vm, em, fm) /\
    length vm = 4%nat /\ length em = 6%nat /\ length fm = 4%nat.
Proof.
  eexists. eexists. eexists. split; [reflexivity|].
  exact (calc_mask_masks_aligned G_axis (select FACES NORMAL false)
           tetrahedron sockets _ _ _ eq_refl).
Defined.

(** *** A category without elements *)

Lemma all_false_app (l1 l2 l3 : list bool) :
  (forall b, In b l1 -> b = false) -> (forall b, In b l2 -> b = false) ->
  (forall b, In b l3 -> b = false) ->
  forall b, In b (l1 ++ l2 ++ l3) -> b = false.
Proof.
  intros H1 H2 H3 b Hb. apply in_app_or in Hb. destruct Hb as [Hb|Hb]; auto.
  apply in_app_or in Hb. destruct Hb; auto.
Qed.

Lemma map_nothing_selected {A B} (incident : A -> B -> bool)
    (elements : list A) :
  forall b, In b (map (fun x => existsb (incident x) []) elements) ->
            b = false.
Proof. intros b Hb. apply in_map_iff in Hb. now destruct Hb as (x & <- & _). Qed.

(** When the solid has no element of the kind selected first: the percentile
    criteria (by side, by normal, by direction) raise a [ValueError], the
    radius criteria (sphere, plane, cylinder) return masks that select
    nothing. *)
Theorem calc_mask_on_empty_category (G : Geom) (self : node) (s : Solid)
    (d : socket_data) :
  primary_count self s = 0%nat ->
  In (criteria_type self) (get_available_criteria self) ->
  if in_set (criteria_type self) [SIDE; NORMAL; DIRECTION] then
    exists e, calc_mask_on G self s d = Raise e /\ exn_cls e = ValueError
  else
    exists vm em fm,
      calc_mask_on G self s d = Ok (vm, em, fm) /\
      forall b, In b (vm ++ em ++ fm) -> b = false.
Proof.
  unfold primary_count, calc_mask_on, calc_mask, get_available_criteria.
  destruct (element_type self); destruct (criteria_type self);
    simpl; intros H0 Hin;
    try (exfalso; intuition discriminate);
    apply length_zero_iff_nil in H0;
    unfold _verts_by_side, _edges_by_side, _faces_by_side,
      _edges_by_direction, _faces_by_normal,
      _verts_by_sphere, _verts_by_plane, _verts_by_cylinder,
      get_vertices_within_range_mask, get_vertices_by_location_mask,
      _edges_by_sphere, _edges_by_plane, _edges_by_cylinder,
      _faces_by_sphere, _faces_by_plane, _faces_by_cylinder,
      get_edges_by_location_mask, get_faces_by_location_mask,
      elements_by_side;
    simpl; rewrite H0; simpl;
    try (eexists; split; reflexivity);
    (eexists; eexists; eexists; split; [reflexivity|]);
    apply all_false_app;
    first [ intros b [] | apply map_nothing_selected ].
Qed.

Lemma calc_mask_on_empty_category_witness :
  (exists e,
      calc_mask_on G_axis (select EDGES SIDE true) nothing sockets = Raise e /\
      exn_cls e = ValueError) /\
  (exists vm em fm,
      calc_mask_on G_axis (select EDGES PLANE true) nothing sockets
        = Ok (vm, em, fm) /\
      forall b, In b (vm ++ em ++ fm) -> b = false).
Proof.
  split.
  - apply (calc_mask_on_empty_category G_axis (select EDGES SIDE true)
             nothing sockets eq_refl).
    simpl. auto.
  - apply (calc_mask_on_empty_category G_axis (select EDGES PLANE true)
             nothing sockets eq_refl).
    simpl. auto.
Defined.

(** *** The percentile threshold *)

(** A larger percent gives a threshold that is not higher. *)
Lemma threshold_antitone (values : list Q) (p1 p2 t1 : Q) :
  p1 <= p2 -> map_percent values p1 = Ok t1 ->
  exists t2, map_percent values p2 = Ok t2 /\ t2 <= t1.
Proof.
  intros Hp H. unfold map_percent in *.
  destruct (py_max values) as [maxv|e] eqn:EM; simpl in *; [|discriminate].
  destruct (py_min values) as [minv|e] eqn:Em; simpl in *; [|discriminate].
  pose proof (extent_nonneg _ _ _ Em EM) as Hd.
  destruct (Qle_bool maxv minv); injection H as <-;
    eexists; split; try reflexivity; [lra|].
  assert (Hm : 0 <= (p2 - p1) * (maxv - minv))
    by (apply Qmult_le_0_compat; lra).
  lra.
Qed.

Lemma np_gt_grows (values : list Q) (t1 t2 : Q) :
  t2 <= t1 -> grows (np_gt values t1) (np_gt values t2).
Proof.
  intro Ht. apply grows_map. intros v _ H.
  apply Qgtb_gt in H. apply Qgtb_gt. eapply Qle_lt_trans; eauto.
Qed.

Lemma threshold_mask_grows (values : list Q) (p1 p2 : Q) (m1 : list bool) :
  p1 <= p2 ->
  (let* threshold := map_percent values p1 in Ok (np_gt values threshold))
    = Ok m1 ->
  exists m2,
    (let* threshold := map_percent values p2 in Ok (np_gt values threshold))
      = Ok m2 /\ grows m1 m2.
Proof.
  intros Hp H.
  destruct (map_percent values p1) as [t1|e] eqn:E1; simpl in H; [|discriminate].
  injection H as <-.
  destruct (threshold_antitone _ _ _ _ Hp E1) as (t2 & -> & Ht). simpl.
  eexists; split; [reflexivity|]. now apply np_gt_grows.
Qed.

Lemma by_side_percent_grows (G : Geom) (points : list vec3) (direction : vec3)
    (p1 p2 : Q) (m1 : list bool) :
  p1 <= p2 ->
  _by_side G points direction p1 = Ok m1 ->
  exists m2, _by_side G points direction p2 = Ok m2 /\ grows m1 m2.
Proof.
  unfold _by_side. intros Hp H.
  destruct (np_dot points _) as [values|e]; simpl in *; [|discriminate].
  now apply threshold_mask_grows with (p1 := p1).
Qed.

Lemma mapM_grows {A} (f1 f2 : A -> result bool) (xs : list A) :
  (forall x, In x xs ->
             forall b1, f1 x = Ok b1 ->
                        exists b2, f2 x = Ok b2 /\ (b1 = true -> b2 = true)) ->
  forall m1, mapM f1 xs = Ok m1 ->
             exists m2, mapM f2 xs = Ok m2 /\ grows m1 m2.
Proof.
  induction xs as [|x xs IH]; simpl; intros Hf m1 H.
  - injection H as <-. exists []. split; [reflexivity | constructor].
  - destruct (f1 x) as [b1|e] eqn:E1; simpl in H; [|discriminate].
    destruct (mapM f1 xs) as [m1'|e]; simpl in H; [|discriminate].
    injection H as <-.
    destruct (Hf x (or_introl eq_refl) _ E1) as (b2 & -> & Hb).
    destruct (IH (fun y Hy => Hf y (or_intror Hy)) _ eq_refl) as (m2 & -> & Hm).
    simpl. eexists; split; [reflexivity|]. now constructor.
Qed.

Lemma elements_by_side_percent_grows {A}
    (eq_dec : forall a b : A, {a = b} + {a <> b})
    (get_points : A -> list vec3) (partial : bool) (elements : list A)
    (direction : vec3) (p1 p2 : Q) (m1 : list bool) :
  p1 <= p2 ->
  elements_by_side eq_dec get_points partial elements direction p1 = Ok m1 ->
  exists m2,
    elements_by_side eq_dec get_points partial elements direction p2 = Ok m2 /\
    grows m1 m2.
Proof.
  unfold elements_by_side. intros Hp H.
  destruct (side_values _ _ _ _ _) as [[allv values_per]|e];
    simpl in *; [|discriminate].
  destruct (map_percent allv p1) as [t1|e] eqn:E1; simpl in H; [|discriminate].
  destruct (threshold_antitone _ _ _ _ Hp E1) as (t2 & -> & Ht). simpl.
  eapply mapM_grows; [|exact H].
  intros x _ b1. simpl.
  destruct (dict_get eq_dec values_per x) as [values|e]; simpl;
    intro Hx; [|discriminate].
  injection Hx as <-. eexists; split; [reflexivity|].
  apply check_grows. now apply np_gt_grows.
Qed.

(** For the percentile criteria (by side, by normal, by direction) and
    percents p1 <= p2, every element that [calc_mask] selects at p1, in the
    primary mask and in the two derived masks, is selected at p2. *)
Theorem masks_grow_with_percent (G : Geom) (self : node) (s : Solid)
    (precision : Q) (direction center : vec3) (p1 p2 radius : Q)
    (vm1 em1 fm1 : list bool) :
  In (criteria_type self) [SIDE; NORMAL; DIRECTION] ->
  p1 <= p2 ->
  calc_mask G self s precision direction center p1 radius
    = Ok (vm1, em1, fm1) ->
  exists vm2 em2 fm2,
    calc_mask G self s precision direction center p2 radius
      = Ok (vm2, em2, fm2) /\
    mask_le vm1 vm2 /\ mask_le em1 em2 /\ mask_le fm1 fm2.
Proof.
  intros Hcrit Hp H. unfold calc_mask in *.
  destruct (element_type self) eqn:Et;
    destruct (criteria_type self) eqn:Ec;
    simpl in Hcrit;
    try (exfalso; intuition discriminate); clear Hcrit;
    try discriminate H;
    unfold _verts_by_side, _edges_by_side, _faces_by_side,
      _edges_by_direction, _faces_by_normal in *;
    cbv beta zeta in *.
  - (* VERTS, SIDE *)
    grow_primary H
      (fun m1 E1 =>
         by_side_percent_grows G
           (map (fun v => (v_X v, v_Y v, v_Z v))
                (Vertexes (solid (new_topology s))))
           direction p1 p2 m1 Hp E1).
  - (* EDGES, SIDE *)
    grow_primary H
      (fun m1 E1 =>
         elements_by_side_percent_grows Edge_eq_dec
           (get_points_by_edge (tessellate G (new_topology s) precision))
           (include_partial self)
           (Edges (solid (tessellate G (new_topology s) precision)))
           direction p1 p2 m1 Hp E1).
  - (* EDGES, DIRECTION *)
    grow_primary H
      (fun m1 E1 =>
         threshold_mask_grows
           (map (fun edge =>
                   Qabs (dot direction
                           (line_direction G
                              (get_points_by_edge
                                 (tessellate G (new_topology s) precision)
                                 edge))))
                (Edges (solid (tessellate G (new_topology s) precision))))
           p1 p2 m1 Hp E1).
  - (* FACES, SIDE *)
    grow_primary H
      (fun m1 E1 =>
         elements_by_side_percent_grows Face_eq_dec
           (get_points_by_face (tessellate G (new_topology s) precision))
           (include_partial self)
           (Faces (solid (tessellate G (new_topology s) precision)))
           direction p1 p2 m1 Hp E1).
  - (* FACES, NORMAL *)
    grow_primary H
      (fun m1 E1 =>
         threshold_mask_grows
           (map (fun face =>
                   dot direction
                     (plane_normal G
                        (get_points_by_face
                           (tessellate G (new_topology s) precision) face)))
                (Faces (solid (tessellate G (new_topology s) precision))))
           p1 p2 m1 Hp E1).
Qed.

Lemma masks_grow_with_percent_witness :
  10 <= 60 /\
  exists vm2 em2 fm2,
    calc_mask G_axis (select FACES SIDE true) tetrahedron (1 # 100)
              up origin 60 1 = Ok (vm2, em2, fm2) /\
    mask_le [true; true; true; true] vm2 /\
    mask_le [true; true; true; true; true; true] em2 /\
    mask_le [false; true; true; true] fm2.
Proof.
  assert (Hp : 10 <= 60) by (vm_compute; discriminate).
  split; [exact Hp|].
  apply (masks_grow_with_percent G_axis (select FACES SIDE true) tetrahedron
           (1 # 100) up origin 10 60 1).
  - simpl. auto.
  - exact Hp.
  - reflexivity.
Defined.

(** *** When the percentile criteria select something *)

(** No value passes the threshold of [map_percent] unless the percent is
    positive and the values are not all the same: a percent of 0 or below
    subtracts nothing from the largest value, and equal values make
    [map_percent] return that value itself. *)
Theorem nothing_passes_unless_positive_percent (values : list Q)
    (percent t : Q) :
  map_percent values percent = Ok t ->
  In true (np_gt values t) ->
  0 < percent /\ exists x y, In x values /\ In y values /\ x < y.
Proof.
  intros H Hsome.
  destruct (map_percent_inv _ _ _ H)
    as (minv & maxv & Em & EM & Hle & Hcase).
  destruct (py_min_spec _ _ Em) as [Hmin_in Hmin].
  destruct (py_max_spec _ _ EM) as [Hmax_in Hmax].
  unfold np_gt in Hsome. apply in_map_iff in Hsome.
  destruct Hsome as (v & Hv & Hin). apply Qgtb_gt in Hv.
  specialize (Hmax _ Hin).
  destruct Hcase as [[Hc ->]|[Hlt ->]]; [lra|].
  split; [|eauto].
  apply Qnot_le_lt. intro Hp.
  assert (Hm : 0 <= (- percent) * (maxv - minv))
    by (apply Qmult_le_0_compat; lra).
  lra.
Qed.

Lemma nothing_passes_unless_positive_percent_witness :
  0 < 25 /\ exists x y, In x [3; 1; 2] /\ In y [3; 1; 2] /\ x < y.
Proof.
  apply (nothing_passes_unless_positive_percent [3; 1; 2] 25 _ eq_refl).
  left. reflexivity.
Defined.

(** *** Strict and partial selection by side *)

Lemma all_any_nonempty (bs : list bool) :
  bs <> [] -> all bs = true -> any bs = true.
Proof.
  destruct bs as [|b bs]; [congruence|]. intros _. unfold all, any. simpl.
  rewrite andb_true_iff. intros [-> _]. reflexivity.
Qed.

Lemma elements_by_side_strict_partial {A}
    (eq_dec : forall a b : A, {a = b} + {a <> b})
    (get_points : A -> list vec3) (elements : list A)
    (direction : vec3) (percent : Q) (m1 : list bool) :
  elements_by_side eq_dec get_points false elements direction percent = Ok m1 ->
  exists m2,
    elements_by_side eq_dec get_points true elements direction percent = Ok m2 /\
    grows m1 m2.
Proof.
  unfold elements_by_side. intro H.
  destruct (side_values get_points elements direction [] [])
    as [[allv values_per]|e] eqn:Esv; simpl in *; [|discriminate].
  destruct (side_values_spec _ eq_dec _ _ _ _ _ _ _ Esv) as (_ & Hin & _).
  destruct (map_percent allv percent) as [t|e]; simpl in *; [|discriminate].
  eapply mapM_grows; [|exact H].
  intros x Hx b1. simpl. destruct (Hin x Hx) as [Hne ->]. simpl.
  intro E. injection E as <-. eexists; split; [reflexivity|].
  apply all_any_nonempty. unfold np_gt, projections.
  destruct (get_points x); [congruence | discriminate].
Qed.

(** Whatever the strict "by side" selection of edges or of faces selects, the
    partial one selects too: every element contributes at least one value,
    so a threshold passed by all of them is passed by one. *)
Theorem strict_side_selection_within_partial (self1 self2 : node)
    (topo : SvSolidTopology) (direction : vec3) (percent : Q) :
  include_partial self1 = false -> include_partial self2 = true ->
  (forall m1, _edges_by_side self1 topo direction percent = Ok m1 ->
     exists m2, _edges_by_side self2 topo direction percent = Ok m2 /\
                mask_le m1 m2) /\
  (forall m1, _faces_by_side self1 topo direction percent = Ok m1 ->
     exists m2, _faces_by_side self2 topo direction percent = Ok m2 /\
                mask_le m1 m2).
Proof.
  unfold _edges_by_side, _faces_by_side. intros -> ->.
  split; intros m1 H;
    destruct (elements_by_side_strict_partial _ _ _ _ _ _ H) as (m2 & E & Hg);
    exists m2; (split; [exact E | now apply grows_mask_le]).
Qed.

Lemma strict_side_selection_within_partial_witness :
  exists m2,
    _faces_by_side (select FACES SIDE true) tetra_topo up 100 = Ok m2 /\
    mask_le [false; false; false; false] m2.
Proof.
  exact (proj2 (strict_side_selection_within_partial
                  (select FACES SIDE false) (select FACES SIDE true)
                  tetra_topo up 100 eq_refl eq_refl)
               [false; false; false; false] eq_refl).
Defined.

End SelectMore.

(** ** Vector Math: list matching and the arity of the function *)

Module MathMore.

Import VectorMath VectorMathSpec VectorMathExamples PyFacts MoreFacts MathProofs.

Lemma py_len_of_iter (l : pyval) (items : list pyval) :
  py_iter l = Ok items -> py_len l = Ok (length items).
Proof. destruct l; simpl; intro H; try discriminate; now injection H as ->. Qed.

Lemma getitem_last_ok (l : pyval) (items : list pyval) :
  py_iter l = Ok items -> items <> [] ->
  getitem_last l = Ok (last items PNone).
Proof.
  intros H Hne. unfold getitem_last. rewrite H. simpl.
  destruct (exists_last Hne) as (front & x & ->).
  rewrite rev_unit, last_last. reflexivity.
Qed.

Lemma getitem_last_empty (l : pyval) :
  py_iter l = Ok [] -> getitem_last l = Raise index_error.
Proof. intro H. unfold getitem_last. rewrite H. reflexivity. Qed.

(** The fill value is the last item of the shorter list, so there is none
    when one of the lists is empty, whatever the other holds. *)
Lemma zipped_empty (l1 l2 : pyval) (items1 items2 : list pyval) :
  py_iter l1 = Ok items1 -> py_iter l2 = Ok items2 ->
  items1 = [] \/ items2 = [] ->
  zipped l1 l2 = Raise index_error.
Proof.
  intros H1 H2 He. unfold zipped.
  rewrite (py_len_of_iter _ _ H1), (py_len_of_iter _ _ H2). simpl.
  destruct items1 as [|u items1].
  - simpl.
    replace (length items2 <? 0)%nat with false
      by (symmetry; apply Nat.ltb_ge; lia).
    rewrite (getitem_last_empty _ H1). reflexivity.
  - destruct He as [He | ->]; [discriminate|]. simpl.
    rewrite (getitem_last_empty _ H2). reflexivity.
Qed.

Lemma zip_longest_left {A} (l : list A) (fl : A) :
  map (fun v => (fl, v)) l = combine (repeat fl (length l)) l.
Proof. induction l as [|v l IH]; simpl; [reflexivity | now rewrite IH]. Qed.

Lemma zip_longest_right {A} (l : list A) (fl : A) :
  map (fun u => (u, fl)) l = combine l (repeat fl (length l)).
Proof. induction l as [|u l IH]; simpl; [reflexivity | now rewrite IH]. Qed.

(** [zip_longest] pairs the two lists after the shorter one has been filled
    up to the length of the longer. *)
Lemma zip_longest_combine {A} (l1 l2 : list A) (fl : A) :
  zip_longest l1 l2 fl =
  combine (l1 ++ repeat fl (length l2 - length l1))
          (l2 ++ repeat fl (length l1 - length l2)).
Proof.
  revert l2. induction l1 as [|u l1 IH]; intros [|v l2]; simpl.
  - reflexivity.
  - rewrite app_nil_r. f_equal. apply zip_longest_left.
  - rewrite app_nil_r. f_equal. apply zip_longest_right.
  - f_equal. apply IH.
Qed.

Lemma zipped_fills (l1 l2 : pyval) (items1 items2 : list pyval) :
  py_iter l1 = Ok items1 -> py_iter l2 = Ok items2 ->
  items1 <> [] -> items2 <> [] ->
  let n := Nat.max (length items1) (length items2) in
  let fill := fun items : list pyval =>
    items ++ repeat (last items PNone) (n - length items) in
  zipped l1 l2 = Ok (combine (fill items1) (fill items2)).
Proof.
  intros H1 H2 Hne1 Hne2 n fill. unfold zipped.
  rewrite (py_len_of_iter _ _ H1), (py_len_of_iter _ _ H2). simpl.
  destruct (length items2 <? length items1)%nat eqn:Hlt.
  - apply Nat.ltb_lt in Hlt.
    rewrite (getitem_last_ok _ _ H2 Hne2), H1, H2. simpl.
    rewrite zip_longest_combine. unfold fill, n.
    replace (length items2 - length items1)%nat with 0%nat by lia.
    replace (Nat.max (length items1) (length items2) - length items1)%nat
      with 0%nat by lia.
    replace (Nat.max (length items1) (length items2) - length items2)%nat
      with (length items1 - length items2)%nat by lia.
    reflexivity.
  - apply Nat.ltb_ge in Hlt.
    rewrite (getitem_last_ok _ _ H1 Hne1), H1, H2. simpl.
    rewrite zip_longest_combine. unfold fill, n.
    replace (length items1 - length items2)%nat with 0%nat by lia.
    replace (Nat.max (length items1) (length items2) - length items2)%nat
      with 0%nat by lia.
    replace (Nat.max (length items1) (length items2) - length items1)%nat
      with (length items2 - length items1)%nat by lia.
    reflexivity.
Qed.

(** [recurse_fxy] on two lists of which one is empty raises [IndexError]
    while it looks for the fill value, also when both are empty and nothing
    would have to be filled. *)
Theorem recurse_fxy_empty_list_raises (limit : nat) (l1 l2 : pyval)
    (f : pyfun) (leve : Z) (items1 items2 : list pyval) :
  py_iter l1 = Ok items1 -> py_iter l2 = Ok items2 ->
  items1 = [] \/ items2 = [] ->
  recurse_fxy (S limit) l1 l2 f leve = Raise index_error.
Proof.
  intros H1 H2 He.
  rewrite recurse_fxy_step, (zipped_empty _ _ _ _ H1 H2 He). reflexivity.
Qed.

Lemma recurse_fxy_empty_list_raises_witness :
  recurse_fxy 1000 (PList []) (PList [])
              (func_dict mathutils_absent BendExamples.sqrt_id ADD) 1
    = Raise index_error.
Proof.
  apply (recurse_fxy_empty_list_raises 999 (PList []) (PList []) _ 1 [] []);
    [reflexivity | reflexivity | left; reflexivity].
Defined.

(** The list matching of [recurse_fxy]: on two lists that are not empty it
    pairs the items after filling the shorter list with its own last item up
    to the length of the longer one, and applies the function, or itself one
    level down, to each pair in order. *)
Theorem recurse_fxy_repeats_last_item (limit : nat) (l1 l2 : pyval)
    (f : pyfun) (leve : Z) (items1 items2 : list pyval) :
  py_iter l1 = Ok items1 -> py_iter l2 = Ok items2 ->
  items1 <> [] -> items2 <> [] ->
  let n := Nat.max (length items1) (length items2) in
  let fill := fun items : list pyval =>
    items ++ repeat (last items PNone) (n - length items) in
  let pairs := combine (fill items1) (fill items2) in
  recurse_fxy (S limit) l1 l2 f leve =
  (let* res :=
     if (leve =? 1)%Z then mapM (fun '(u, v) => call2 f u v) pairs
     else mapM (fun '(u, v) => recurse_fxy limit u v f (leve - 1)%Z) pairs in
   Ok (PList res)).
Proof.
  intros H1 H2 Hne1 Hne2 n fill pairs.
  rewrite recurse_fxy_step, (zipped_fills _ _ _ _ H1 H2 Hne1 Hne2).
  reflexivity.
Qed.

Lemma recurse_fxy_repeats_last_item_witness :
  recurse_fxy 1000
    (PList [PTuple [PFloat 1; PFloat 2; PFloat 3];
            PTuple [PFloat 4; PFloat 5; PFloat 6];
            PTuple [PFloat 7; PFloat 8; PFloat 9]])
    (PList [PFloat 2; PFloat 3])
    (func_dict mathutils_absent BendExamples.sqrt_id SCALAR) 1
  = (let* res :=
       mapM (fun '(u, v) =>
               call2 (func_dict mathutils_absent BendExamples.sqrt_id SCALAR)
                     u v)
            [(PTuple [PFloat 1; PFloat 2; PFloat 3], PFloat 2);
             (PTuple [PFloat 4; PFloat 5; PFloat 6], PFloat 3);
             (PTuple [PFloat 7; PFloat 8; PFloat 9], PFloat 3)] in
     Ok (PList res)).
Proof.
  apply (recurse_fxy_repeats_last_item 999
           (PList [PTuple [PFloat 1; PFloat 2; PFloat 3];
                   PTuple [PFloat 4; PFloat 5; PFloat 6];
                   PTuple [PFloat 7; PFloat 8; PFloat 9]])
           (PList [PFloat 2; PFloat 3]) _ 1 _ _ eq_refl eq_refl);
    discriminate.
Defined.

Lemma combine_fill_length {A} (l1 l2 : list A) (x y : A) :
  let n := Nat.max (length l1) (length l2) in
  length (combine (l1 ++ repeat x (n - length l1))
                  (l2 ++ repeat y (n - length l2))) = n.
Proof.
  intro n. rewrite length_combine, !length_app, !repeat_length.
  unfold n. lia.
Qed.

(** What [recurse_fxy] returns is a list as long as the longer of its two
    arguments, whether these are lists or tuples. *)
Theorem recurse_fxy_length (limit : nat) (l1 l2 : pyval) (f : pyfun)
    (leve : Z) (items1 items2 : list pyval) (r : pyval) :
  py_iter l1 = Ok items1 -> py_iter l2 = Ok items2 ->
  recurse_fxy limit l1 l2 f leve = Ok r ->
  exists res,
    r = PList res /\
    length res = Nat.max (length items1) (length items2).
Proof.
  intros H1 H2 H.
  destruct limit as [|limit]; [discriminate H|].
  destruct items1 as [|u items1].
  { rewrite (recurse_fxy_step limit), (zipped_empty _ _ _ _ H1 H2) in H
      by (now left). discriminate H. }
  destruct items2 as [|v items2].
  { rewrite (recurse_fxy_step limit), (zipped_empty _ _ _ _ H1 H2) in H
      by (now right). discriminate H. }
  assert (Hne1 : u :: items1 <> []) by discriminate.
  assert (Hne2 : v :: items2 <> []) by discriminate.
  pose proof (zipped_fills _ _ _ _ H1 H2 Hne1 Hne2) as Hz.
  pose proof (combine_fill_length (u :: items1) (v :: items2)
                (last (u :: items1) PNone) (last (v :: items2) PNone)) as Hlen.
  cbv zeta in Hz, Hlen.
  set (pairs := combine _ _) in Hz, Hlen. clearbody pairs.
  rewrite recurse_fxy_step, Hz in H.
  change (bind (Ok pairs) ?k) with (k pairs) in H. cbv beta in H.
  destruct (leve =? 1)%Z;
    match type of H with
    | bind ?m _ = _ => destruct m as [res|e] eqn:Em; simpl in H; [|discriminate]
    end;
    injection H as <-; exists res; (split; [reflexivity|]);
    apply mapM_length in Em; rewrite Em; exact Hlen.
Qed.

Lemma recurse_fxy_length_witness :
  exists res,
    PList [PTuple [PFloat (1 * 2); PFloat (2 * 2); PFloat (3 * 2)];
           PTuple [PFloat (4 * 3); PFloat (5 * 3); PFloat (6 * 3)];
           PTuple [PFloat (7 * 3); PFloat (8 * 3); PFloat (9 * 3)]]
      = PList res /\
    length res = Nat.max 3 2.
Proof.
  exact (recurse_fxy_length 1000
           (PList [PTuple [PFloat 1; PFloat 2; PFloat 3];
                   PTuple [PFloat 4; PFloat 5; PFloat 6];
                   PTuple [PFloat 7; PFloat 8; PFloat 9]])
           (PList [PFloat 2; PFloat 3])
           (func_dict mathutils_absent BendExamples.sqrt_id SCALAR) 1
           _ _ _ eq_refl eq_refl eq_refl).
Defined.

(** *** A function of one parameter on the two-input path *)

Lemma zipped_nonempty (l1 l2 : pyval) (pairs : list (pyval * pyval)) :
  zipped l1 l2 = Ok pairs -> pairs <> [].
Proof.
  intro H.
  destruct (py_iter l1) as [items1|e] eqn:H1.
  2:{ unfold zipped in H. destruct l1; simpl in *; discriminate. }
  destruct (py_iter l2) as [items2|e] eqn:H2.
  2:{ unfold zipped in H. destruct l1; try discriminate;
      destruct l2; simpl in *; discriminate. }
  destruct items1 as [|u items1].
  { rewrite (zipped_empty _ _ _ _ H1 H2) in H by (now left). discriminate. }
  destruct items2 as [|v items2].
  { rewrite (zipped_empty _ _ _ _ H1 H2) in H by (now right). discriminate. }
  rewrite (zipped_fills _ _ _ _ H1 H2) in H by discriminate.
  injection H as <-. simpl. discriminate.
Qed.

(** [recurse_fxy] calls its function with two arguments; with a function of
    one parameter it never returns: the first pair it reaches, at whatever
    depth, raises, unless the lists themselves did before. *)
Lemma recurse_fxy_one_parameter (g : pyval -> result pyval) (limit : nat) :
  forall (l1 l2 : pyval) (leve : Z),
    is_ok (recurse_fxy limit l1 l2 (Lambda1 g) leve) = false.
Proof.
  induction limit as [|limit IH]; intros l1 l2 leve; [reflexivity|].
  rewrite recurse_fxy_step.
  destruct (zipped l1 l2) as [pairs|e] eqn:Hz; [|reflexivity].
  pose proof (zipped_nonempty _ _ _ Hz) as Hne.
  destruct pairs as [|[u v] rest]; [congruence|]. simpl.
  destruct (leve =? 1)%Z; simpl; [reflexivity|].
  specialize (IH u v (leve - 1)%Z).
  destruct (recurse_fxy limit u v (Lambda1 g) (leve - 1)); [discriminate|].
  reflexivity.
Qed.

Section Node.

Variable mathutils : op -> pyfun.
Variable sqrt : Q -> Q.
Variable levelsOflist : pyval -> result Z.
Variable recursion_limit : nat.

(** With two input sockets and an operation whose function takes one
    parameter, [process] writes the empty result [[]] whatever the inputs
    hold, as long as [levelsOflist] returns. *)
Theorem one_parameter_function_on_two_inputs (self : node) (a b : pyval)
    (g : pyval -> result pyval) (leve : Z) :
  output_linked self = true ->
  inputs self = [Ok a; Ok b] ->
  func_dict mathutils sqrt (current_op self) = Lambda1 g ->
  levelsOflist a = Ok leve ->
  process mathutils sqrt levelsOflist recursion_limit self
    = Ok (Some (PList [PList []])).
Proof.
  intros Hlinked Hin Hf Hlev. unfold process, sv_get.
  rewrite Hlinked, Hin. simpl. rewrite Hlev. simpl. rewrite Hf.
  rewrite try_except_pass_not_ok; [reflexivity|].
  apply recurse_fxy_one_parameter.
Qed.

(** An exception leaves [process] only before the recursion starts, and
    only with the output linked.  It is the [IndexError] of [inputs[0]] on a
    node without input sockets, or what [sv_get] raised on the first socket
    (a socket without data), or what it raised on the second socket of a node
    with exactly two, or what [levelsOflist] raised on the data of the first
    socket. *)
Theorem process_raises_only_before_recursion (self : node) (e : exn) :
  process mathutils sqrt levelsOflist recursion_limit self = Raise e ->
  output_linked self = true /\
  ((inputs self = [] /\ e = index_error) \/
   (exists rest, inputs self = Raise e :: rest) \/
   (exists a, inputs self = [Ok a; Raise e]) \/
   (exists a rest,
      inputs self = Ok a :: rest /\
      (forall e', rest <> [Raise e']) /\
      levelsOflist a = Raise e)).
Proof.
  unfold process, sv_get.
  destruct (output_linked self); simpl; [|discriminate].
  destruct (inputs self) as [|[a|e1] rest]; simpl.
  - intro H. injection H as <-. split; [reflexivity|]. now left.
  - intro H. split; [reflexivity|].
    destruct rest as [|[b|e2] [|c rest]]; simpl in H.
    + do 3 right. exists a, []. split; [reflexivity|].
      split; [intros e' E; discriminate E|].
      destruct (levelsOflist a); simpl in H; [discriminate | congruence].
    + do 3 right. exists a, [Ok b]. split; [reflexivity|].
      split; [intros e' E; discriminate E|].
      destruct (levelsOflist a); simpl in H; [discriminate | congruence].
    + do 3 right. exists a, (Ok b :: c :: rest). split; [reflexivity|].
      split; [intros e' E; discriminate E|].
      destruct (levelsOflist a); simpl in H; [discriminate | congruence].
    + injection H as <-. right. right. left. eauto.
    + do 3 right. exists a, (Raise e2 :: c :: rest). split; [reflexivity|].
      split; [intros e' E; discriminate E|].
      destruct (levelsOflist a); simpl in H; [discriminate | congruence].
  - intro H. injection H as <-. split; [reflexivity|]. right. left. eauto.
Qed.

End Node.

Lemma one_parameter_function_on_two_inputs_witness :
  process mathutils_absent BendExamples.sqrt_id levels_three 1000
          {| current_op := LEN; inputs := [Ok one_vector; Ok one_vector];
             output_linked := true |}
    = Ok (Some (PList [PList []])).
Proof.
  exact (one_parameter_function_on_two_inputs mathutils_absent
           BendExamples.sqrt_id levels_three 1000
           {| current_op := LEN; inputs := [Ok one_vector; Ok one_vector];
              output_linked := true |}
           one_vector one_vector _ 3%Z eq_refl eq_refl eq_refl eq_refl).
Defined.

(** A first socket without data: [sv_get] raises outside the [try]. *)
Lemma process_raises_only_before_recursion_witness :
  let self :=
    {| current_op := ADD; inputs := [Raise no_data; Ok one_vector];
       output_linked := true |} in
  process mathutils_absent BendExamples.sqrt_id levels_three 1000 self
    = Raise no_data /\
  output_linked self = true /\
  ((inputs self = [] /\ no_data = index_error) \/
   (exists rest, inputs self = Raise no_data :: rest) \/
   (exists a, inputs self = [Ok a; Raise no_data]) \/
   (exists a rest,
      inputs self = Ok a :: rest /\
      (forall e', rest <> [Raise e']) /\
      levels_three a = Raise no_data)).
Proof.
  intro self. split; [reflexivity|].
  exact (process_raises_only_before_recursion mathutils_absent
           BendExamples.sqrt_id levels_three 1000 self no_data eq_refl).
Defined.

End MathMore.

(** ** Node groups: the collected links and the placement *)

Module GroupProofs.

Import GroupTools GroupSpec GroupExamples PyFacts MoreFacts.

Section Iteration.

Variable host : Host.
Variable iteration : list Node -> list Node.
Hypothesis iteration_permutes : forall l, Permutation (iteration l) l.

Lemma in_set_iff (ng : NodeTree) (n : Node) :
  In n (iteration (nodup Node_eq_dec (filter select (nodes ng)))) <->
  selected_in ng n.
Proof.
  unfold selected_in. rewrite <- filter_In.
  rewrite <- (nodup_In Node_eq_dec (filter select (nodes ng)) n).
  split; apply Permutation_in;
    [|apply Permutation_sym]; apply iteration_permutes.
Qed.

Lemma in_nodes_iff (ng : NodeTree) (n : Node) :
  in_nodes n (iteration (nodup Node_eq_dec (filter select (nodes ng)))) = true
  <-> selected_in ng n.
Proof.
  unfold in_nodes. rewrite <- in_set_iff.
  destruct (in_dec Node_eq_dec n _); split; auto; discriminate.
Qed.

Lemma py_len_pos {A} (xs : list A) : xs <> [] -> 0 < py_len xs.
Proof.
  destruct xs as [|x xs]; [congruence|]. intros _.
  unfold py_len. simpl length. rewrite Nat2Z.inj_succ.
  unfold Qlt. simpl. lia.
Qed.

Lemma py_len_cons {A} (x : A) (xs : list A) :
  py_len (x :: xs) == py_len xs + 1.
Proof.
  unfold py_len. simpl length. rewrite Nat2Z.inj_succ.
  unfold Z.succ. rewrite inject_Z_plus. reflexivity.
Qed.

Lemma fold_sum_bounds (lo hi : Q) (xs : list Q) :
  (forall x, In x xs -> lo <= x /\ x <= hi) ->
  forall a,
    a + py_len xs * lo <= fold_left Qplus xs a /\
    fold_left Qplus xs a <= a + py_len xs * hi.
Proof.
  induction xs as [|x xs IH]; intros Hb a.
  - unfold py_len. simpl. split; ring_simplify; apply Qle_refl.
  - destruct (Hb x (or_introl eq_refl)) as [Hlo Hhi].
    destruct (IH (fun y Hy => Hb y (or_intror Hy)) (a + x)) as [IHlo IHhi].
    simpl fold_left. rewrite py_len_cons. split; nra.
Qed.

(** The mean of a non-empty list lies between two bounds of its items. *)
Lemma mean_bounds (lo hi : Q) (xs : list Q) :
  xs <> [] -> (forall x, In x xs -> lo <= x /\ x <= hi) ->
  exists mean,
    py_div (py_sum xs) (py_len xs) = Ok mean /\ lo <= mean /\ mean <= hi.
Proof.
  intros Hne Hb. pose proof (py_len_pos xs Hne) as Hpos.
  rewrite py_div_ok by lra. eexists; split; [reflexivity|].
  destruct (fold_sum_bounds lo hi xs Hb 0) as [Hlo Hhi].
  fold (py_sum xs) in Hlo, Hhi. split.
  - apply Qle_shift_div_l; [exact Hpos|]. nra.
  - apply Qle_shift_div_r; [exact Hpos|]. nra.
Qed.

Lemma collect_data_inv (ng : NodeTree) (c : collected) :
  collect_data host iteration ng = Ok (Some c) ->
  let nodes_ := iteration (nodup Node_eq_dec (filter select (nodes ng))) in
  let locx := map (fun n => fst (location n)) nodes_ in
  exists locy min_x max_x mean_x,
    nodes_ <> [] /\
    py_div (py_sum (map (fun n => snd (location n)) nodes_)) (py_len nodes_)
      = Ok locy /\
    py_min locx = Ok min_x /\ py_max locx = Ok max_x /\
    py_div (py_sum locx) (py_len nodes_) = Ok mean_x /\
    c = {| out_links := filter (test_out nodes_) (links ng);
           in_links := filter (test_in nodes_) (links ng);
           group_in_location := (min_x - 300, locy);
           group_out_location := (max_x + 300, locy);
           group_node_location := (mean_x, locy) |}.
Proof.
  intros H nodes_ locx. unfold collect_data in H.
  destruct (freeze host) as [[]|e]; simpl in H; [|discriminate].
  fold nodes_ in H. fold locx in H. clearbody locx. clearbody nodes_.
  destruct nodes_ as [|n0 rest].
  { destruct (report host _ _); discriminate. }
  repeat match type of H with
         | bind ?m _ = _ =>
             let E := fresh "E" in
             destruct m eqn:E; simpl in H; [|discriminate]
         end.
  injection H as <-. do 4 eexists.
  repeat split; try reflexivity; try eassumption. discriminate.
Qed.

(** The collecting part of [execute] raises nothing of its own: neither the
    divisions by the number of selected nodes nor [min] and [max] can fail.
    Whatever it raises comes from [ng.freeze], from the host's [report],
    which is called with the type ['CANCELLED'] when no node of the tree is
    selected, or from one of the three [ng.nodes.new] when one is. *)
Theorem collect_data_raises_only_from_host (ng : NodeTree) (e : exn) :
  collect_data host iteration ng = Raise e ->
  freeze host = Raise e \/
  ((forall n, In n (nodes ng) -> select n = false) /\
   report host ["CANCELLED"%string] "No nodes selected"%string = Raise e) \/
  ((exists n, selected_in ng n) /\
   exists type,
     In type ["SvGroupInputsNode"; "SvGroupOutputsNode"; "SvGroupNode"]%string
     /\ nodes_new host type = Raise e).
Proof.
  unfold collect_data.
  destruct (freeze host) as [[]|e0]; simpl;
    [|intro H; injection H as <-; now left].
  pose proof (in_set_iff ng) as Hset.
  remember (iteration (nodup Node_eq_dec (filter select (nodes ng))))
    as nodes_ eqn:En. clear En.
  destruct nodes_ as [|n0 rest].
  - intro H. right. left. split.
    + intros n Hn. destruct (select n) eqn:Es; [|reflexivity].
      exfalso. apply (proj2 (Hset n)). now split.
    + destruct (report host _ _) as [[]|e0]; simpl in H;
        [discriminate | congruence].
  - lazy beta iota zeta. intro H. right. right. split.
    { exists n0. apply Hset. now left. }
    assert (Hne : n0 :: rest <> []) by discriminate.
    assert (Hx : map (fun n => fst (location n)) (n0 :: rest) <> [])
      by discriminate.
    pose proof (py_len_pos (n0 :: rest) Hne) as Hpos.
    remember (n0 :: rest) as ns eqn:Ens. clear Ens.
    rewrite py_div_ok in H by lra.
    destruct (py_min_ok _ Hx) as [min_x Emin].
    destruct (py_max_ok _ Hx) as [max_x Emax].
    rewrite Emin, Emax in H.
    rewrite (py_div_ok (py_sum _)) in H by lra.
    simpl in H.
    destruct (nodes_new host "SvGroupInputsNode") as [[]|e1] eqn:E1;
      simpl in H; [|injection H as <-; eexists; split; [|exact E1]; simpl; auto].
    destruct (nodes_new host "SvGroupOutputsNode") as [[]|e2] eqn:E2;
      simpl in H; [|injection H as <-; eexists; split; [|exact E2]; simpl; auto].
    destruct (nodes_new host "SvGroupNode") as [[]|e3] eqn:E3;
      simpl in H; [|injection H as <-; eexists; split; [|exact E3]; simpl; auto].
    discriminate H.
Qed.

(** The links collected for relinking are the links of the tree that cross
    the border of the selection: [in_links] those that enter it, [out_links]
    those that leave it, and no link is in both. *)
Theorem collected_links_cross_the_selection (ng : NodeTree) (c : collected) :
  collect_data host iteration ng = Ok (Some c) ->
  forall l,
    (In l (in_links c) <->
     In l (links ng) /\
     selected_in ng (to_node l) /\ ~ selected_in ng (from_node l)) /\
    (In l (out_links c) <->
     In l (links ng) /\
     selected_in ng (from_node l) /\ ~ selected_in ng (to_node l)) /\
    ~ (In l (in_links c) /\ In l (out_links c)).
Proof.
  intros H l.
  destruct (collect_data_inv ng c H)
    as (locy & min_x & max_x & mean_x & _ & _ & _ & _ & _ & ->). simpl.
  rewrite !filter_In. unfold test_in, test_out.
  rewrite !andb_true_iff, !negb_true_iff.
  pose proof (in_nodes_iff ng (to_node l)) as Hto.
  pose proof (in_nodes_iff ng (from_node l)) as Hfrom.
  destruct (in_nodes (to_node l) _), (in_nodes (from_node l) _);
    intuition congruence.
Qed.

(** The three new nodes are placed at the mean height of the selected nodes;
    the group input 300 to the left of the leftmost selected node, the group
    output 300 to the right of the rightmost one, and the group node between
    the two, at least 300 away from either. *)
Theorem new_nodes_frame_the_selection (ng : NodeTree) (c : collected) :
  collect_data host iteration ng = Ok (Some c) ->
  snd (group_in_location c) = snd (group_node_location c) /\
  snd (group_out_location c) = snd (group_node_location c) /\
  (forall n, selected_in ng n ->
     fst (group_in_location c) + 300 <= fst (location n) /\
     fst (location n) <= fst (group_out_location c) - 300) /\
  fst (group_in_location c) + 300 <= fst (group_node_location c) /\
  fst (group_node_location c) <= fst (group_out_location c) - 300.
Proof.
  intro H.
  destruct (collect_data_inv ng c H)
    as (locy & min_x & max_x & mean_x & Hne & _ & Emin & Emax & Emean & ->).
  simpl.
  destruct (py_min_spec _ _ Emin) as [_ Hmin].
  destruct (py_max_spec _ _ Emax) as [_ Hmax].
  assert (Hb : forall x,
             In x (map (fun n => fst (location n))
                       (iteration (nodup Node_eq_dec
                                     (filter select (nodes ng))))) ->
             min_x <= x /\ x <= max_x) by (intros x Hx; split; auto).
  split; [reflexivity|]. split; [reflexivity|]. split.
  - intros n Hn. apply in_set_iff in Hn.
    destruct (Hb (fst (location n))) as [Hlo Hhi].
    { apply in_map_iff. eauto. }
    split; lra.
  - destruct (mean_bounds min_x max_x _
                (fun E => Hne (map_eq_nil _ _ E)) Hb)
      as (mean & Em & Hlo & Hhi).
    unfold py_len in Em, Emean. rewrite length_map in Em.
    rewrite Em in Emean. injection Emean as <-. split; lra.
Qed.

End Iteration.

Lemma rev_permutes (l : list Node) : Permutation (rev l) l.
Proof. apply Permutation_sym, Permutation_rev. Qed.

Lemma collected_links_cross_the_selection_witness :
  let l := {| from_node := line; from_socket := "Vertices";
              to_node := move; to_socket := "Vertices" |} in
  exists c,
    collect_data strict_host (@rev Node) chain = Ok (Some c) /\
    (In l (in_links c) <->
     In l (links chain) /\
     selected_in chain (to_node l) /\ ~ selected_in chain (from_node l)).
Proof.
  intro l. eexists. split; [reflexivity|].
  apply (collected_links_cross_the_selection strict_host (@rev Node)
           rev_permutes chain _ eq_refl l).
Defined.

Lemma new_nodes_frame_the_selection_witness :
  exists c,
    collect_data strict_host (@rev Node) chain = Ok (Some c) /\
    fst (group_in_location c) + 300 <= fst (group_node_location c) /\
    fst (group_node_location c) <= fst (group_out_location c) - 300.
Proof.
  eexists. split; [reflexivity|].
  apply (new_nodes_frame_the_selection strict_host (@rev Node) rev_permutes
           chain _ eq_refl).
Defined.

(** On a host that knows only its documented report types, a tree without a
    selected node makes [execute] raise the [TypeError] of [report]. *)
Lemma collect_data_raises_only_from_host_witness :
  let e := mk_exn TypeError "enum not found" in
  collect_data strict_host (@rev Node) unselected = Raise e /\
  (freeze strict_host = Raise e \/
   ((forall n, In n (nodes unselected) -> select n = false) /\
    report strict_host ["CANCELLED"%string] "No nodes selected"%string
      = Raise e) \/
   ((exists n, selected_in unselected n) /\
    exists type,
      In type ["SvGroupInputsNode"; "SvGroupOutputsNode";
               "SvGroupNode"]%string
      /\ nodes_new strict_host type = Raise e)).
Proof.
  intro e. split; [reflexivity|].
  exact (collect_data_raises_only_from_host strict_host (@rev Node)
           rev_permutes unselected e eq_refl).
Defined.

End GroupProofs.
